(** * Shared-memory transport of the viewer

    A shallow embedding of [src/ipc/shm_protocol.py] (registry, frame and
    geometry readers, control writer) and of the camera switch of
    [src/ui/viewport.py], with the properties of the transport protocol
    stated and proved over it.

    Python integers are unbounded: they are [Z].  Mapped memory is written
    by another process while the reader runs, so a segment is a function of
    the instant at which it is loaded, and every load advances a clock.
    Exceptions are values of [exn]; a method is a state transformer over the
    object it is called on and the process-wide resources ([Sys]). *)

From Stdlib Require Import ZArith Strings.Byte DecimalString Lia.
From stdpp Require Import base list gmap strings.

Open Scope Z_scope.

(** ** Exceptions and results *)

Inductive exn :=
| FileNotFoundError
| OSError
| ValueError
| StructError
| BufferError
| AttributeError
| TypeError
| OverflowError
| NameError (name : string)
| RuntimeError (what : string) (magic : Z).

Inductive result (A : Type) :=
| Ok (a : A)
| Raise (e : exn).
Arguments Ok {A} a.
Arguments Raise {A} e.

(** ** State and exception monad

    The state survives an exception, as the fields of a Python object do. *)

Definition M (S A : Type) : Type := S -> result A * S.

Section Monad.
Context {S : Type}.

Definition ret {A} (a : A) : M S A := fun s => (Ok a, s).

Definition raise {A} (e : exn) : M S A := fun s => (Raise e, s).

Definition bind {A B} (m : M S A) (k : A -> M S B) : M S B :=
  fun s => match m s with
           | (Ok a, s') => k a s'
           | (Raise e, s') => (Raise e, s')
           end.

Definition get : M S S := fun s => (Ok s, s).

Definition modify (f : S -> S) : M S unit := fun s => (Ok tt, f s).

(** [try: body finally: fin] runs [fin] on both exits and re-raises. *)
Definition try_finally {A} (body : M S A) (fin : M S unit) : M S A :=
  fun s => match body s with
           | (r, s') => match fin s' with
                        | (Ok _, s'') => (r, s'')
                        | (Raise e, s'') => (Raise e, s'')
                        end
           end.

(** [try: body except ...: handler e], for the exceptions [handler] takes. *)
Definition try_except {A} (body : M S A) (handler : exn -> option (M S A)) : M S A :=
  fun s => match body s with
           | (Ok a, s') => (Ok a, s')
           | (Raise e, s') => match handler e with
                              | Some h => h s'
                              | None => (Raise e, s')
                              end
           end.

Definition when (b : bool) (m : M S unit) : M S unit :=
  if b then m else ret tt.
End Monad.

(** A computation on a component of the state. *)
Definition zoom {S T A} (proj : S -> T) (inj : T -> S -> S) (m : M T A) : M S A :=
  fun s => match m (proj s) with (r, t') => (r, inj t' s) end.

Notation "'do' x <- m ; k" := (bind m (fun x => k))
  (at level 10, x pattern, m at level 100, k at level 200).
Notation "m ;; k" := (bind m (fun _ => k))
  (at level 100, k at level 200, right associativity).

(** ** Shared memory and the resources of the process *)

(** A POSIX shared-memory object: its size is fixed by the producer, its
    bytes are whatever the producer has left there at the instant of a load. *)
Record Shm := { shm_size : Z; shm_load : nat -> Z -> byte }.

(** A Python [mmap] object: the memory it maps, the number of buffer exports
    (memoryviews) still alive, and whether it has been closed. *)
Record mmap_obj := { mo_shm : Shm; mo_exports : nat; mo_closed : bool }.

(** A mapping that has just been made. *)
Definition open_mmap (shm : Shm) : mmap_obj :=
  {| mo_shm := shm; mo_exports := 0; mo_closed := false |}.

Record Sys := {
  now : nat;                       (* instant of the next load *)
  files : gmap string Shm;         (* the shared-memory namespace, by path *)
  fds : gmap nat string;           (* open descriptors and the path of each *)
  mmaps : gmap nat mmap_obj;       (* the mmap objects of the interpreter *)
  shared : gmap nat (list byte)    (* the buffers of the SharedMemory objects *)
}.

Definition set_now (f : nat -> nat) (σ : Sys) : Sys :=
  {| now := f (now σ); files := files σ; fds := fds σ; mmaps := mmaps σ;
     shared := shared σ |}.
Definition set_fds (f : gmap nat string -> gmap nat string) (σ : Sys) : Sys :=
  {| now := now σ; files := files σ; fds := f (fds σ); mmaps := mmaps σ;
     shared := shared σ |}.
Definition set_mmaps (f : gmap nat mmap_obj -> gmap nat mmap_obj) (σ : Sys) : Sys :=
  {| now := now σ; files := files σ; fds := fds σ; mmaps := f (mmaps σ);
     shared := shared σ |}.
Definition set_shared (f : gmap nat (list byte) -> gmap nat (list byte)) (σ : Sys) : Sys :=
  {| now := now σ; files := files σ; fds := fds σ; mmaps := mmaps σ;
     shared := f (shared σ) |}.

(** A method runs on the object it is called on and on the resources of
    the process. *)
Definition self {T A} (m : M T A) : M (T * Sys) A :=
  zoom fst (fun t s => (t, snd s)) m.
Definition sys {T A} (m : M Sys A) : M (T * Sys) A :=
  zoom snd (fun σ s => (fst s, σ)) m.

(** A memoryview over a slice of an mmap object. *)
Record memview := { mv_obj : nat; mv_start : Z; mv_len : Z }.

Module os.
(** [os.open(path, os.O_RDONLY)]: a descriptor that is not in use. *)
Definition open (path : string) : M Sys nat :=
  do σ <- get;
  match files σ !! path with
  | None => raise FileNotFoundError
  | Some _ =>
      let fd := fresh (dom (fds σ)) in
      modify (set_fds <[fd := path]>) ;; ret fd
  end.

(** [os.fstat(fd).st_size] *)
Definition fstat_size (fd : nat) : M Sys Z :=
  do σ <- get;
  match fds σ !! fd with
  | None => raise OSError
  | Some path =>
      match files σ !! path with
      | None => raise OSError
      | Some shm => ret (shm_size shm)
      end
  end.

(** [os.close(fd)] *)
Definition close (fd : nat) : M Sys unit :=
  do σ <- get;
  match fds σ !! fd with
  | None => raise OSError
  | Some _ => modify (set_fds (delete fd))
  end.
End os.

Module mmap.
(** [mmap.mmap(fd, length, MAP_SHARED, PROT_READ)]: an empty file cannot
    be mapped, and a length beyond the file is refused. *)
Definition mmap (fd : nat) (length : Z) : M Sys nat :=
  do σ <- get;
  match fds σ !! fd with
  | None => raise OSError
  | Some path =>
      match files σ !! path with
      | None => raise OSError
      | Some shm =>
          if (shm_size shm <=? 0) || (shm_size shm <? length) || (length <? 0)
          then raise ValueError
          else
            let m := fresh (dom (mmaps σ)) in
            modify (set_mmaps <[m := open_mmap shm]>) ;;
            ret m
      end
  end.

Definition lookup (m : nat) : M Sys mmap_obj :=
  do σ <- get;
  match mmaps σ !! m with
  | Some o => if mo_closed o then raise ValueError else ret o
  | None => raise ValueError
  end.

(** [len(mm)] *)
Definition len (m : nat) : M Sys Z :=
  do o <- lookup m; ret (shm_size (mo_shm o)).

(** The bytes [mm[off : off+n]] as they are at the instant of the load. *)
Definition bytes_at (shm : Shm) (t : nat) (off : Z) (n : nat) : list byte :=
  map (fun i => shm_load shm t (off + Z.of_nat i)) (seq 0 n).

(** [mm.close()]: refused while a memoryview is exported. *)
Definition close (m : nat) : M Sys unit :=
  do σ <- get;
  match mmaps σ !! m with
  | None => ret tt
  | Some o =>
      if mo_closed o then ret tt
      else if (0 <? mo_exports o)%nat then raise BufferError
      else modify (set_mmaps <[m := {| mo_shm := mo_shm o; mo_exports := 0; mo_closed := true |}]>)
  end.

(** Python's slice bounds for [x[a:b]] on a sequence of length [n]. *)
Definition clamp (n i : Z) : Z :=
  if i <? 0 then Z.max 0 (i + n) else Z.min i n.

(** [memoryview(mm)[a:b]]: exports the buffer of the mmap object. *)
Definition view (m : nat) (a b : Z) : M Sys memview :=
  do o <- lookup m;
  let n := shm_size (mo_shm o) in
  let start := clamp n a in
  let stop := clamp n b in
  modify (set_mmaps <[m := {| mo_shm := mo_shm o; mo_exports := S (mo_exports o);
                              mo_closed := mo_closed o |}]>) ;;
  ret {| mv_obj := m; mv_start := start; mv_len := Z.max 0 (stop - start) |}.

(** Dropping the last reference to a memoryview releases its export. *)
Definition release (v : memview) : M Sys unit :=
  do σ <- get;
  match mmaps σ !! mv_obj v with
  | None => ret tt
  | Some o =>
      modify (set_mmaps <[mv_obj v := {| mo_shm := mo_shm o; mo_exports := pred (mo_exports o);
                                         mo_closed := mo_closed o |}]>)
  end.

(** [mm[a:b]]: a copy of the bytes of the slice, taken in one load. *)
Definition read_slice (m : nat) (a b : Z) : M Sys (list byte) :=
  do o <- lookup m;
  let n := shm_size (mo_shm o) in
  let start := clamp n a in
  let stop := clamp n b in
  do σ <- get;
  modify (set_now S) ;;
  ret (bytes_at (mo_shm o) (now σ) start (Z.to_nat (stop - start))).
End mmap.

(** ** The [struct] module: little-endian unsigned fields *)

Module struct.
Fixpoint le_uint (bs : list byte) : Z :=
  match bs with
  | [] => 0
  | b :: bs' => Z.of_N (Byte.to_N b) + 256 * le_uint bs'
  end.

Definition byte_of (v : Z) : byte :=
  default x00 (Byte.of_N (Z.to_N (v mod 256))).

(** The [w] little-endian bytes of [v]. *)
Fixpoint le_bytes (w : nat) (v : Z) : list byte :=
  match w with
  | O => []
  | S w' => byte_of v :: le_bytes w' (v / 256)
  end.

(** A field of [w] bytes at [off] of a buffer read as [bs]. *)
Definition field (bs : list byte) (off w : nat) : Z :=
  le_uint (take w (drop off bs)).

(** [struct.unpack_from(fmt, mm, off)] for a format of [size] bytes:
    [struct.error] when the buffer is too short, otherwise the bytes of
    the record as one load of the mapping.  The offsets of the readers are
    sums and products of unsigned fields, never negative. *)
Definition load (m : nat) (off : Z) (size : nat) : M Sys (list byte) :=
  do o <- mmap.lookup m;
  if (off <? 0) || (shm_size (mo_shm o) <? off + Z.of_nat size)
  then raise StructError
  else
    do σ <- get;
    modify (set_now S) ;;
    ret (mmap.bytes_at (mo_shm o) (now σ) off size).

(** [struct.unpack_from("<I", mm, off)[0]] *)
Definition unpack_u32 (m : nat) (off : Z) : M Sys Z :=
  do bs <- load m off 4; ret (le_uint bs).

(** [struct.unpack_from("<Q", mm, off)[0]] *)
Definition unpack_u64 (m : nat) (off : Z) : M Sys Z :=
  do bs <- load m off 8; ret (le_uint bs).
End struct.

(** ** Constants of the protocol *)

Definition FMT_RGB888 : Z := 0.
Definition VERSION : Z := 1.
Definition FB_HDR_size : nat := 28.     (* "<I H H I I I I I" *)
Definition MAGIC : Z := 0x55434642.     (* 'UCFB' *)
Definition REG_HDR_size : nat := 12.    (* "<I I I" *)
Definition REG_CAM_size : nat := 48.    (* "<32s I I I I" *)
Definition REG_MAGIC : Z := 0x55435247.
Definition GEOM_MAGIC : Z := 0x5543474D. (* 'UCGM' *)

(** [time.sleep(...)]: the module does not import [time], so evaluating
    the name raises before anything is slept. *)
Definition time_sleep {S} : M S unit := raise (NameError "time").

(** Truth value of a Python number. *)
Definition truthy (x : Z) : bool := negb (x =? 0).

(** ** FrameShmReader *)

Module FrameShmReader.
Record t := {
  name : string;
  fd : option nat;
  mm : option nat;
  width : Z;
  height : Z;
  stride : Z;
  bufcnt : Z;
  header_size : Z;
  onebuf_size : Z;
  _last_seq : Z
}.

Definition __init__ (name : string) : t :=
  {| name := name; fd := None; mm := None; width := 0; height := 0; stride := 0;
     bufcnt := 0; header_size := Z.of_nat FB_HDR_size; onebuf_size := 0; _last_seq := 0 |}.

Definition set_fd (v : option nat) (r : t) : t :=
  {| name := name r; fd := v; mm := mm r; width := width r; height := height r;
     stride := stride r; bufcnt := bufcnt r; header_size := header_size r;
     onebuf_size := onebuf_size r; _last_seq := _last_seq r |}.
Definition set_mm (v : option nat) (r : t) : t :=
  {| name := name r; fd := fd r; mm := v; width := width r; height := height r;
     stride := stride r; bufcnt := bufcnt r; header_size := header_size r;
     onebuf_size := onebuf_size r; _last_seq := _last_seq r |}.
Definition set_dims (w h s n : Z) (r : t) : t :=
  {| name := name r; fd := fd r; mm := mm r; width := w; height := h;
     stride := s; bufcnt := n; header_size := header_size r;
     onebuf_size := onebuf_size r; _last_seq := _last_seq r |}.
Definition set_onebuf_size (v : Z) (r : t) : t :=
  {| name := name r; fd := fd r; mm := mm r; width := width r; height := height r;
     stride := stride r; bufcnt := bufcnt r; header_size := header_size r;
     onebuf_size := v; _last_seq := _last_seq r |}.
Definition set_last_seq (v : Z) (r : t) : t :=
  {| name := name r; fd := fd r; mm := mm r; width := width r; height := height r;
     stride := stride r; bufcnt := bufcnt r; header_size := header_size r;
     onebuf_size := onebuf_size r; _last_seq := v |}.

Definition _path (r : t) : string :=
  if String.prefix "/" (name r) then "/dev/shm" +:+ name r else "/dev/shm/" +:+ name r.

(** [self.mm] where the code passes it to a function that needs a buffer. *)
Definition the_mm : M (t * Sys) nat :=
  do r <- self get;
  match mm r with Some m => ret m | None => raise TypeError end.

Definition connect : M (t * Sys) unit :=
  do r <- self get;
  let path := _path r in
  do f <- sys (os.open path);
  self (modify (set_fd (Some f))) ;;
  do size <- sys (os.fstat_size f);
  do m <- sys (mmap.mmap f size);
  self (modify (set_mm (Some m))) ;;
  do header <- sys (mmap.read_slice m 0 (header_size r));
  (* FB_HDR.unpack(header) *)
  if negb (length header =? FB_HDR_size)%nat then raise StructError else
  let magic := struct.field header 0 4 in
  let w := struct.field header 8 4 in
  let h := struct.field header 12 4 in
  let stride := struct.field header 16 4 in
  let bufcnt := struct.field header 20 4 in
  if negb (magic =? MAGIC) then raise (RuntimeError "Bad FB magic" magic) else
  self (modify (set_dims w h stride bufcnt)) ;;
  self (modify (set_onebuf_size (8 + h * stride))).

Definition _buf_base (r : t) (idx : Z) : Z :=
  header_size r + idx * onebuf_size r.

(** The local function [read_seq] of [latest_frame_view]. *)
Definition read_seq (base : Z) : M (t * Sys) Z :=
  do m <- the_mm; sys (struct.unpack_u64 m base).

(** The [while spins < max_spins] loop, which runs its body
    [max_spins - spins] times unless the body returns; [n] is that number.
    The result carries the final value of [spins]. *)
Fixpoint spin (n : nat) (base sleep_ns spins : Z)
  : M (t * Sys) (option (memview * Z) * Z) :=
  match n with
  | O => ret (None, spins)
  | S n' =>
      do s1 <- read_seq base;
      do found <-
        (if Z.land s1 1 =? 1 then
           when (truthy sleep_ns) time_sleep ;;
           do s2 <- read_seq base;
           if s1 =? s2 then
             do r <- self get;
             let payload_off := base + 8 in
             let payload_len := height r * stride r in
             do m <- the_mm;
             do mv <- sys (mmap.view m payload_off (payload_off + payload_len));
             self (modify (set_last_seq s1)) ;;
             ret (Some (mv, s1))
           else ret None
         else ret None);
      match found with
      | Some x => ret (Some x, spins)
      | None =>
          when (truthy sleep_ns) time_sleep ;;
          spin n' base sleep_ns (spins + 1)
      end
  end.

(** [latest_frame_view] together with the number of completed spins. *)
Definition latest_frame_view_spins (max_spins sleep_ns : Z)
  : M (t * Sys) ((option memview * Z) * Z) :=
  do r <- self get;
  match mm r with
  | None => ret ((None, _last_seq r), 0)
  | Some m =>
      do active <- sys (struct.unpack_u32 m 24);
      let base := _buf_base r active in
      do out <- spin (Z.to_nat max_spins) base sleep_ns 0;
      match out with
      | (Some (mv, s1), spins) => ret ((Some mv, s1), spins)
      | (None, spins) => do r' <- self get; ret ((None, _last_seq r'), spins)
      end
  end.

Definition latest_frame_view (max_spins sleep_ns : Z) : M (t * Sys) (option memview * Z) :=
  do out <- latest_frame_view_spins max_spins sleep_ns; ret (fst out).

Definition latest_frame_view_fast : M (t * Sys) (option memview * Z) :=
  do r <- self get;
  match mm r with
  | None => ret (None, _last_seq r)
  | Some m =>
      do active_idx <- sys (struct.unpack_u32 m 24);
      let base := header_size r + active_idx * onebuf_size r in
      do seq <- sys (struct.unpack_u64 m base);
      if Z.land seq 1 =? 0 then ret (None, _last_seq r)
      else
        let payload_off := base + 8 in
        let payload_len := height r * stride r in
        do mv <- sys (mmap.view m payload_off (payload_off + payload_len));
        self (modify (set_last_seq seq)) ;;
        ret (Some mv, seq)
  end.

Definition close : M (t * Sys) unit :=
  try_finally
    (do r <- self get;
     match mm r with Some m => sys (mmap.close m) | None => ret tt end ;;
     match fd r with Some f => sys (os.close f) | None => ret tt end)
    (self (modify (set_mm None)) ;; self (modify (set_fd None))).
End FrameShmReader.

(** ** GeoShmReader *)

(** The dict [{"count": .., "width": .., "height": ..}] of the geometry reader. *)
Record geo_meta := { meta_count : Z; meta_width : Z; meta_height : Z }.

Module GeoShmReader.
Record t := {
  name : string;
  fd : option nat;
  mm : option nat;
  count : Z;
  width : Z;
  height : Z;
  _last_seq : Z;
  _hdr_size : Z
}.

Definition __init__ (name : string) : t :=
  {| name := name; fd := None; mm := None; count := 0; width := 0; height := 0;
     _last_seq := 0; _hdr_size := 24 |}.

Definition set_fd (v : option nat) (r : t) : t :=
  {| name := name r; fd := v; mm := mm r; count := count r; width := width r;
     height := height r; _last_seq := _last_seq r; _hdr_size := _hdr_size r |}.
Definition set_mm (v : option nat) (r : t) : t :=
  {| name := name r; fd := fd r; mm := v; count := count r; width := width r;
     height := height r; _last_seq := _last_seq r; _hdr_size := _hdr_size r |}.
Definition set_dims (n w h : Z) (r : t) : t :=
  {| name := name r; fd := fd r; mm := mm r; count := n; width := w;
     height := h; _last_seq := _last_seq r; _hdr_size := _hdr_size r |}.
Definition set_last_seq (v : Z) (r : t) : t :=
  {| name := name r; fd := fd r; mm := mm r; count := count r; width := width r;
     height := height r; _last_seq := v; _hdr_size := _hdr_size r |}.

Definition the_mm : M (t * Sys) nat :=
  do r <- self get;
  match mm r with Some m => ret m | None => raise TypeError end.

Definition connect : M (t * Sys) unit :=
  do r <- self get;
  let path := "/dev/shm" +:+ name r in
  do f <- sys (os.open path);
  self (modify (set_fd (Some f))) ;;
  do size <- sys (os.fstat_size f);
  do m <- sys (mmap.mmap f size);
  self (modify (set_mm (Some m))) ;;
  (* struct.unpack_from("<IIII", self.mm, 0) *)
  do hdr <- sys (struct.load m 0 16);
  let magic := struct.field hdr 0 4 in
  let n := struct.field hdr 4 4 in
  let w := struct.field hdr 8 4 in
  let h := struct.field hdr 12 4 in
  if negb (magic =? GEOM_MAGIC) then raise (RuntimeError "Bad GEOM magic" magic) else
  self (modify (set_dims n w h)).

(** The local function [_seq] of [latest]: the sequence at offset 16. *)
Definition _seq : M (t * Sys) Z :=
  do m <- the_mm; sys (struct.unpack_u64 m 16).

Definition meta_of (r : t) : geo_meta :=
  {| meta_count := count r; meta_width := width r; meta_height := height r |}.

(** The [while spins < max_spins] loop of [latest], run [n] times unless
    the body returns; the result carries the final value of [spins]. *)
Fixpoint spin (n : nat) (sleep_ns spins : Z)
  : M (t * Sys) (option (memview * geo_meta * Z) * Z) :=
  match n with
  | O => ret (None, spins)
  | S n' =>
      do s1 <- _seq;
      do found <-
        (if Z.land s1 1 =? 1 then
           when (truthy sleep_ns) time_sleep ;;
           do s2 <- _seq;
           if s1 =? s2 then
             do r <- self get;
             do m <- the_mm;
             do payload <- sys (mmap.view m (_hdr_size r) (_hdr_size r + count r * 8));
             self (modify (set_last_seq s1)) ;;
             ret (Some (payload, meta_of r, s1))
           else ret None
         else ret None);
      match found with
      | Some x => ret (Some x, spins)
      | None =>
          when (truthy sleep_ns) time_sleep ;;
          spin n' sleep_ns (spins + 1)
      end
  end.

(** [latest] together with the number of completed spins. *)
Definition latest_spins (max_spins sleep_ns : Z)
  : M (t * Sys) ((option memview * option geo_meta * Z) * Z) :=
  do r <- self get;
  match mm r with
  | None => ret ((None, None, _last_seq r), 0)
  | Some _ =>
      do out <- spin (Z.to_nat max_spins) sleep_ns 0;
      match out with
      | (Some (payload, meta, s1), spins) => ret ((Some payload, Some meta, s1), spins)
      | (None, spins) => do r' <- self get; ret ((None, None, _last_seq r'), spins)
      end
  end.

Definition latest (max_spins sleep_ns : Z)
  : M (t * Sys) (option memview * option geo_meta * Z) :=
  do out <- latest_spins max_spins sleep_ns; ret (fst out).

Definition latest_fast : M (t * Sys) (option memview * option geo_meta * Z) :=
  do r <- self get;
  match mm r with
  | None => ret (None, None, _last_seq r)
  | Some m =>
      do seq <- sys (struct.unpack_u64 m 16);
      if Z.land seq 1 =? 0 then ret (None, None, _last_seq r)
      else
        do payload <- sys (mmap.view m (_hdr_size r) (_hdr_size r + count r * 8));
        self (modify (set_last_seq seq)) ;;
        ret (Some payload, Some (meta_of r), seq)
  end.

Definition close : M (t * Sys) unit :=
  try_finally
    (do r <- self get;
     match mm r with Some m => sys (mmap.close m) | None => ret tt end ;;
     match fd r with Some f => sys (os.close f) | None => ret tt end)
    (self (modify (set_mm None)) ;; self (modify (set_fd None))).
End GeoShmReader.

(** ** RegistryReader *)

(** The dict of one camera, as [list_cameras] builds it. *)
Record camera := {
  cam_name : string;
  cam_index : Z;
  cam_count : Z;
  cam_width : Z;
  cam_height : Z
}.

Module RegistryReader.
Record t := { name : string; fd : option nat; mm : option nat }.

Definition __init__ (name : string) : t := {| name := name; fd := None; mm := None |}.

Definition connect : M (t * Sys) unit :=
  do r <- self get;
  let path := "/dev/shm" +:+ name r in
  do f <- sys (os.open path);
  self (modify (fun r => {| name := name r; fd := Some f; mm := mm r |})) ;;
  do size <- sys (os.fstat_size f);
  do m <- sys (mmap.mmap f size);
  self (modify (fun r => {| name := name r; fd := fd r; mm := Some m |})).

(** [name_b.split(b'\x00', 1)[0]]: the bytes before the first NUL. *)
Fixpoint split_nul (bs : list byte) : list byte :=
  match bs with
  | [] => []
  | b :: bs' => if Byte.eqb b x00 then [] else b :: split_nul bs'
  end.

Section Decode.
(** [bytes.decode('utf-8', 'ignore')], a builtin of the interpreter. *)
Variable decode_utf8_ignore : list byte -> string.

(** One record [REG_CAM] ("<32s I I I I") read as [bs]. *)
Definition unpack_cam (bs : list byte) : camera :=
  let name_b := take 32 bs in
  {| cam_name := decode_utf8_ignore (split_nul name_b);
     cam_index := struct.field bs 32 4;
     cam_count := struct.field bs 36 4;
     cam_width := struct.field bs 40 4;
     cam_height := struct.field bs 44 4 |}.

(** [for _ in range(count)]: [n] iterations from offset [off]. *)
Fixpoint cams_loop (n : nat) (m : nat) (off : Z) (cams : list camera)
  : M (t * Sys) (list camera) :=
  match n with
  | O => ret cams
  | S n' =>
      do bs <- sys (struct.load m off REG_CAM_size);
      let off := off + Z.of_nat REG_CAM_size in
      cams_loop n' m off (cams ++ [unpack_cam bs])
  end.

Definition list_cameras : M (t * Sys) (list camera) :=
  do r <- self get;
  match mm r with
  | None => ret []
  | Some m =>
      (* [if not self.mm]: an mmap object is false when its length is 0 *)
      do n <- sys (mmap.len m);
      if n =? 0 then ret [] else
      do hdr <- sys (struct.load m 0 REG_HDR_size);
      let magic := struct.field hdr 0 4 in
      let count := struct.field hdr 8 4 in
      if negb (magic =? REG_MAGIC) then ret [] else
      cams_loop (Z.to_nat count) m (Z.of_nat REG_HDR_size) []
  end.
End Decode.

Definition close : M (t * Sys) unit :=
  do r <- self get;
  match mm r with Some m => sys (mmap.close m) | None => ret tt end ;;
  match fd r with Some f => sys (os.close f) | None => ret tt end ;;
  self (modify (fun r => {| name := name r; fd := None; mm := None |})).
End RegistryReader.

(** ** CtrlShmWriter *)

Module shared_memory.
(** [shared_memory.SharedMemory(name=name)]: attaches to an existing
    segment and maps it whole, read-write. *)
Definition SharedMemory (name : string) : M Sys nat :=
  do σ <- get;
  match files σ !! ("/dev/shm/" +:+ name) with
  | None => raise FileNotFoundError
  | Some shm =>
      if shm_size shm <=? 0 then raise ValueError else
      let o := fresh (dom (shared σ)) in
      modify (set_shared <[o := mmap.bytes_at shm (now σ) 0 (Z.to_nat (shm_size shm))]>) ;;
      ret o
  end.

(** [shm.buf[:n] = data]: the slice and the data must have one length. *)
Definition assign_prefix (o : nat) (n : Z) (data : list byte) : M Sys unit :=
  do σ <- get;
  match shared σ !! o with
  | None => raise TypeError
  | Some buf =>
      let stop := mmap.clamp (Z.of_nat (length buf)) n in
      if negb (stop =? Z.of_nat (length data)) then raise ValueError
      else modify (set_shared <[o := data ++ drop (length data) buf]>)
  end.
End shared_memory.

Module CtrlShmWriter.
(** The format "<Q B x x x f 3f 3f 3f I". *)
Inductive code := U (w : nat) | Pad (n : nat) | F32.

Definition CTRL_STRUCT : list code :=
  [U 8; U 1; Pad 3; F32; F32; F32; F32; F32; F32; F32; F32; F32; F32; U 4].

Definition code_size (c : code) : nat :=
  match c with U w => w | Pad n => n | F32 => 4 end.

Definition calcsize (fmt : list code) : nat :=
  foldr (fun c n => (code_size c + n)%nat) 0%nat fmt.

Definition CTRL_STRUCT_size : nat := Eval cbv in calcsize CTRL_STRUCT.

Section Floats.
(** Python floats and their packing as IEEE binary32 (the 'f' of
    [struct]): [None] is the OverflowError of a value out of range. *)
Variable float : Type.
Variable pack_f32 : float -> option (list byte).
Variables zero one minus_one : float.

Inductive arg := AInt (v : Z) | AFloat (x : float).

Record t := {
  name : string;
  shm : option nat;
  seq : Z;
  pause : Z;
  dt_scale : float;
  cam_pos : list float;
  cam_look : list float;
  cam_up : list float;
  debug_flags : Z
}.

Definition __init__ (name : string) : t :=
  {| name := name; shm := None; seq := 0; pause := 0; dt_scale := one;
     cam_pos := [zero; zero; zero]; cam_look := [zero; zero; minus_one];
     cam_up := [zero; one; zero]; debug_flags := 0 |}.

Definition set_seq (v : Z) (w : t) : t :=
  {| name := name w; shm := shm w; seq := v; pause := pause w; dt_scale := dt_scale w;
     cam_pos := cam_pos w; cam_look := cam_look w; cam_up := cam_up w;
     debug_flags := debug_flags w |}.
Definition set_shm (v : option nat) (w : t) : t :=
  {| name := name w; shm := v; seq := seq w; pause := pause w; dt_scale := dt_scale w;
     cam_pos := cam_pos w; cam_look := cam_look w; cam_up := cam_up w;
     debug_flags := debug_flags w |}.

(** One item packed by its code. *)
Definition pack_item (c : code) (a : arg) : result (list byte) :=
  match c, a with
  | U w, AInt v =>
      if (0 <=? v) && (v <? 2 ^ (8 * Z.of_nat w)) then Ok (struct.le_bytes w v)
      else Raise StructError
  | F32, AFloat x =>
      match pack_f32 x with Some bs => Ok bs | None => Raise OverflowError end
  | _, _ => Raise StructError
  end.

Fixpoint pack_items (fmt : list code) (args : list arg) : result (list byte) :=
  match fmt with
  | [] => Ok []
  | Pad n :: fmt' =>
      match pack_items fmt' args with
      | Ok bs => Ok (replicate n x00 ++ bs)
      | Raise e => Raise e
      end
  | c :: fmt' =>
      match args with
      | [] => Raise StructError
      | a :: args' =>
          match pack_item c a with
          | Raise e => Raise e
          | Ok b =>
              match pack_items fmt' args' with
              | Ok bs => Ok (b ++ bs)
              | Raise e => Raise e
              end
          end
      end
  end.

Definition is_pad (c : code) : bool := match c with Pad _ => true | _ => false end.

(** [Struct.pack] of the items: their number is checked first. *)
Definition pack (fmt : list code) (args : list arg) : result (list byte) :=
  if negb (length (filter (fun c => is_pad c = false) fmt) =? length args)%nat
  then Raise StructError
  else pack_items fmt args.

Definition connect : M (t * Sys) unit :=
  do w <- self get;
  do o <- sys (shared_memory.SharedMemory (name w));
  self (modify (set_shm (Some o))).

Definition record_args (w : t) : list arg :=
  [AInt (seq w); AInt (pause w); AFloat (dt_scale w)]
    ++ map AFloat (cam_pos w) ++ map AFloat (cam_look w) ++ map AFloat (cam_up w)
    ++ [AInt (debug_flags w)].

Definition write : M (t * Sys) unit :=
  self (modify (fun w => set_seq (seq w + 1) w)) ;;
  do w <- self get;
  match pack CTRL_STRUCT (record_args w) with
  | Raise e => raise e
  | Ok buf =>
      match shm w with
      | None => raise AttributeError
      | Some o => sys (shared_memory.assign_prefix o (Z.of_nat CTRL_STRUCT_size) buf)
      end
  end.
End Floats.

Arguments name {float} _.
Arguments shm {float} _.
Arguments seq {float} _.
Arguments pause {float} _.
Arguments dt_scale {float} _.
Arguments cam_pos {float} _.
Arguments cam_look {float} _.
Arguments cam_up {float} _.
Arguments debug_flags {float} _.
Arguments set_seq {float} _ _.
Arguments set_shm {float} _ _.
Arguments AInt {float} _.
Arguments AFloat {float} _.
Arguments pack_item {float} _ _ _.
Arguments pack_items {float} _ _ _.
Arguments pack {float} _ _ _.
Arguments record_args {float} _.
Arguments connect {float}.
Arguments write {float} _.
End CtrlShmWriter.

(** ** Viewport: the camera switch *)

(** [str(idx)] of a Python int. *)
Definition str (idx : Z) : string := NilZero.string_of_int (Z.to_int idx).

(** [obj.method()] on an object held by value: the result of the call, an
    exception included, and the object as the call leaves it. *)
Definition call {V T A} (obj : T) (m : M (T * Sys) A) : M (V * Sys) (result A * T) :=
  fun s => match m (obj, snd s) with
           | (r, (obj', σ')) => (Ok (r, obj'), (fst s, σ'))
           end.

Module Viewport.
(** The closure [_delayed_close] with the readers it has captured. Each
    reader object is referenced from one place only (the viewport or one
    pending closure), so the objects are held by value. *)
Inductive callback :=
| delayed_close_cb (old_fb : option FrameShmReader.t) (old_geom : option GeoShmReader.t).

Record t := {
  _view_keepalive : option memview;
  _fb : option FrameShmReader.t;
  _geom : option GeoShmReader.t;
  _cams_meta : list camera;
  _active_idx : Z;
  timers : list (Z * callback)         (* pending [QTimer.singleShot]s *)
}.

Definition __init__ : t :=
  {| _view_keepalive := None; _fb := None; _geom := None; _cams_meta := [];
     _active_idx := -1; timers := [] |}.

Definition set_view_keepalive (x : option memview) (v : t) : t :=
  {| _view_keepalive := x; _fb := _fb v; _geom := _geom v; _cams_meta := _cams_meta v;
     _active_idx := _active_idx v; timers := timers v |}.
Definition set_fb (x : option FrameShmReader.t) (v : t) : t :=
  {| _view_keepalive := _view_keepalive v; _fb := x; _geom := _geom v;
     _cams_meta := _cams_meta v; _active_idx := _active_idx v; timers := timers v |}.
Definition set_geom (x : option GeoShmReader.t) (v : t) : t :=
  {| _view_keepalive := _view_keepalive v; _fb := _fb v; _geom := x;
     _cams_meta := _cams_meta v; _active_idx := _active_idx v; timers := timers v |}.
Definition set_active_idx (x : Z) (v : t) : t :=
  {| _view_keepalive := _view_keepalive v; _fb := _fb v; _geom := _geom v;
     _cams_meta := _cams_meta v; _active_idx := x; timers := timers v |}.
Definition set_timers (x : list (Z * callback)) (v : t) : t :=
  {| _view_keepalive := _view_keepalive v; _fb := _fb v; _geom := _geom v;
     _cams_meta := _cams_meta v; _active_idx := _active_idx v; timers := x |}.

(** [QTimer.singleShot(ms, f)] *)
Definition singleShot (ms : Z) (f : callback) : M (t * Sys) unit :=
  self (modify (fun v => set_timers (timers v ++ [(ms, f)]) v)).

Definition _release_current_buffers : M (t * Sys) unit :=
  do v <- self get;
  match _view_keepalive v with
  | Some mv => sys (mmap.release mv)
  | None => ret tt
  end ;;
  self (modify (set_view_keepalive None)).

Definition _delayed_close (old_fb : option FrameShmReader.t)
    (old_geom : option GeoShmReader.t) : M (t * Sys) unit :=
  (* Close FB first *)
  do fb_step <-
    match old_fb with
    | None => ret (Some old_fb)
    | Some fb =>
        do out <- call fb FrameShmReader.close;
        match out with
        | (Ok _, fb') => ret (Some (Some fb'))
        | (Raise BufferError, fb') =>
            singleShot 50 (delayed_close_cb (Some fb') old_geom) ;; ret None
        | (Raise AttributeError, fb') => ret (Some (Some fb'))
        | (Raise e, _) => raise e
        end
    end;
  match fb_step with
  | None => ret tt                      (* return *)
  | Some old_fb' =>
      (* Then GEOM *)
      match old_geom with
      | None => ret tt
      | Some g =>
          do out <- call g GeoShmReader.close;
          match out with
          | (Ok _, _) => ret tt
          | (Raise BufferError, g') =>
              singleShot 50 (delayed_close_cb old_fb' (Some g'))
          | (Raise AttributeError, _) => ret tt
          | (Raise e, _) => raise e
          end
      end
  end.

(** The event loop runs the oldest pending single-shot timer. *)
Definition fire : M (t * Sys) unit :=
  do v <- self get;
  match timers v with
  | [] => ret tt
  | (_, delayed_close_cb old_fb old_geom) :: rest =>
      self (modify (set_timers rest)) ;;
      _delayed_close old_fb old_geom
  end.

(** [self._fb.connect()] and [self._geom.connect()] *)
Definition fb_connect : M (t * Sys) unit :=
  do v <- self get;
  match _fb v with
  | None => raise AttributeError
  | Some fb =>
      do out <- call fb FrameShmReader.connect;
      self (modify (set_fb (Some (snd out)))) ;;
      match fst out with Ok _ => ret tt | Raise e => raise e end
  end.

Definition geom_connect : M (t * Sys) unit :=
  do v <- self get;
  match _geom v with
  | None => raise AttributeError
  | Some g =>
      do out <- call g GeoShmReader.connect;
      self (modify (set_geom (Some (snd out)))) ;;
      match fst out with Ok _ => ret tt | Raise e => raise e end
  end.

Definition _open_camera_by_index (idx : Z) : M (t * Sys) unit :=
  do v <- self get;
  let old_fb := _fb v in
  let old_geom := _geom v in
  _release_current_buffers ;;
  (* schedule the close after this event loop turn *)
  singleShot 0 (delayed_close_cb old_fb old_geom) ;;
  (* Open the new camera pair *)
  let fb_name := "/uc3d_fb" +:+ str idx in
  let geom_name := "/uc3d_geom" +:+ str idx in
  self (modify (set_fb (Some (FrameShmReader.__init__ fb_name)))) ;;
  fb_connect ;;
  self (modify (set_geom (Some (GeoShmReader.__init__ geom_name)))) ;;
  geom_connect ;;
  self (modify (set_active_idx idx)).

Definition _on_cam_changed (combo_index : Z) : M (t * Sys) unit :=
  do v <- self get;
  if (combo_index <? 0) || (Z.of_nat (length (_cams_meta v)) <=? combo_index) then ret tt else
  match _cams_meta v !! Z.to_nat combo_index with
  | None => ret tt
  | Some meta =>
      let idx := cam_index meta in
      (* Avoid reopening same cam *)
      if idx =? _active_idx v then ret tt else
      try_except (_open_camera_by_index idx)
        (fun e => match e with FileNotFoundError => Some (ret tt) | _ => None end)
  end.
End Viewport.

(** ** uc3d_view: the stand-alone frame viewer *)

Module uc3d_view.
Definition HDR_SIZE : nat := 28.        (* struct.calcsize("<I H H I I I I I") *)
Definition BUF_HDR_SIZE : Z := 8.       (* struct.calcsize("<Q") *)

(** The dict that [read_header] returns. *)
Record header := {
  ver : Z;
  fmt : Z;
  w : Z;
  h : Z;
  stride : Z;
  bufcnt : Z;
  active : Z
}.

(** [os.stat(path).st_size] *)
Definition stat_size (path : string) : M Sys Z :=
  do σ <- get;
  match files σ !! path with
  | None => raise FileNotFoundError
  | Some shm => ret (shm_size shm)
  end.

Definition open_mmap (path : string) : M Sys (nat * Z) :=
  do f <- os.open path;
  try_finally
    (do size <- stat_size path;
     do mm <- mmap.mmap f size;
     ret (mm, size))
    (os.close f).

Definition read_header (mm : nat) : M Sys header :=
  do hdr <- mmap.read_slice mm 0 (Z.of_nat HDR_SIZE);
  (* struct.unpack(HDR_FMT, hdr) *)
  if negb (length hdr =? HDR_SIZE)%nat then raise StructError else
  let magic := struct.field hdr 0 4 in
  let ver := struct.field hdr 4 2 in
  let fmt_ := struct.field hdr 6 2 in
  let w := struct.field hdr 8 4 in
  let h := struct.field hdr 12 4 in
  let stride := struct.field hdr 16 4 in
  let bufcnt := struct.field hdr 20 4 in
  let active := struct.field hdr 24 4 in
  if negb (magic =? MAGIC) then raise (RuntimeError "Bad magic" magic) else
  if negb (fmt_ =? 0) then raise (RuntimeError "Unsupported pixel format" fmt_) else
  ret {| ver := ver; fmt := fmt_; w := w; h := h; stride := stride; bufcnt := bufcnt;
         active := active |}.

Definition buffer_offset (i h stride : Z) : Z :=
  let one := BUF_HDR_SIZE + h * stride in
  Z.of_nat HDR_SIZE + i * one.

Definition buf_payload_view (mm : nat) (i h stride : Z) : M Sys (Z * memview) :=
  let off := buffer_offset i h stride in
  do seq <- struct.unpack_u64 mm off;
  let payload_off := off + BUF_HDR_SIZE in
  do payload <- mmap.view mm payload_off (payload_off + h * stride);
  ret (seq, payload).

(** [[hdr["active"]] + [i for i in range(hdr["bufcnt"]) if i != hdr["active"]]] *)
Definition candidates (hdr : header) : list Z :=
  active hdr :: filter (fun i => i ≠ active hdr) (seqZ 0 (bufcnt hdr)).

(** Dropping the view bound by the previous iteration, when there is one. *)
Definition drop_view (prev : option memview) : M Sys unit :=
  match prev with
  | Some v => mmap.release v
  | None => ret tt
  end.

(** The loop of [choose_latest_ready] over the candidates left; [prev] is
    the view still bound to [payload] by the iteration before, which the
    next assignment (or the return) drops. *)
Fixpoint choose_loop (mm : nat) (hdr : header) (cands : list Z) (prev : option memview)
  : M Sys (option (Z * Z * memview)) :=
  match cands with
  | [] => drop_view prev ;; ret None
  | candidate :: rest =>
      do out <- buf_payload_view mm candidate (h hdr) (stride hdr);
      let '(seq, payload) := out in
      drop_view prev ;;
      if truthy (Z.land seq 1) then ret (Some (candidate, seq, payload))
      else choose_loop mm hdr rest (Some payload)
  end.

Definition choose_latest_ready (mm : nat) (hdr : header) : M Sys (option (Z * Z * memview)) :=
  choose_loop mm hdr (candidates hdr) None.
End uc3d_view.

(** ** Concrete segments *)

Module Fixtures.
Definition u16 := struct.le_bytes 2.
Definition u32 := struct.le_bytes 4.
Definition u64 := struct.le_bytes 8.

(** A segment whose content at each instant is [sched t], padded with
    zero bytes up to [size]. *)
Definition shm_of (size : nat) (sched : nat -> list byte) : Shm :=
  {| shm_size := Z.of_nat size;
     shm_load := fun t a => nth (Z.to_nat a) (sched t) x00 |}.

Definition shm_const (bs : list byte) : Shm := shm_of (length bs) (fun _ => bs).

Definition fb_header (magic ver fmt w h stride bufcnt active : Z) : list byte :=
  u32 magic ++ u16 ver ++ u16 fmt ++ u32 w ++ u32 h ++ u32 stride ++ u32 bufcnt ++ u32 active.

Definition frame_buffer (seq : Z) (payload : list byte) : list byte := u64 seq ++ payload.

Definition geom_header (magic count w h seq : Z) : list byte :=
  u32 magic ++ u32 count ++ u32 w ++ u32 h ++ u64 seq.

Definition ascii_bytes (s : string) : list byte :=
  map Ascii.byte_of_ascii (String.list_ascii_of_string s).

Definition reg_cam (name : string) (index count w h : Z) : list byte :=
  take 32 (ascii_bytes name ++ replicate 32 x00) ++ u32 index ++ u32 count ++ u32 w ++ u32 h.

(** Decoding of names that are plain ASCII. *)
Definition decode_ascii (bs : list byte) : string :=
  String.string_of_list_ascii (map Ascii.ascii_of_byte bs).

Definition sys0 (fs : gmap string Shm) : Sys :=
  {| now := 0; files := fs; fds := ∅; mmaps := ∅; shared := ∅ |}.

(** The bytes of a frame segment of two 2x2 RGB buffers (stride 6), buffer
    0 active with the sequence [seq0]. *)
Definition frame_bytes (ver fmt seq0 : Z) : list byte :=
fb_header MAGIC ver fmt 2 2 6 2 0
  ++ frame_buffer seq0 (replicate 12 x01)
  ++ frame_buffer 4 (replicate 12 x02).

(** That segment, with the same content at every instant. *)
Definition frame_seg (ver fmt seq0 : Z) : Shm :=
shm_of 68 (fun _ => frame_bytes ver fmt seq0).

(** The bytes of a geometry segment of three points. *)
Definition geom_bytes (seq : Z) : list byte :=
geom_header GEOM_MAGIC 3 2 2 seq ++ replicate 24 x00.

Definition geom_seg (seq : Z) : Shm := shm_of 48 (fun _ => geom_bytes seq).

Definition cam_files (i : Z) (fb geom : Shm) : gmap string Shm :=
<["/dev/shm/uc3d_fb" +:+ str i := fb]> (<["/dev/shm/uc3d_geom" +:+ str i := geom]> ∅).

(** Camera 0 with the frame sequence 7 and the geometry sequence 4 (as in
    the end-to-end scenarios), and the readers once connected to it. *)
Definition files_7_4 : gmap string Shm := cam_files 0 (frame_seg 1 0 7) (geom_seg 4).

Definition frame_7 : FrameShmReader.t * Sys :=
snd (FrameShmReader.connect (FrameShmReader.__init__ "/uc3d_fb0", sys0 files_7_4)).

Definition geom_4 : GeoShmReader.t * Sys :=
snd (GeoShmReader.connect (GeoShmReader.__init__ "/uc3d_geom0", sys0 files_7_4)).

(** A frame whose sequence is torn before it settles: 6 at the first load
    of the reader (instant 2), then 7, then 9 from there on. *)
Definition torn_frame : Shm :=
shm_of 68 (fun t =>
  match t with
  | 2%nat => frame_bytes 1 0 6
  | 3%nat => frame_bytes 1 0 7
  | _ => frame_bytes 1 0 9
  end).

Definition frame_torn : FrameShmReader.t * Sys :=
snd (FrameShmReader.connect
       (FrameShmReader.__init__ "/uc3d_fb0", sys0 (cam_files 0 torn_frame (geom_seg 4)))).

(** A frame whose writer is in the middle of an update at every load. *)
Definition frame_8 : FrameShmReader.t * Sys :=
snd (FrameShmReader.connect
       (FrameShmReader.__init__ "/uc3d_fb0",
        sys0 (cam_files 0 (frame_seg 1 0 8) (geom_seg 4)))).

Definition geom_5 : GeoShmReader.t * Sys :=
snd (GeoShmReader.connect
       (GeoShmReader.__init__ "/uc3d_geom0",
        sys0 (cam_files 0 (frame_seg 1 0 7) (geom_seg 5)))).


(** Camera 1: one 4x3 RGB buffer (stride 12) and twelve points. *)
Definition frame1 : Shm :=
shm_const (fb_header MAGIC 1 0 4 3 12 1 0 ++ frame_buffer 5 (replicate 36 x03)).

Definition geom1 : Shm :=
shm_const (geom_header GEOM_MAGIC 12 4 3 3 ++ replicate 96 x00).

Definition two_cameras : gmap string Shm :=
cam_files 0 (frame_seg 1 0 7) (geom_seg 4) ∪ cam_files 1 frame1 geom1.

(** The viewport once camera 0 has been opened. *)
Definition viewing_0 : Viewport.t * Sys :=
snd (Viewport._open_camera_by_index 0 (Viewport.__init__, sys0 two_cameras)).

(** The frame reader of camera 0 after an immediate read: the view it
    returned is still alive. *)
Definition frame_7_viewed : FrameShmReader.t * Sys :=
snd (FrameShmReader.latest_frame_view_fast frame_7).

(** Floats that are binary32 values, each given by its bit pattern. *)
Definition f32 : Type := Z.

Definition pack_bits (x : f32) : option (list byte) :=
if (0 <=? x) && (x <? 2 ^ 32) then Some (u32 x) else None.

(** The control writer with its defaults (0.0, 1.0 and -1.0 as binary32),
    connected to a control segment of 64 zero bytes. *)
Definition ctrl_ready : CtrlShmWriter.t f32 * Sys :=
snd (CtrlShmWriter.connect
       (CtrlShmWriter.__init__ f32 0 0x3F800000 0xBF800000 "uc3d_ctrl",
        sys0 {[ "/dev/shm/uc3d_ctrl" := shm_const (replicate 64 x00) ]})).

(** The registry of the end-to-end scenario: two cameras, "front" and
    "rear", and a reader connected to it. *)
Definition registry_seg : Shm :=
shm_const (u32 REG_MAGIC ++ u32 1 ++ u32 2
             ++ reg_cam "front" 0 100 192 96 ++ reg_cam "rear" 1 100 192 96).

Definition registry_2 : RegistryReader.t * Sys :=
snd (RegistryReader.connect
       (RegistryReader.__init__ "/uc3d_reg", sys0 {[ "/dev/shm/uc3d_reg" := registry_seg ]})).
End Fixtures.

(** Further scenarios. *)
Module Scenarios.
(** A geometry segment whose sequence is caught in the middle of an update
    and then torn before it settles: 6 at the first load of the reader
    (instant 1), then 7, then 9 from there on. *)
Definition torn_geom : Shm :=
Fixtures.shm_of 48 (fun t =>
  match t with
  | 1%nat => Fixtures.geom_bytes 6
  | 2%nat => Fixtures.geom_bytes 7
  | _ => Fixtures.geom_bytes 9
  end).

Definition geom_torn : GeoShmReader.t * Sys :=
snd (GeoShmReader.connect
       (GeoShmReader.__init__ "/uc3d_geom0",
        Fixtures.sys0 (Fixtures.cam_files 0 (Fixtures.frame_seg 1 0 7) torn_geom))).

(** A geometry segment cut inside its sequence word: 20 bytes. *)
Definition short_geom : Shm :=
Fixtures.shm_const (Fixtures.u32 GEOM_MAGIC ++ Fixtures.u32 3 ++ Fixtures.u32 2
                      ++ Fixtures.u32 2 ++ [x05; x00; x00; x00]).

(** A registry that announces three cameras and holds the records of two. *)
Definition cut_registry : Shm :=
Fixtures.shm_const (Fixtures.u32 REG_MAGIC ++ Fixtures.u32 1 ++ Fixtures.u32 3
                      ++ Fixtures.reg_cam "front" 0 100 192 96
                      ++ Fixtures.reg_cam "rear" 1 100 192 96).

Definition registry_cut : RegistryReader.t * Sys :=
snd (RegistryReader.connect
       (RegistryReader.__init__ "/uc3d_reg",
        Fixtures.sys0 {[ "/dev/shm/uc3d_reg" := cut_registry ]})).

(** The viewport showing camera 0 of a list of three cameras, of which the
    producer has created the segments of cameras 0 and 1 only. *)
Definition three_listed : list camera :=
[ {| cam_name := "front"; cam_index := 0; cam_count := 3; cam_width := 2; cam_height := 2 |};
  {| cam_name := "rear"; cam_index := 1; cam_count := 12; cam_width := 4; cam_height := 3 |};
  {| cam_name := "top"; cam_index := 2; cam_count := 3; cam_width := 2; cam_height := 2 |} ].

Definition viewing_0_of_3 : Viewport.t * Sys :=
let v := fst Fixtures.viewing_0 in
({| Viewport._view_keepalive := Viewport._view_keepalive v;
    Viewport._fb := Viewport._fb v;
    Viewport._geom := Viewport._geom v;
    Viewport._cams_meta := three_listed;
    Viewport._active_idx := Viewport._active_idx v;
    Viewport.timers := Viewport.timers v |},
 snd Fixtures.viewing_0).

(** The viewport showing camera 0 after a tick has read a frame and kept
    its view alive. *)
Definition viewing_0_ticked : Viewport.t * Sys :=
let v := fst Fixtures.viewing_0 in
let σ := snd Fixtures.viewing_0 in
match Viewport._fb v with
| Some fb =>
    match FrameShmReader.latest_frame_view_fast (fb, σ) with
    | (Ok (Some mv, _), (fb', σ')) =>
        ({| Viewport._view_keepalive := Some mv;
            Viewport._fb := Some fb';
            Viewport._geom := Viewport._geom v;
            Viewport._cams_meta := Viewport._cams_meta v;
            Viewport._active_idx := Viewport._active_idx v;
            Viewport.timers := Viewport.timers v |}, σ')
    | _ => (v, σ)
    end
| None => (v, σ)
end.

(** The stand-alone viewer once it has mapped the frame segment of camera 0. *)
Definition viewer_7 : result (nat * Z) * Sys :=
uc3d_view.open_mmap "/dev/shm/uc3d_fb0" (Fixtures.sys0 Fixtures.files_7_4).

(** A frame segment whose active buffer 0 is being written (sequence 8)
    while buffer 1 holds a finished frame (sequence 5), and the viewer once
    it has mapped it. *)
Definition writing_frame : Shm :=
Fixtures.shm_const (Fixtures.fb_header MAGIC 1 0 2 2 6 2 0
                      ++ Fixtures.frame_buffer 8 (replicate 12 x01)
                      ++ Fixtures.frame_buffer 5 (replicate 12 x02)).

Definition viewer_writing : result (nat * Z) * Sys :=
uc3d_view.open_mmap "/dev/shm/uc3d_fb"
  (Fixtures.sys0 {[ "/dev/shm/uc3d_fb" := writing_frame ]}).

(** The frame segment of camera 0 cut 40 bytes in: the header, the sequence
    of buffer 0 and 4 of its 12 payload bytes. *)
Definition cut_frame : Shm :=
Fixtures.shm_of 40 (fun _ => Fixtures.frame_bytes 1 0 7).

Definition cut_frame_files : gmap string Shm :=
Fixtures.cam_files 0 cut_frame (Fixtures.geom_seg 4).

Definition frame_cut : FrameShmReader.t * Sys :=
snd (FrameShmReader.connect
       (FrameShmReader.__init__ "/uc3d_fb0", Fixtures.sys0 cut_frame_files)).

(** The bytes of a frame segment of two 2x2 RGB buffers (stride 6) whose
    active buffer is buffer 1, with the sequence [seq1]; buffer 0 is being
    written (sequence 4). *)
Definition frame_bytes_1 (seq1 : Z) : list byte :=
Fixtures.fb_header MAGIC 1 0 2 2 6 2 1
  ++ Fixtures.frame_buffer 4 (replicate 12 x01)
  ++ Fixtures.frame_buffer seq1 (replicate 12 x02).

(** That segment with the sequence 9 at every instant. *)
Definition second_frame : Shm :=
Fixtures.shm_of 68 (fun _ => frame_bytes_1 9).

Definition frame_second : FrameShmReader.t * Sys :=
snd (FrameShmReader.connect
       (FrameShmReader.__init__ "/uc3d_fb0",
        Fixtures.sys0 (Fixtures.cam_files 0 second_frame (Fixtures.geom_seg 4)))).

(** That segment with a sequence torn before it settles: 6 at the first
    load of the sequence (instant 2), then 7, then 9 from there on. *)
Definition second_torn : Shm :=
Fixtures.shm_of 68 (fun t =>
  match t with
  | 2%nat => frame_bytes_1 6
  | 3%nat => frame_bytes_1 7
  | _ => frame_bytes_1 9
  end).

Definition frame_second_torn : FrameShmReader.t * Sys :=
snd (FrameShmReader.connect
       (FrameShmReader.__init__ "/uc3d_fb0",
        Fixtures.sys0 (Fixtures.cam_files 0 second_torn (Fixtures.geom_seg 4)))).

(** The geometry segment of camera 0 cut 32 bytes in: the header and one
    of its three points. *)
Definition cut_geom : Shm :=
Fixtures.shm_of 32 (fun _ => Fixtures.geom_bytes 5).

Definition cut_geom_files : gmap string Shm :=
Fixtures.cam_files 0 (Fixtures.frame_seg 1 0 7) cut_geom.

Definition geom_cut : GeoShmReader.t * Sys :=
snd (GeoShmReader.connect
       (GeoShmReader.__init__ "/uc3d_geom0", Fixtures.sys0 cut_geom_files)).

(** A registry segment of 8 bytes that the producer has not initialised. *)
Definition blank_registry : Shm :=
Fixtures.shm_const (replicate 8 x00).

Definition blank_registry_files : gmap string Shm :=
{[ "/dev/shm/uc3d_reg" := blank_registry ]}.

Definition registry_blank : RegistryReader.t * Sys :=
snd (RegistryReader.connect
       (RegistryReader.__init__ "/uc3d_reg", Fixtures.sys0 blank_registry_files)).

(** The control writer with its defaults where the producer has not
    created the control segment yet, and the writer after its [connect]
    has failed there. *)
Definition ctrl_absent : CtrlShmWriter.t Fixtures.f32 * Sys :=
(CtrlShmWriter.__init__ Fixtures.f32 0 0x3F800000 0xBF800000 "uc3d_ctrl", Fixtures.sys0 ∅).

Definition ctrl_unconnected : CtrlShmWriter.t Fixtures.f32 * Sys :=
snd (CtrlShmWriter.connect ctrl_absent).
End Scenarios.

(** * Vocabulary of the properties *)

(** The mmap object [m] of [σ] is [o] and is open. *)
Definition mapped (σ : Sys) (m : nat) (o : mmap_obj) : Prop :=
  mmaps σ !! m = Some o ∧ mo_closed o = false.

(** The value of the unsigned field of [w] bytes at [off], loaded at [t]. *)
Definition uint_at (shm : Shm) (t : nat) (off : Z) (w : nat) : Z :=
  struct.le_uint (mmap.bytes_at shm t off w).

(** The state after [memoryview(mm)[...]] has been taken from [m]. *)
Definition exported (m : nat) (o : mmap_obj) (σ : Sys) : Sys :=
  set_mmaps <[m := {| mo_shm := mo_shm o; mo_exports := S (mo_exports o);
                      mo_closed := mo_closed o |}]> σ.

(** A reader is not connected when it was never connected or has been
    closed (whether or not the close raised). *)
Inductive frame_unconnected : FrameShmReader.t → Prop :=
| frame_never name : frame_unconnected (FrameShmReader.__init__ name)
| frame_closed r σ : frame_unconnected (fst (snd (FrameShmReader.close (r, σ)))).

Inductive geo_unconnected : GeoShmReader.t → Prop :=
| geo_never name : geo_unconnected (GeoShmReader.__init__ name)
| geo_closed r σ : geo_unconnected (fst (snd (GeoShmReader.close (r, σ)))).

(** The reader holds the open mapping [o], which has a whole frame header. *)
Definition frame_connected (r : FrameShmReader.t) (σ : Sys) (m : nat) (o : mmap_obj) : Prop :=
  FrameShmReader.mm r = Some m ∧ mapped σ m o ∧ 28 <= shm_size (mo_shm o).

(** Buffer [idx], its sequence and its payload of [height*stride] bytes,
    lies inside the mapped segment. *)
Definition buffer_in_bounds (r : FrameShmReader.t) (shm : Shm) (idx : Z) : Prop :=
  0 <= FrameShmReader._buf_base r idx
  ∧ 0 <= FrameShmReader.height r * FrameShmReader.stride r
  ∧ FrameShmReader._buf_base r idx + 8
      + FrameShmReader.height r * FrameShmReader.stride r <= shm_size shm.

Definition tick2 (σ : Sys) : Sys := set_now S (set_now S σ).

(** The view over the payload of the buffer at [base]. *)
Definition payload_view (r : FrameShmReader.t) (m : nat) (base : Z) : memview :=
  {| mv_obj := m; mv_start := base + 8;
     mv_len := FrameShmReader.height r * FrameShmReader.stride r |}.

(** The geometry reader holds the open mapping [o], which has a whole
    geometry header (24 bytes, the sequence at offset 16). *)
Definition geo_connected (r : GeoShmReader.t) (σ : Sys) (m : nat) (o : mmap_obj) : Prop :=
  GeoShmReader.mm r = Some m ∧ mapped σ m o ∧ 24 <= shm_size (mo_shm o).

(** The [count] coordinate pairs lie inside the mapped segment. *)
Definition points_in_bounds (r : GeoShmReader.t) (shm : Shm) : Prop :=
  0 <= GeoShmReader._hdr_size r
  ∧ 0 <= GeoShmReader.count r
  ∧ GeoShmReader._hdr_size r + GeoShmReader.count r * 8 <= shm_size shm.

(** The view over the coordinates. *)
Definition points_view (r : GeoShmReader.t) (m : nat) : memview :=
  {| mv_obj := m; mv_start := GeoShmReader._hdr_size r; mv_len := GeoShmReader.count r * 8 |}.

Definition at_instant (t : nat) (σ : Sys) : Sys := set_now (fun _ => t) σ.

(** The stability check of the seqlock at instant [t], for a buffer whose
    sequence is the function [seq_at] of the instant of the load: the
    sequence loaded at [t] is odd and the next load gives the same value. *)
Definition stable (seq_at : nat → Z) (t : nat) : Prop :=
  Z.odd (seq_at t) = true ∧ seq_at (S t) = seq_at t.

(** The attempts of a reader that starts at instant [ts]: [attempts t k]
    when, after [k] failed attempts, the next one starts at instant [t].  An
    attempt that loads an even sequence takes one load; one that loads an
    odd sequence and then a different value takes two. *)
Inductive attempts (seq_at : nat → Z) (ts : nat) : nat → nat → Prop :=
| attempts_first : attempts seq_at ts ts 0
| attempts_even t k :
    attempts seq_at ts t k → Z.odd (seq_at t) = false → attempts seq_at ts (S t) (S k)
| attempts_torn t k :
    attempts seq_at ts t k → Z.odd (seq_at t) = true → seq_at (S t) ≠ seq_at t →
    attempts seq_at ts (S (S t)) (S k).

(** The same search as a function: the instant of the first stable attempt
    among [n], the instant after the last load, and the spins counted. *)
Fixpoint scan (seq_at : nat → Z) (n : nat) (t : nat) (k : Z) : option nat * nat * Z :=
  match n with
  | O => (None, t, k)
  | S n' =>
      if Z.odd (seq_at t) then
        if seq_at t =? seq_at (S t) then (Some t, S (S t), k)
        else scan seq_at n' (S (S t)) (k + 1)
      else scan seq_at n' (S t) (k + 1)
  end.

(** The resources after [path] has been opened and mapped. *)
Definition opened (path : string) (shm : Shm) (σ : Sys) : Sys :=
  set_mmaps <[fresh (dom (mmaps σ)) := open_mmap shm]>
    (set_fds <[fresh (dom (fds σ)) := path]> σ).

(** The fields of the frame header loaded at instant [t]. *)
Definition fb_magic (shm : Shm) (t : nat) : Z := uint_at shm t 0 4.
Definition fb_version (shm : Shm) (t : nat) : Z := uint_at shm t 4 2.
Definition fb_format (shm : Shm) (t : nat) : Z := uint_at shm t 6 2.
Definition fb_width (shm : Shm) (t : nat) : Z := uint_at shm t 8 4.
Definition fb_height (shm : Shm) (t : nat) : Z := uint_at shm t 12 4.
Definition fb_stride (shm : Shm) (t : nat) : Z := uint_at shm t 16 4.
Definition fb_bufcnt (shm : Shm) (t : nat) : Z := uint_at shm t 20 4.

(** The reader after a successful [connect] that read the header at [t]. *)
Definition frame_cached (shm : Shm) (t : nat) (r : FrameShmReader.t) : FrameShmReader.t :=
  FrameShmReader.set_onebuf_size (8 + fb_height shm t * fb_stride shm t)
    (FrameShmReader.set_dims (fb_width shm t) (fb_height shm t) (fb_stride shm t)
       (fb_bufcnt shm t) r).

(** The validity of a frame header as the specification words it: magic,
    version and pixel format as expected, and the mapped region as large as
    the header implies. *)
Definition header_valid (shm : Shm) (t : nat) : Prop :=
  fb_magic shm t = MAGIC
  ∧ fb_version shm t = VERSION
  ∧ fb_format shm t = FMT_RGB888
  ∧ 28 + fb_bufcnt shm t * (8 + fb_height shm t * fb_stride shm t) <= shm_size shm.

(** The fields of the geometry header loaded at instant [t]. *)
Definition geo_magic (shm : Shm) (t : nat) : Z := uint_at shm t 0 4.
Definition geo_count (shm : Shm) (t : nat) : Z := uint_at shm t 4 4.
Definition geo_width (shm : Shm) (t : nat) : Z := uint_at shm t 8 4.
Definition geo_height (shm : Shm) (t : nat) : Z := uint_at shm t 12 4.

(** The resources after the reference to the kept view has been dropped. *)
Definition released (keep : option memview) (σ : Sys) : Sys :=
  match keep with
  | Some mv => snd (mmap.release mv σ)
  | None => σ
  end.

(** The floats of the record in the order of the layout. *)
Definition ctrl_floats {float : Type} (w : CtrlShmWriter.t float) : list float :=
  CtrlShmWriter.dt_scale w
    :: CtrlShmWriter.cam_pos w ++ CtrlShmWriter.cam_look w ++ CtrlShmWriter.cam_up w.

(** The control record of [w] with its floats packed as [fbs]. *)
Definition ctrl_record {float : Type} (w : CtrlShmWriter.t float) (fbs : list (list byte))
  : list byte :=
  struct.le_bytes 8 (CtrlShmWriter.seq w)
    ++ struct.le_bytes 1 (CtrlShmWriter.pause w)
    ++ replicate 3 x00
    ++ concat fbs
    ++ struct.le_bytes 4 (CtrlShmWriter.debug_flags w).

(** The integer fields fit their slots, the three vectors have three
    components, and the ten floats pack as [fbs]. *)
Definition packable {float : Type} (pack_f32 : float → option (list byte))
    (w : CtrlShmWriter.t float) (fbs : list (list byte)) : Prop :=
  0 <= CtrlShmWriter.seq w < 2 ^ 64
  ∧ 0 <= CtrlShmWriter.pause w < 256
  ∧ 0 <= CtrlShmWriter.debug_flags w < 2 ^ 32
  ∧ length (CtrlShmWriter.cam_pos w) = 3%nat
  ∧ length (CtrlShmWriter.cam_look w) = 3%nat
  ∧ length (CtrlShmWriter.cam_up w) = 3%nat
  ∧ Forall2 (fun x bs => pack_f32 x = Some bs) (ctrl_floats w) fbs.

(** The namespace, the descriptor table and the writable buffers of [σ']
    are those of [σ]. *)
Definition sys_same (σ σ' : Sys) : Prop :=
  files σ' = files σ ∧ fds σ' = fds σ ∧ shared σ' = shared σ.

(** The frame reader [r'] has [s] as its last sequence and every other
    field as [r] has it. *)
Definition frame_stores (s : Z) (r r' : FrameShmReader.t) : Prop :=
  FrameShmReader._last_seq r' = s
  ∧ FrameShmReader.name r' = FrameShmReader.name r
  ∧ FrameShmReader.fd r' = FrameShmReader.fd r
  ∧ FrameShmReader.mm r' = FrameShmReader.mm r
  ∧ FrameShmReader.width r' = FrameShmReader.width r
  ∧ FrameShmReader.height r' = FrameShmReader.height r
  ∧ FrameShmReader.stride r' = FrameShmReader.stride r
  ∧ FrameShmReader.bufcnt r' = FrameShmReader.bufcnt r
  ∧ FrameShmReader.header_size r' = FrameShmReader.header_size r
  ∧ FrameShmReader.onebuf_size r' = FrameShmReader.onebuf_size r.

(** The same for the geometry reader. *)
Definition geo_stores (s : Z) (r r' : GeoShmReader.t) : Prop :=
  GeoShmReader._last_seq r' = s
  ∧ GeoShmReader.name r' = GeoShmReader.name r
  ∧ GeoShmReader.fd r' = GeoShmReader.fd r
  ∧ GeoShmReader.mm r' = GeoShmReader.mm r
  ∧ GeoShmReader.count r' = GeoShmReader.count r
  ∧ GeoShmReader.width r' = GeoShmReader.width r
  ∧ GeoShmReader.height r' = GeoShmReader.height r
  ∧ GeoShmReader._hdr_size r' = GeoShmReader._hdr_size r.

(** The metadata a geometry read returns: the count, width and height the
    reader holds. *)
Definition cached_meta (r : GeoShmReader.t) (meta : geo_meta) : Prop :=
  meta_count meta = GeoShmReader.count r
  ∧ meta_width meta = GeoShmReader.width r
  ∧ meta_height meta = GeoShmReader.height r.

(** What a read of the frame reader may do to the reader: store the odd
    sequence it returns with a view, and nothing else. *)
Definition frame_read_effect (r r' : FrameShmReader.t) (res : result (option memview * Z))
  : Prop :=
  match res with
  | Ok (Some _, s) => frame_stores s r r' ∧ Z.odd s = true
  | Ok (None, s) => r' = r ∧ s = FrameShmReader._last_seq r
  | Raise _ => r' = r
  end.

Definition geo_read_effect (r r' : GeoShmReader.t)
    (res : result (option memview * option geo_meta * Z)) : Prop :=
  match res with
  | Ok (Some _, meta, s) =>
      geo_stores s r r' ∧ Z.odd s = true
      ∧ ∃ md, meta = Some md ∧ cached_meta r md
  | Ok (None, meta, s) => r' = r ∧ s = GeoShmReader._last_seq r ∧ meta = None
  | Raise _ => r' = r
  end.

(** [pre] is [bs] cut at its first NUL byte: the bytes in front of it, or
    all of [bs] when it has none. *)
Definition cut_at_nul (bs pre : list byte) : Prop :=
  (x00 ∉ pre) ∧ (bs = pre ∨ ∃ rest, bs = pre ++ x00 :: rest).

(** [c] is the descriptor of record [k] of a registry segment as loaded at
    instant [t]: the records are 48 bytes each behind the 12-byte header,
    a name of 32 bytes followed by index, point count, width and height. *)
Definition camera_at (decode : list byte → string) (shm : Shm) (t : nat) (k : nat)
    (c : camera) : Prop :=
  let off := 12 + 48 * Z.of_nat k in
  (∃ pre, cut_at_nul (mmap.bytes_at shm t off 32) pre ∧ cam_name c = decode pre)
  ∧ cam_index c = uint_at shm t (off + 32) 4
  ∧ cam_count c = uint_at shm t (off + 36) 4
  ∧ cam_width c = uint_at shm t (off + 40) 4
  ∧ cam_height c = uint_at shm t (off + 44) 4.


(** The sequence of buffer [c] of a segment whose buffers are [one] bytes
    apart behind the 28-byte header, as loaded at instant [t]. *)
Definition buffer_seq (shm : Shm) (h stride : Z) (c : Z) (t : nat) : Z :=
  uint_at shm t (uc3d_view.buffer_offset c h stride) 8.

(** The view over the payload of buffer [c]. *)
Definition buffer_view (m : nat) (h stride : Z) (c : Z) : memview :=
  {| mv_obj := m; mv_start := uc3d_view.buffer_offset c h stride + 8; mv_len := h * stride |}.

(** The search of [choose_latest_ready] as a function: the first of the
    candidates whose sequence, loaded in turn from instant [t] on, is odd,
    together with the instant of that load. *)
Fixpoint first_ready (seq_at : Z → nat → Z) (cands : list Z) (t : nat) : option (Z * nat) :=
  match cands with
  | [] => None
  | c :: rest => if Z.odd (seq_at c t) then Some (c, t) else first_ready seq_at rest (S t)
  end.

(** The state in which the open mapping [m] of [shm] has [e] views exported. *)
Definition with_exports (m : nat) (shm : Shm) (e : nat) (σ : Sys) : Sys :=
  set_mmaps <[m := {| mo_shm := shm; mo_exports := e; mo_closed := false |}]> σ.

(** * Properties *)

(** ** Loads, views and parity *)

Ltac munfold :=
  unfold bind, ret, raise, get, modify, when, self, sys, zoom, try_finally, try_except in *;
  cbn [fst snd] in *.

Lemma mapped_set_now σ m o f : mapped σ m o → mapped (set_now f σ) m o.
Proof. intros [H1 H2]; split; [exact H1 | exact H2]. Qed.

Lemma lookup_mapped σ m o : mapped σ m o → mmap.lookup m σ = (Ok o, σ).
Proof.
  intros [H1 H2]. unfold mmap.lookup. munfold. rewrite H1, H2. reflexivity.
Qed.

Lemma load_ok σ m o off size :
  mapped σ m o → 0 <= off → off + Z.of_nat size <= shm_size (mo_shm o) →
  struct.load m off size σ
  = (Ok (mmap.bytes_at (mo_shm o) (now σ) off size), set_now S σ).
Proof.
  intros Hm H0 Hsz. unfold struct.load. unfold bind at 1.
  rewrite (lookup_mapped _ _ _ Hm).
  replace (off <? 0) with false by (symmetry; apply Z.ltb_ge; lia).
  replace (shm_size (mo_shm o) <? off + Z.of_nat size) with false
    by (symmetry; apply Z.ltb_ge; lia).
  reflexivity.
Qed.

Lemma load_short σ m o off size :
  mapped σ m o → shm_size (mo_shm o) < off + Z.of_nat size →
  struct.load m off size σ = (Raise StructError, σ).
Proof.
  intros Hm Hsz. unfold struct.load. unfold bind at 1.
  rewrite (lookup_mapped _ _ _ Hm).
  replace (shm_size (mo_shm o) <? off + Z.of_nat size) with true
    by (symmetry; apply Z.ltb_lt; lia).
  rewrite orb_true_r. reflexivity.
Qed.

Lemma unpack_u32_ok σ m o off :
  mapped σ m o → 0 <= off → off + 4 <= shm_size (mo_shm o) →
  struct.unpack_u32 m off σ = (Ok (uint_at (mo_shm o) (now σ) off 4), set_now S σ).
Proof.
  intros Hm H0 Hsz. unfold struct.unpack_u32, bind.
  rewrite (load_ok _ _ _ _ _ Hm H0) by (simpl; lia). reflexivity.
Qed.

Lemma unpack_u64_ok σ m o off :
  mapped σ m o → 0 <= off → off + 8 <= shm_size (mo_shm o) →
  struct.unpack_u64 m off σ = (Ok (uint_at (mo_shm o) (now σ) off 8), set_now S σ).
Proof.
  intros Hm H0 Hsz. unfold struct.unpack_u64, bind.
  rewrite (load_ok _ _ _ _ _ Hm H0) by (simpl; lia). reflexivity.
Qed.

Lemma view_ok σ m o a len :
  mapped σ m o → 0 <= a → 0 <= len → a + len <= shm_size (mo_shm o) →
  mmap.view m a (a + len) σ
  = (Ok {| mv_obj := m; mv_start := a; mv_len := len |}, exported m o σ).
Proof.
  intros Hm H0 Hl Hsz. unfold mmap.view. unfold bind at 1.
  rewrite (lookup_mapped _ _ _ Hm). unfold bind, modify, ret, mmap.clamp.
  replace (a <? 0) with false by (symmetry; apply Z.ltb_ge; lia).
  replace (a + len <? 0) with false by (symmetry; apply Z.ltb_ge; lia).
  rewrite !Z.min_l by lia.
  replace (Z.max 0 (a + len - a)) with len by lia.
  reflexivity.
Qed.

Lemma land_1_odd s : (Z.land s 1 =? 1) = Z.odd s.
Proof.
  change 1 with (Z.ones 1) at 1. rewrite Z.land_ones by lia.
  change (2 ^ 1) with 2. rewrite Zmod_odd. destruct (Z.odd s); reflexivity.
Qed.

Lemma land_1_even s : (Z.land s 1 =? 0) = Z.even s.
Proof.
  change 1 with (Z.ones 1). rewrite Z.land_ones by lia.
  change (2 ^ 1) with 2. rewrite Zmod_odd, <- Z.negb_odd.
  destruct (Z.odd s); reflexivity.
Qed.

(** ** Readers that are not connected *)

Lemma frame_close_forgets r σ :
  FrameShmReader.mm (fst (snd (FrameShmReader.close (r, σ)))) = None
  ∧ FrameShmReader.fd (fst (snd (FrameShmReader.close (r, σ)))) = None.
Proof.
  unfold FrameShmReader.close. munfold.
  destruct (FrameShmReader.mm r) as [m|]; cbn [fst snd];
    [destruct (mmap.close m σ) as [[[]|e] σ1] | ]; cbn [fst snd];
    destruct (FrameShmReader.fd r) as [f|]; cbn [fst snd];
    try destruct (os.close f _) as [[[]|e'] σ2]; cbn; auto.
Qed.

Lemma geo_close_forgets r σ :
  GeoShmReader.mm (fst (snd (GeoShmReader.close (r, σ)))) = None
  ∧ GeoShmReader.fd (fst (snd (GeoShmReader.close (r, σ)))) = None.
Proof.
  unfold GeoShmReader.close. munfold.
  destruct (GeoShmReader.mm r) as [m|]; cbn [fst snd];
    [destruct (mmap.close m σ) as [[[]|e] σ1] | ]; cbn [fst snd];
    destruct (GeoShmReader.fd r) as [f|]; cbn [fst snd];
    try destruct (os.close f _) as [[[]|e'] σ2]; cbn; auto.
Qed.

Lemma frame_unconnected_mm r : frame_unconnected r → FrameShmReader.mm r = None.
Proof. intros [name | r0 σ0]; [reflexivity | apply frame_close_forgets]. Qed.

Lemma geo_unconnected_mm r : geo_unconnected r → GeoShmReader.mm r = None.
Proof. intros [name | r0 σ0]; [reflexivity | apply geo_close_forgets]. Qed.

(** C10. On a reader that is not connected (never connected, or already
    closed) each of the four read operations returns the not-ready result
    with the last known sequence, raises nothing, and changes nothing. *)
Theorem reads_not_connected (fr : FrameShmReader.t) (gr : GeoShmReader.t)
    (σ : Sys) (max_spins sleep_ns : Z) :
  frame_unconnected fr → geo_unconnected gr →
  FrameShmReader.latest_frame_view max_spins sleep_ns (fr, σ)
    = (Ok (None, FrameShmReader._last_seq fr), (fr, σ))
  ∧ FrameShmReader.latest_frame_view_fast (fr, σ)
    = (Ok (None, FrameShmReader._last_seq fr), (fr, σ))
  ∧ GeoShmReader.latest max_spins sleep_ns (gr, σ)
    = (Ok (None, None, GeoShmReader._last_seq gr), (gr, σ))
  ∧ GeoShmReader.latest_fast (gr, σ)
    = (Ok (None, None, GeoShmReader._last_seq gr), (gr, σ)).
Proof.
  intros Hf Hg.
  apply frame_unconnected_mm in Hf. apply geo_unconnected_mm in Hg.
  unfold FrameShmReader.latest_frame_view, FrameShmReader.latest_frame_view_spins,
    FrameShmReader.latest_frame_view_fast, GeoShmReader.latest, GeoShmReader.latest_spins,
    GeoShmReader.latest_fast.
  munfold. rewrite Hf, Hg. cbn. auto.
Qed.

(** ** The immediate reads *)

Lemma frame_stores_set s r : frame_stores s r (FrameShmReader.set_last_seq s r).
Proof. repeat split. Qed.

Lemma geo_stores_set s r : geo_stores s r (GeoShmReader.set_last_seq s r).
Proof. repeat split. Qed.

(** C2, as stated, fails.  [connect] accepts a frame segment that ends 40
    bytes in (the size of the region is checked nowhere), and on it the
    immediate read finds the odd sequence 7 in the active buffer and returns
    a view of the 4 payload bytes that are mapped, where [height*stride] is
    12. *)
Lemma latest_frame_view_fast_short_view :
  let r := fst Scenarios.frame_cut in
  fst (FrameShmReader.connect
         (FrameShmReader.__init__ "/uc3d_fb0", Fixtures.sys0 Scenarios.cut_frame_files))
  = Ok tt
  ∧ FrameShmReader.height r * FrameShmReader.stride r = 12
  ∧ fst (FrameShmReader.latest_frame_view_fast Scenarios.frame_cut)
    = Ok (Some {| mv_obj := 0; mv_start := 36; mv_len := 4 |}, 7).
Proof.
  intros r. split; [vm_compute; reflexivity|].
  split; vm_compute; reflexivity.
Qed.

(** C2, amended.  On a connected reader [latest_frame_view_fast] loads the
    active index at offset 24 and then, once, the sequence of the buffer at
    [header_size + active*onebuf_size], which the mapping is to hold (two
    loads in all).  An even sequence gives (None, last sequence) and leaves
    the reader as it was.  An odd one, the mapping holding the
    [height*stride] payload bytes of the buffer, gives the view of exactly
    these bytes, which start 8 bytes into the buffer, together with that
    sequence, which becomes the last sequence of the reader, its other
    fields unchanged. *)
Theorem latest_frame_view_fast_spec (r : FrameShmReader.t) (σ : Sys) (m : nat) (o : mmap_obj) :
  let shm := mo_shm o in
  let active := uint_at shm (now σ) 24 4 in
  let base := FrameShmReader.header_size r + active * FrameShmReader.onebuf_size r in
  let len := FrameShmReader.height r * FrameShmReader.stride r in
  let seq := uint_at shm (S (now σ)) base 8 in
  frame_connected r σ m o →
  0 <= base → base + 8 <= shm_size shm →
  (Z.even seq = true →
     FrameShmReader.latest_frame_view_fast (r, σ)
     = (Ok (None, FrameShmReader._last_seq r), (r, tick2 σ)))
  ∧ (Z.odd seq = true → 0 <= len → base + 8 + len <= shm_size shm →
     ∃ r',
       FrameShmReader.latest_frame_view_fast (r, σ)
       = (Ok (Some {| mv_obj := m; mv_start := base + 8; mv_len := len |}, seq),
          (r', exported m o (tick2 σ)))
       ∧ frame_stores seq r r').
Proof.
  intros shm active base len seq (Hmm & Hmap & H28) Hb0 Hb8.
  assert (Hrun : FrameShmReader.latest_frame_view_fast (r, σ)
    = if Z.even seq then (Ok (None, FrameShmReader._last_seq r), (r, tick2 σ))
      else match mmap.view m (base + 8) (base + 8 + len) (tick2 σ) with
           | (Ok mv, σ') => (Ok (Some mv, seq), (FrameShmReader.set_last_seq seq r, σ'))
           | (Raise e, σ') => (Raise e, (r, σ'))
           end).
  { unfold FrameShmReader.latest_frame_view_fast. munfold. rewrite Hmm.
    rewrite (unpack_u32_ok _ _ _ _ Hmap) by lia. cbn [fst snd]. fold shm active base.
    rewrite (unpack_u64_ok _ _ o) by (try apply mapped_set_now; first [exact Hmap | fold shm; lia]).
    cbn [fst snd now set_now]. fold shm seq len. rewrite land_1_even.
    destruct (Z.even seq); [reflexivity|].
    fold (tick2 σ). cbn [fst snd].
    destruct (mmap.view m _ _ (tick2 σ)) as [[mv|e] σ']; reflexivity. }
  split.
  - intros Hp. rewrite Hrun, Hp. reflexivity.
  - intros Hp Hlen Hfit. rewrite Hrun, <- Z.negb_odd, Hp. cbn [negb].
    rewrite (view_ok _ _ o) by (repeat apply mapped_set_now; first [exact Hmap | fold shm; lia]).
    exists (FrameShmReader.set_last_seq seq r). split; [reflexivity | apply frame_stores_set].
Qed.

Lemma reads_not_connected_witness :
  let fr := fst (snd (FrameShmReader.close Fixtures.frame_7)) in
  let gr := GeoShmReader.__init__ "/uc3d_geom0" in
  frame_unconnected fr ∧ geo_unconnected gr
  ∧ FrameShmReader.latest_frame_view 64 0 (fr, Fixtures.sys0 ∅)
    = (Ok (None, FrameShmReader._last_seq fr), (fr, Fixtures.sys0 ∅))
  ∧ GeoShmReader.latest_fast (gr, Fixtures.sys0 ∅)
    = (Ok (None, None, GeoShmReader._last_seq gr), (gr, Fixtures.sys0 ∅)).
Proof.
  intros fr gr.
  assert (Hf : frame_unconnected fr).
  { unfold fr. destruct Fixtures.frame_7 as [r0 σ0]. apply frame_closed. }
  assert (Hg : geo_unconnected gr) by apply geo_never.
  destruct (reads_not_connected fr gr (Fixtures.sys0 ∅) 64 0 Hf Hg) as (H1 & _ & _ & H4).
  split; [exact Hf|]. split; [exact Hg|]. split; [exact H1 | exact H4].
Defined.

Lemma latest_frame_view_fast_witness :
  let r := fst Scenarios.frame_second in
  let σ := snd Scenarios.frame_second in
  let o := open_mmap Scenarios.second_frame in
  let r' := fst Fixtures.frame_8 in
  let σ' := snd Fixtures.frame_8 in
  let o' := open_mmap (Fixtures.frame_seg 1 0 8) in
  (frame_connected r σ 0 o
   ∧ uint_at (mo_shm o) (now σ) 24 4 = 1
   ∧ fst (FrameShmReader.latest_frame_view_fast (r, σ))
     = Ok (Some {| mv_obj := 0; mv_start := 56; mv_len := 12 |}, 9)
   ∧ FrameShmReader._last_seq (fst (snd (FrameShmReader.latest_frame_view_fast (r, σ)))) = 9)
  ∧ (frame_connected r' σ' 0 o'
     ∧ FrameShmReader.latest_frame_view_fast (r', σ')
       = (Ok (None, FrameShmReader._last_seq r'), (r', tick2 σ'))).
Proof.
  intros r σ o r' σ' o'. split.
  - assert (Hc : frame_connected r σ 0 o).
    { split; [vm_compute; reflexivity|].
      split; [split; vm_compute; reflexivity|]. vm_compute; discriminate. }
    assert (Ha : uint_at (mo_shm o) (now σ) 24 4 = 1) by (vm_compute; reflexivity).
    assert (Hb0 : 0 <= FrameShmReader.header_size r
                       + uint_at (mo_shm o) (now σ) 24 4 * FrameShmReader.onebuf_size r)
      by (vm_compute; discriminate).
    assert (Hb8 : FrameShmReader.header_size r
                  + uint_at (mo_shm o) (now σ) 24 4 * FrameShmReader.onebuf_size r + 8
                  <= shm_size (mo_shm o))
      by (vm_compute; discriminate).
    destruct (latest_frame_view_fast_spec r σ 0%nat o Hc Hb0 Hb8) as [_ Hodd].
    destruct Hodd as (r1 & Hrun & Hlast & _);
      [vm_compute; reflexivity | vm_compute; discriminate | vm_compute; discriminate |].
    split; [exact Hc|]. split; [exact Ha|].
    rewrite Hrun. cbn [fst snd]. split; [|rewrite Hlast]; vm_compute; reflexivity.
  - assert (Hc : frame_connected r' σ' 0 o').
    { split; [vm_compute; reflexivity|].
      split; [split; vm_compute; reflexivity|]. vm_compute; discriminate. }
    assert (Hb0 : 0 <= FrameShmReader.header_size r'
                       + uint_at (mo_shm o') (now σ') 24 4 * FrameShmReader.onebuf_size r')
      by (vm_compute; discriminate).
    assert (Hb8 : FrameShmReader.header_size r'
                  + uint_at (mo_shm o') (now σ') 24 4 * FrameShmReader.onebuf_size r' + 8
                  <= shm_size (mo_shm o'))
      by (vm_compute; discriminate).
    split; [exact Hc|].
    apply (proj1 (latest_frame_view_fast_spec r' σ' 0%nat o' Hc Hb0 Hb8)).
    vm_compute. reflexivity.
Defined.

(** C5, as stated, fails.  [connect] accepts a geometry segment that ends
    32 bytes in, behind the first of the three points its header announces
    (the size of the region is checked nowhere), and on it [latest_fast]
    finds the odd sequence 5 and returns a view of the 8 coordinate bytes
    that are mapped, where [count*8] is 24. *)
Lemma latest_fast_short_view :
  let r := fst Scenarios.geom_cut in
  fst (GeoShmReader.connect
         (GeoShmReader.__init__ "/uc3d_geom0", Fixtures.sys0 Scenarios.cut_geom_files))
  = Ok tt
  ∧ GeoShmReader.count r * 8 = 24
  ∧ fst (GeoShmReader.latest_fast Scenarios.geom_cut)
    = Ok (Some {| mv_obj := 0; mv_start := 24; mv_len := 8 |},
          Some {| meta_count := 3; meta_width := 2; meta_height := 2 |}, 5).
Proof.
  intros r. split; [vm_compute; reflexivity|].
  split; vm_compute; reflexivity.
Qed.

(** C5, amended.  On a connected reader [latest_fast] loads the sequence at
    offset 16 once.  When it is even the result is (None, None, last
    sequence) and the reader is left as it was.  When it is odd and the
    mapping holds the [count*8] coordinate bytes behind the header, the
    result is the view of exactly these bytes, the meta record made of the
    count, width and height the reader holds since [connect], and that
    sequence, which becomes [_last_seq], the other fields of the reader
    unchanged. *)
Theorem latest_fast_spec (r : GeoShmReader.t) (σ : Sys) (m : nat) (o : mmap_obj) :
  let seq := uint_at (mo_shm o) (now σ) 16 8 in
  geo_connected r σ m o →
  (Z.even seq = true →
     GeoShmReader.latest_fast (r, σ)
     = (Ok (None, None, GeoShmReader._last_seq r), (r, set_now S σ)))
  ∧ (Z.odd seq = true → points_in_bounds r (mo_shm o) →
     ∃ r',
       GeoShmReader.latest_fast (r, σ)
       = (Ok (Some {| mv_obj := m; mv_start := GeoShmReader._hdr_size r;
                      mv_len := GeoShmReader.count r * 8 |},
              Some {| meta_count := GeoShmReader.count r;
                      meta_width := GeoShmReader.width r;
                      meta_height := GeoShmReader.height r |},
              seq),
          (r', exported m o (set_now S σ)))
       ∧ geo_stores seq r r').
Proof.
  intros seq (Hmm & Hmap & H24).
  assert (Hrun : GeoShmReader.latest_fast (r, σ)
    = if Z.even seq then (Ok (None, None, GeoShmReader._last_seq r), (r, set_now S σ))
      else match mmap.view m (GeoShmReader._hdr_size r)
                   (GeoShmReader._hdr_size r + GeoShmReader.count r * 8) (set_now S σ) with
           | (Ok payload, σ') =>
               (Ok (Some payload, Some (GeoShmReader.meta_of r), seq),
                (GeoShmReader.set_last_seq seq r, σ'))
           | (Raise e, σ') => (Raise e, (r, σ'))
           end).
  { unfold GeoShmReader.latest_fast. munfold. rewrite Hmm.
    rewrite (unpack_u64_ok _ _ _ _ Hmap) by lia. cbn [fst snd]. fold seq.
    rewrite land_1_even. destruct (Z.even seq); [reflexivity|].
    destruct (mmap.view _ _ _ _) as [[v|e] σ']; reflexivity. }
  split.
  - intros Hp. rewrite Hrun, Hp. reflexivity.
  - intros Hp (Hh & Hc & Hfit). rewrite Hrun, <- Z.negb_odd, Hp. cbn [negb].
    rewrite (view_ok _ _ o) by (try apply mapped_set_now; first [exact Hmap | lia]).
    exists (GeoShmReader.set_last_seq seq r). split; [reflexivity | apply geo_stores_set].
Qed.

Lemma latest_fast_witness :
  let r := fst Fixtures.geom_4 in
  let σ := snd Fixtures.geom_4 in
  let o := open_mmap (Fixtures.geom_seg 4) in
  let r' := fst Fixtures.geom_5 in
  let σ' := snd Fixtures.geom_5 in
  let o' := open_mmap (Fixtures.geom_seg 5) in
  (geo_connected r σ 0 o
   ∧ Z.even (uint_at (mo_shm o) (now σ) 16 8) = true
   ∧ GeoShmReader.latest_fast (r, σ)
     = (Ok (None, None, GeoShmReader._last_seq r), (r, set_now S σ)))
  ∧ (geo_connected r' σ' 0 o'
     ∧ Z.odd (uint_at (mo_shm o') (now σ') 16 8) = true
     ∧ points_in_bounds r' (mo_shm o')
     ∧ fst (GeoShmReader.latest_fast (r', σ'))
       = Ok (Some {| mv_obj := 0; mv_start := 24; mv_len := 24 |},
             Some {| meta_count := 3; meta_width := 2; meta_height := 2 |}, 5)
     ∧ GeoShmReader._last_seq r' = 0
     ∧ GeoShmReader._last_seq (fst (snd (GeoShmReader.latest_fast (r', σ')))) = 5).
Proof.
  intros r σ o r' σ' o'. split.
  - assert (Hc : geo_connected r σ 0 o).
    { split; [vm_compute; reflexivity|].
      split; [split; vm_compute; reflexivity|]. vm_compute; discriminate. }
    assert (He : Z.even (uint_at (mo_shm o) (now σ) 16 8) = true)
      by (vm_compute; reflexivity).
    split; [exact Hc|]. split; [exact He|].
    exact (proj1 (latest_fast_spec r σ 0%nat o Hc) He).
  - assert (Hc : geo_connected r' σ' 0 o').
    { split; [vm_compute; reflexivity|].
      split; [split; vm_compute; reflexivity|]. vm_compute; discriminate. }
    assert (Ho : Z.odd (uint_at (mo_shm o') (now σ') 16 8) = true)
      by (vm_compute; reflexivity).
    assert (Hb : points_in_bounds r' (mo_shm o')).
    { split; [vm_compute; discriminate|]. split; vm_compute; discriminate. }
    split; [exact Hc|]. split; [exact Ho|]. split; [exact Hb|].
    destruct (proj2 (latest_fast_spec r' σ' 0%nat o' Hc) Ho Hb) as (r1 & Hrun & Hlast & _).
    rewrite Hrun. cbn [fst snd].
    split; [vm_compute; reflexivity|]. split; [vm_compute; reflexivity|].
    rewrite Hlast. vm_compute. reflexivity.
Defined.

(** ** The bounded-spin read of the frame reader *)

Lemma at_instant_now σ : at_instant (now σ) σ = σ.
Proof. destruct σ; reflexivity. Qed.

Lemma mapped_at_instant σ m o t : mapped σ m o → mapped (at_instant t σ) m o.
Proof. apply mapped_set_now. Qed.

Section Seqlock.
(** The sequence of one buffer as a function of the instant of the load. *)
Variable seq_at : nat → Z.

Lemma scan_follow ts t1 k1 :
  attempts seq_at ts t1 k1 → ∀ n kz, scan seq_at (k1 + n) ts kz = scan seq_at n t1 (kz + Z.of_nat k1).
Proof.
  induction 1 as [| t k Ha IH Hev | t k Ha IH Hodd Hne]; intros n kz.
  - cbn. f_equal. lia.
  - replace (S k + n)%nat with (k + S n)%nat by lia. rewrite IH. cbn [scan].
    rewrite Hev. f_equal. lia.
  - replace (S k + n)%nat with (k + S n)%nat by lia. rewrite IH. cbn [scan].
    rewrite Hodd. destruct (Z.eqb_spec (seq_at t) (seq_at (S t))) as [He|He];
      [congruence|]. f_equal. lia.
Qed.

Lemma scan_some ts t k n kz t1 t' kz' :
  attempts seq_at ts t k → scan seq_at n t kz = (Some t1, t', kz') →
  ∃ j, attempts seq_at ts t1 (k + j) ∧ (j < n)%nat ∧ stable seq_at t1 ∧ t' = S (S t1)
       ∧ kz' = kz + Z.of_nat j ∧ (t <= t1)%nat.
Proof.
  revert t k kz. induction n as [|n IH]; intros t k kz Ha Hs; [discriminate|].
  cbn [scan] in Hs. destruct (Z.odd (seq_at t)) eqn:Hodd.
  - destruct (Z.eqb_spec (seq_at t) (seq_at (S t))) as [He|He].
    + inversion Hs; subst. exists 0%nat. rewrite Nat.add_0_r.
      repeat split; try lia; auto.
    + destruct (IH _ _ _ (attempts_torn seq_at ts t k Ha Hodd (not_eq_sym He)) Hs)
        as (j & Hj & Hlt & Hst & Ht & Hk & Hle).
      exists (S j). replace (k + S j)%nat with (S k + j)%nat by lia.
      repeat split; try lia; auto; apply Hst.
  - destruct (IH _ _ _ (attempts_even seq_at ts t k Ha Hodd) Hs)
      as (j & Hj & Hlt & Hst & Ht & Hk & Hle).
    exists (S j). replace (k + S j)%nat with (S k + j)%nat by lia.
    repeat split; try lia; auto; apply Hst.
Qed.

Lemma scan_stable n t kz :
  stable seq_at t → scan seq_at (S n) t kz = (Some t, S (S t), kz).
Proof.
  intros [Hodd He]. cbn [scan]. rewrite Hodd, He, Z.eqb_refl. reflexivity.
Qed.

Lemma scan_never n t kz :
  (∀ t, ¬ stable seq_at t) → ∃ t', scan seq_at n t kz = (None, t', kz + Z.of_nat n).
Proof.
  intros Hnever. revert t kz. induction n as [|n IH]; intros t kz.
  - exists t. cbn. f_equal. lia.
  - cbn [scan]. destruct (Z.odd (seq_at t)) eqn:Hodd.
    + destruct (Z.eqb_spec (seq_at t) (seq_at (S t))) as [He|He].
      * exfalso. apply (Hnever t). split; auto.
      * destruct (IH (S (S t)) (kz + 1)) as [t' Ht']. exists t'. rewrite Ht'. f_equal. lia.
    + destruct (IH (S t) (kz + 1)) as [t' Ht']. exists t'. rewrite Ht'. f_equal. lia.
Qed.
End Seqlock.

Lemma frame_read_seq r σ m o base :
  FrameShmReader.mm r = Some m → mapped σ m o →
  0 <= base → base + 8 <= shm_size (mo_shm o) →
  FrameShmReader.read_seq base (r, σ)
  = (Ok (uint_at (mo_shm o) (now σ) base 8), (r, at_instant (S (now σ)) σ)).
Proof.
  intros Hmm Hmap H0 H8. unfold FrameShmReader.read_seq, FrameShmReader.the_mm.
  munfold. rewrite Hmm. cbn [fst snd].
  rewrite (unpack_u64_ok _ _ _ _ Hmap H0 H8). reflexivity.
Qed.

Lemma frame_spin_scan r σ m o base sleep_ns n spins :
  let seq_at := fun t => uint_at (mo_shm o) t base 8 in
  FrameShmReader.mm r = Some m → mapped σ m o →
  0 <= base → 0 <= FrameShmReader.height r * FrameShmReader.stride r →
  base + 8 + FrameShmReader.height r * FrameShmReader.stride r <= shm_size (mo_shm o) →
  truthy sleep_ns = false →
  FrameShmReader.spin n base sleep_ns spins (r, σ)
  = match scan seq_at n (now σ) spins with
    | (Some t, t', k) =>
        (Ok (Some (payload_view r m base, seq_at t), k),
         (FrameShmReader.set_last_seq (seq_at t) r, exported m o (at_instant t' σ)))
    | (None, t', k) => (Ok (None, k), (r, at_instant t' σ))
    end.
Proof.
  intros seq_at Hmm Hmap H0 Hlen Hfit Hsl. revert σ spins Hmap.
  induction n as [|n IH]; intros σ spins Hmap.
  - cbn. rewrite at_instant_now. reflexivity.
  - cbn [FrameShmReader.spin scan]. unfold bind at 1.
    rewrite (frame_read_seq _ _ _ _ _ Hmm Hmap) by lia. fold (seq_at (now σ)).
    rewrite land_1_odd. rewrite Hsl.
    destruct (Z.odd (seq_at (now σ))) eqn:Hodd.
    + unfold when at 1. unfold bind at 1. unfold bind at 1. unfold ret at 1.
      unfold bind at 1.
      rewrite (frame_read_seq _ _ m o) by (try apply mapped_at_instant; first [assumption | lia]).
      cbn [now at_instant set_now]. fold (seq_at (S (now σ))).
      destruct (Z.eqb_spec (seq_at (now σ)) (seq_at (S (now σ)))) as [He|He].
      * munfold. unfold FrameShmReader.the_mm. munfold. rewrite Hmm. cbn [fst snd].
        rewrite (view_ok _ _ o) by (repeat apply mapped_at_instant; first [assumption | lia]).
        reflexivity.
      * cbv beta iota delta [bind ret when].
        rewrite IH by (repeat apply mapped_at_instant; assumption).
        cbn [now at_instant set_now].
        destruct (scan seq_at n (S (S (now σ))) (spins + 1)) as [[[t|] t'] k]; reflexivity.
    + cbv beta iota delta [bind ret when].
      rewrite IH by (repeat apply mapped_at_instant; assumption).
      cbn [now at_instant set_now].
      destruct (scan seq_at n (S (now σ)) (spins + 1)) as [[[t|] t'] k]; reflexivity.
Qed.

(** With a sleep interval that is not zero every attempt raises. *)
Lemma frame_spin_sleeping base sleep_ns n spins st :
  truthy sleep_ns = true →
  ∃ e st', FrameShmReader.spin (S n) base sleep_ns spins st = (Raise e, st').
Proof.
  intros Hsl. cbn [FrameShmReader.spin]. rewrite Hsl. unfold bind at 1.
  destruct (FrameShmReader.read_seq base st) as [[s1|e] st1]; [|eauto].
  destruct (Z.land s1 1 =? 1); cbv beta iota delta [bind ret when time_sleep raise]; eauto.
Qed.

Lemma latest_frame_view_spins_scan r σ m o max_spins sleep_ns :
  let shm := mo_shm o in
  let active := uint_at shm (now σ) 24 4 in
  let base := FrameShmReader._buf_base r active in
  let seq_at := fun t => uint_at shm t base 8 in
  frame_connected r σ m o → buffer_in_bounds r shm active → truthy sleep_ns = false →
  FrameShmReader.latest_frame_view_spins max_spins sleep_ns (r, σ)
  = match scan seq_at (Z.to_nat max_spins) (S (now σ)) 0 with
    | (Some t, t', k) =>
        (Ok ((Some (payload_view r m base), seq_at t), k),
         (FrameShmReader.set_last_seq (seq_at t) r, exported m o (at_instant t' σ)))
    | (None, t', k) =>
        (Ok ((None, FrameShmReader._last_seq r), k), (r, at_instant t' σ))
    end.
Proof.
  intros shm active base seq_at (Hmm & Hmap & H28) (Hb0 & Hlen & Hfit) Hsl.
  unfold FrameShmReader.latest_frame_view_spins.
  cbv beta iota delta [bind self zoom get fst snd]. rewrite Hmm.
  cbv beta iota delta [sys zoom fst snd].
  rewrite (unpack_u32_ok _ _ _ _ Hmap) by lia. fold shm active base.
  rewrite (frame_spin_scan r _ m o base sleep_ns)
    by (try apply mapped_set_now; first [assumption | fold shm; lia]).
  cbn [now set_now]. fold shm seq_at.
  destruct (scan seq_at (Z.to_nat max_spins) (S (now σ)) 0) as [[[t|] t'] k]; reflexivity.
Qed.

(** C1, as stated, fails.  [connect] accepts a frame segment that ends 40
    bytes in (the size of the region is checked nowhere), and on it
    [latest_frame_view] finds the sequence 7 of the active buffer odd and
    stable and returns a view of the 4 payload bytes that are mapped, where
    [height*stride] is 12.  And on the whole segment the call that returns
    the view has made three loads in all, the active index and the sequence
    twice: the payload is not read between the two loads of the sequence,
    the view over it is handed out after the second. *)
Lemma latest_frame_view_short_view :
  let r := fst Scenarios.frame_cut in
  (fst (FrameShmReader.connect
          (FrameShmReader.__init__ "/uc3d_fb0", Fixtures.sys0 Scenarios.cut_frame_files))
   = Ok tt
   ∧ FrameShmReader.height r * FrameShmReader.stride r = 12
   ∧ fst (FrameShmReader.latest_frame_view 64 0 Scenarios.frame_cut)
     = Ok (Some {| mv_obj := 0; mv_start := 36; mv_len := 4 |}, 7))
  ∧ (fst (FrameShmReader.latest_frame_view 64 0 Fixtures.frame_7)
     = Ok (Some {| mv_obj := 0; mv_start := 36; mv_len := 12 |}, 7)
     ∧ now (snd (snd (FrameShmReader.latest_frame_view 64 0 Fixtures.frame_7)))
       = (now (snd Fixtures.frame_7) + 3)%nat).
Proof.
  intros r. split.
  - split; [vm_compute; reflexivity|]. split; vm_compute; reflexivity.
  - split; vm_compute; reflexivity.
Qed.

(** C1, amended.  On a connected reader [latest_frame_view] loads the
    active index once, at the start of the call; let the mapping hold the
    buffer of that index, its sequence and its [height*stride] payload bytes,
    at [header_size + active*onebuf_size].  The call returns a view with a
    sequence [s] only when its last two loads, at successive instants with
    nothing loaded between them, both gave [s] as the sequence of that buffer
    and [s] is odd; the view is made after the second load, covers exactly
    [height*stride] bytes from 8 bytes past the base of the buffer, and [s]
    becomes the last sequence of the reader, whose other fields stay.  When
    the sleep interval is zero, it returns a view exactly when one of its
    attempts within the spin budget passes this stability check. *)
Theorem latest_frame_view_seqlock (r : FrameShmReader.t) (σ : Sys) (m : nat) (o : mmap_obj)
    (max_spins sleep_ns : Z) :
  let shm := mo_shm o in
  let active := uint_at shm (now σ) 24 4 in
  let base := FrameShmReader.header_size r + active * FrameShmReader.onebuf_size r in
  let len := FrameShmReader.height r * FrameShmReader.stride r in
  let seq_at := fun t => uint_at shm t base 8 in
  frame_connected r σ m o →
  0 <= base → 0 <= len → base + 8 + len <= shm_size shm →
  (∀ v s st,
     FrameShmReader.latest_frame_view max_spins sleep_ns (r, σ) = (Ok (Some v, s), st) →
     (∃ t, (now σ < t)%nat
           ∧ seq_at t = s ∧ seq_at (S t) = s ∧ Z.odd s = true
           ∧ snd st = exported m o (at_instant (S (S t)) σ))
     ∧ v = {| mv_obj := m; mv_start := base + 8; mv_len := len |}
     ∧ frame_stores s r (fst st))
  ∧ (truthy sleep_ns = false →
     ((∃ v s st,
         FrameShmReader.latest_frame_view max_spins sleep_ns (r, σ) = (Ok (Some v, s), st))
      ↔ (∃ t k, attempts seq_at (S (now σ)) t k ∧ Z.of_nat k < max_spins ∧ stable seq_at t))).
Proof.
  intros shm active base len seq_at Hc Hb0 Hlen Hfit.
  assert (Hb : buffer_in_bounds r shm active).
  { unfold buffer_in_bounds, FrameShmReader._buf_base. fold active base len.
    split; [exact Hb0|]. split; [exact Hlen | exact Hfit]. }
  assert (Hrun : truthy sleep_ns = false →
    FrameShmReader.latest_frame_view max_spins sleep_ns (r, σ)
    = match scan seq_at (Z.to_nat max_spins) (S (now σ)) 0 with
      | (Some t, t', _) =>
          (Ok (Some {| mv_obj := m; mv_start := base + 8; mv_len := len |}, seq_at t),
           (FrameShmReader.set_last_seq (seq_at t) r, exported m o (at_instant t' σ)))
      | (None, t', _) => (Ok (None, FrameShmReader._last_seq r), (r, at_instant t' σ))
      end).
  { intros Hsl. unfold FrameShmReader.latest_frame_view, bind.
    rewrite (latest_frame_view_spins_scan r σ m o max_spins sleep_ns Hc Hb Hsl).
    fold shm active. unfold FrameShmReader._buf_base. fold base seq_at.
    destruct (scan seq_at (Z.to_nat max_spins) (S (now σ)) 0) as [[[t|] t'] k]; reflexivity. }
  split.
  - intros v s st Hres. destruct (truthy sleep_ns) eqn:Hsl.
    + exfalso. revert Hres.
      unfold FrameShmReader.latest_frame_view, FrameShmReader.latest_frame_view_spins.
      destruct Hc as (Hmm & Hmap & H28).
      cbv beta iota delta [bind self zoom get fst snd]. rewrite Hmm.
      cbv beta iota delta [sys zoom fst snd].
      rewrite (unpack_u32_ok _ _ _ _ Hmap) by lia.
      destruct (Z.to_nat max_spins) as [|n].
      * cbn. discriminate.
      * destruct (frame_spin_sleeping (FrameShmReader._buf_base r (uint_at (mo_shm o) (now σ) 24 4))
                    sleep_ns n 0 (r, set_now S σ) Hsl) as (e & st' & He).
        rewrite He. discriminate.
    + rewrite (Hrun eq_refl) in Hres.
      destruct (scan seq_at (Z.to_nat max_spins) (S (now σ)) 0) as [[[t|] t'] k] eqn:Hscan;
        [|discriminate].
      destruct (scan_some seq_at _ _ _ _ _ _ _ _ (attempts_first seq_at (S (now σ))) Hscan)
        as (j & Hj & Hlt & [Hodd Heq] & Ht' & Hk & Hle).
      inversion Hres; subst v s st t'. cbn [fst snd].
      split; [|split; [reflexivity | apply frame_stores_set]].
      exists t. split; [lia|]. split; [reflexivity|]. split; [exact Heq|].
      split; [exact Hodd | reflexivity].
  - intros Hsl. rewrite (Hrun Hsl). split.
    + intros (v & s & st & Hres).
      destruct (scan seq_at (Z.to_nat max_spins) (S (now σ)) 0) as [[[t|] t'] k] eqn:Hscan;
        [|discriminate].
      destruct (scan_some seq_at _ _ _ _ _ _ _ _ (attempts_first seq_at (S (now σ))) Hscan)
        as (j & Hj & Hlt & Hst & Ht' & Hk & Hle).
      exists t, j. split; [exact Hj|]. split; [lia | exact Hst].
    + intros (t & k & Ha & Hk & Hst).
      replace (Z.to_nat max_spins) with (k + S (Z.to_nat max_spins - S k))%nat by lia.
      rewrite (scan_follow seq_at _ _ _ Ha), scan_stable by exact Hst.
      eauto.
Qed.

Lemma latest_frame_view_seqlock_witness :
  let r := fst Scenarios.frame_second_torn in
  let σ := snd Scenarios.frame_second_torn in
  let o := open_mmap Scenarios.second_torn in
  (frame_connected r σ 0 o
   ∧ uint_at (mo_shm o) (now σ) 24 4 = 1
   ∧ FrameShmReader.header_size r + 1 * FrameShmReader.onebuf_size r = 48
   ∧ FrameShmReader.height r * FrameShmReader.stride r = 12
   ∧ shm_size (mo_shm o) = 68)
  ∧ (∃ v s st, FrameShmReader.latest_frame_view 64 0 (r, σ) = (Ok (Some v, s), st))
  ∧ fst (FrameShmReader.latest_frame_view 64 0 (r, σ))
    = Ok (Some {| mv_obj := 0; mv_start := 56; mv_len := 12 |}, 9)
  ∧ FrameShmReader._last_seq r = 0
  ∧ FrameShmReader._last_seq (fst (snd (FrameShmReader.latest_frame_view 64 0 (r, σ)))) = 9.
Proof.
  intros r σ o.
  assert (Hc : frame_connected r σ 0 o).
  { split; [vm_compute; reflexivity|].
    split; [split; vm_compute; reflexivity|]. vm_compute; discriminate. }
  assert (Ha : uint_at (mo_shm o) (now σ) 24 4 = 1) by (vm_compute; reflexivity).
  assert (Hbase : FrameShmReader.header_size r + 1 * FrameShmReader.onebuf_size r = 48)
    by (vm_compute; reflexivity).
  assert (Hlen : FrameShmReader.height r * FrameShmReader.stride r = 12)
    by (vm_compute; reflexivity).
  assert (Hsz : shm_size (mo_shm o) = 68) by (vm_compute; reflexivity).
  split; [auto 10|].
  destruct (latest_frame_view_seqlock r σ 0%nat o 64 0 Hc) as [Honly Hiff];
    [rewrite Ha, Hbase; lia | rewrite Hlen; lia | rewrite Ha, Hbase, Hlen, Hsz; lia |].
  assert (Hex : ∃ v s st,
             FrameShmReader.latest_frame_view 64 0 (r, σ) = (Ok (Some v, s), st)).
  { apply (Hiff eq_refl). exists 5%nat, 2%nat.
    split; [|split; [lia | split; vm_compute; reflexivity]].
    assert (Hnow : S (now σ) = 2%nat) by (vm_compute; reflexivity).
    rewrite Hnow.
    apply (attempts_torn _ 2 3 1); [|vm_compute; reflexivity | vm_compute; discriminate].
    apply (attempts_even _ 2 2 0); [apply attempts_first | vm_compute; reflexivity]. }
  split; [exact Hex|].
  destruct Hex as (v & s & st & Hres). rewrite Hres. cbn [fst snd].
  destruct (Honly v s st Hres) as ((t & Hlt & H1 & H2 & Hodd & Hst) & Hv & Hlast & _).
  assert (Hs : fst (FrameShmReader.latest_frame_view 64 0 (r, σ))
               = Ok (Some {| mv_obj := 0; mv_start := 56; mv_len := 12 |}, 9))
    by (vm_compute; reflexivity).
  rewrite Hres in Hs. cbn [fst] in Hs.
  split; [exact Hs|]. split; [vm_compute; reflexivity|].
  rewrite Hlast. congruence.
Defined.

(** ** The spin budget *)

(** With a zero sleep interval the bounded-spin read of a frame whose
    sequence never passes the stability check performs [max_spins] attempts
    and returns (None, last sequence), the reader unchanged. *)
Lemma frame_spin_budget (r : FrameShmReader.t) (σ : Sys) (m : nat) (o : mmap_obj)
    (max_spins sleep_ns : Z) :
  let shm := mo_shm o in
  let active := uint_at shm (now σ) 24 4 in
  let base := FrameShmReader._buf_base r active in
  let seq_at := fun t => uint_at shm t base 8 in
  frame_connected r σ m o → buffer_in_bounds r shm active →
  truthy sleep_ns = false → 0 <= max_spins →
  (∀ t, ¬ stable seq_at t) →
  ∃ t', FrameShmReader.latest_frame_view_spins max_spins sleep_ns (r, σ)
        = (Ok ((None, FrameShmReader._last_seq r), max_spins), (r, at_instant t' σ)).
Proof.
  intros shm active base seq_at Hc Hb Hsl HN Hnever.
  rewrite (latest_frame_view_spins_scan r σ m o max_spins sleep_ns Hc Hb Hsl).
  fold shm active base seq_at.
  destruct (scan_never seq_at (Z.to_nat max_spins) (S (now σ)) 0 Hnever) as [t' Ht'].
  rewrite Ht'. exists t'. rewrite Z2Nat.id by lia. reflexivity.
Qed.

Lemma geo_read_seq r σ m o :
  GeoShmReader.mm r = Some m → mapped σ m o → 24 <= shm_size (mo_shm o) →
  GeoShmReader._seq (r, σ)
  = (Ok (uint_at (mo_shm o) (now σ) 16 8), (r, at_instant (S (now σ)) σ)).
Proof.
  intros Hmm Hmap H24. unfold GeoShmReader._seq, GeoShmReader.the_mm.
  munfold. rewrite Hmm. cbn [fst snd].
  rewrite (unpack_u64_ok _ _ _ _ Hmap) by lia. reflexivity.
Qed.

Lemma geo_spin_scan r σ m o sleep_ns n spins :
  let seq_at := fun t => uint_at (mo_shm o) t 16 8 in
  GeoShmReader.mm r = Some m → mapped σ m o → 24 <= shm_size (mo_shm o) →
  points_in_bounds r (mo_shm o) → truthy sleep_ns = false →
  GeoShmReader.spin n sleep_ns spins (r, σ)
  = match scan seq_at n (now σ) spins with
    | (Some t, t', k) =>
        (Ok (Some (points_view r m, GeoShmReader.meta_of r, seq_at t), k),
         (GeoShmReader.set_last_seq (seq_at t) r, exported m o (at_instant t' σ)))
    | (None, t', k) => (Ok (None, k), (r, at_instant t' σ))
    end.
Proof.
  intros seq_at Hmm Hmap H24 (Hh & Hc & Hfit) Hsl. revert σ spins Hmap.
  induction n as [|n IH]; intros σ spins Hmap.
  - cbn. rewrite at_instant_now. reflexivity.
  - cbn [GeoShmReader.spin scan]. unfold bind at 1.
    rewrite (geo_read_seq _ _ _ _ Hmm Hmap H24). fold (seq_at (now σ)).
    rewrite land_1_odd. rewrite Hsl.
    destruct (Z.odd (seq_at (now σ))) eqn:Hodd.
    + unfold when at 1. unfold bind at 1. unfold bind at 1. unfold ret at 1.
      unfold bind at 1.
      rewrite (geo_read_seq _ _ m o) by (try apply mapped_at_instant; assumption).
      cbn [now at_instant set_now]. fold (seq_at (S (now σ))).
      destruct (Z.eqb_spec (seq_at (now σ)) (seq_at (S (now σ)))) as [He|He].
      * munfold. unfold GeoShmReader.the_mm. munfold. rewrite Hmm. cbn [fst snd].
        rewrite (view_ok _ _ o) by (repeat apply mapped_at_instant; first [assumption | lia]).
        reflexivity.
      * cbv beta iota delta [bind ret when].
        rewrite IH by (repeat apply mapped_at_instant; assumption).
        cbn [now at_instant set_now].
        destruct (scan seq_at n (S (S (now σ))) (spins + 1)) as [[[t|] t'] k]; reflexivity.
    + cbv beta iota delta [bind ret when].
      rewrite IH by (repeat apply mapped_at_instant; assumption).
      cbn [now at_instant set_now].
      destruct (scan seq_at n (S (now σ)) (spins + 1)) as [[[t|] t'] k]; reflexivity.
Qed.

(** The same for the geometry reader. *)
Lemma geo_spin_budget (r : GeoShmReader.t) (σ : Sys) (m : nat) (o : mmap_obj)
    (max_spins sleep_ns : Z) :
  let seq_at := fun t => uint_at (mo_shm o) t 16 8 in
  geo_connected r σ m o → points_in_bounds r (mo_shm o) →
  truthy sleep_ns = false → 0 <= max_spins →
  (∀ t, ¬ stable seq_at t) →
  ∃ t', GeoShmReader.latest_spins max_spins sleep_ns (r, σ)
        = (Ok ((None, None, GeoShmReader._last_seq r), max_spins), (r, at_instant t' σ)).
Proof.
  intros seq_at (Hmm & Hmap & H24) Hb Hsl HN Hnever.
  unfold GeoShmReader.latest_spins.
  cbv beta iota delta [bind self zoom get fst snd]. rewrite Hmm.
  rewrite (geo_spin_scan r σ m o sleep_ns) by assumption. fold seq_at.
  destruct (scan_never seq_at (Z.to_nat max_spins) (now σ) 0 Hnever) as [t' Ht'].
  rewrite Ht'. exists t'. rewrite Z2Nat.id by lia. reflexivity.
Qed.

(** C3. The bounded-spin reads with one spin and a sleep interval of one
    nanosecond, on a frame and a geometry segment whose sequence is even at
    every instant: the first attempt ends in the NameError of the name
    [time], which the module never imports, where the not-ready result was
    due after one attempt. *)
Theorem bounded_spin_with_sleep_raises :
  (∀ t, uint_at (Fixtures.frame_seg 1 0 8) t 28 8 = 8)
  ∧ (∀ t, uint_at (Fixtures.geom_seg 4) t 16 8 = 4)
  ∧ fst (FrameShmReader.latest_frame_view 1 1 Fixtures.frame_8) = Raise (NameError "time")
  ∧ fst (GeoShmReader.latest 1 1 Fixtures.geom_4) = Raise (NameError "time")
  ∧ fst (FrameShmReader.latest_frame_view 1 0 Fixtures.frame_8) = Ok (None, 0)
  ∧ fst (GeoShmReader.latest 1 0 Fixtures.geom_4) = Ok (None, None, 0).
Proof.
  split; [intros t; vm_compute; reflexivity|].
  split; [intros t; vm_compute; reflexivity|].
  split; [vm_compute; reflexivity|].
  split; [vm_compute; reflexivity|].
  split; vm_compute; reflexivity.
Qed.

(** ** Opening and mapping a segment *)

Lemma os_open_ok path shm σ :
  files σ !! path = Some shm →
  os.open path σ = (Ok (fresh (dom (fds σ))), set_fds <[fresh (dom (fds σ)) := path]> σ).
Proof. intros Hf. unfold os.open. munfold. rewrite Hf. reflexivity. Qed.

Lemma os_open_missing path σ :
  files σ !! path = None → os.open path σ = (Raise FileNotFoundError, σ).
Proof. intros Hf. unfold os.open. munfold. rewrite Hf. reflexivity. Qed.

Lemma fstat_opened path shm σ :
  files σ !! path = Some shm →
  os.fstat_size (fresh (dom (fds σ))) (set_fds <[fresh (dom (fds σ)) := path]> σ)
  = (Ok (shm_size shm), set_fds <[fresh (dom (fds σ)) := path]> σ).
Proof.
  intros Hf. unfold os.fstat_size. munfold. cbn [fds files set_fds].
  rewrite lookup_insert_eq, Hf. reflexivity.
Qed.

Lemma mmap_opened path shm σ :
  files σ !! path = Some shm →
  mmap.mmap (fresh (dom (fds σ))) (shm_size shm) (set_fds <[fresh (dom (fds σ)) := path]> σ)
  = if shm_size shm <=? 0
    then (Raise ValueError, set_fds <[fresh (dom (fds σ)) := path]> σ)
    else (Ok (fresh (dom (mmaps σ))), opened path shm σ).
Proof.
  intros Hf. unfold mmap.mmap. munfold. cbn [fds files set_fds].
  rewrite lookup_insert_eq, Hf, Z.ltb_irrefl, orb_false_r.
  destruct (Z.leb_spec (shm_size shm) 0) as [Hle|Hgt]; [reflexivity|].
  replace (shm_size shm <? 0) with false by (symmetry; apply Z.ltb_ge; lia).
  reflexivity.
Qed.

Lemma mapped_opened path shm σ :
  mapped (opened path shm σ) (fresh (dom (mmaps σ))) (open_mmap shm).
Proof. split; [apply lookup_insert_eq | reflexivity]. Qed.

Lemma read_slice_prefix σ m o b :
  mapped σ m o → 0 <= b → 0 <= shm_size (mo_shm o) →
  mmap.read_slice m 0 b σ
  = (Ok (mmap.bytes_at (mo_shm o) (now σ) 0 (Z.to_nat (Z.min b (shm_size (mo_shm o))))),
     set_now S σ).
Proof.
  intros Hm Hb Hn. unfold mmap.read_slice. unfold bind at 1.
  rewrite (lookup_mapped _ _ _ Hm). munfold. unfold mmap.clamp.
  replace (b <? 0) with false by (symmetry; apply Z.ltb_ge; lia).
  cbn. rewrite Z.min_l by lia. rewrite Z.sub_0_r. reflexivity.
Qed.

Lemma length_bytes_at shm t off n : length (mmap.bytes_at shm t off n) = n.
Proof. unfold mmap.bytes_at. rewrite length_map, length_seq. reflexivity. Qed.

Lemma map_seq_shift {A} (f : nat → A) (a w : nat) :
  map f (seq a w) = map (fun i => f (a + i)%nat) (seq 0 w).
Proof.
  revert a f. induction w as [|w IH]; intros a f; [reflexivity|].
  cbn [seq map]. f_equal; [f_equal; lia|].
  rewrite (IH (S a)), (IH 1%nat). apply map_ext. intros i. f_equal. lia.
Qed.

Lemma field_bytes_at shm t (off w n : nat) :
  (off + w <= n)%nat →
  struct.field (mmap.bytes_at shm t 0 n) off w = uint_at shm t (Z.of_nat off) w.
Proof.
  intros Hle. unfold struct.field, uint_at, mmap.bytes_at. f_equal.
  rewrite skipn_map, firstn_map, drop_seq, take_seq.
  rewrite Nat.min_l by lia. cbn [Nat.add].
  rewrite map_seq_shift. apply map_ext. intros i. f_equal. lia.
Qed.

(** ** FrameShmReader.connect *)

(** What [connect] does on a segment that exists, step by step. *)
Lemma frame_connect_run (r : FrameShmReader.t) (σ : Sys) (shm : Shm) :
  files σ !! FrameShmReader._path r = Some shm →
  FrameShmReader.header_size r = 28 →
  let f := fresh (dom (fds σ)) in
  let m := fresh (dom (mmaps σ)) in
  let path := FrameShmReader._path r in
  let r1 := FrameShmReader.set_mm (Some m) (FrameShmReader.set_fd (Some f) r) in
  let σ1 := set_now S (opened path shm σ) in
  FrameShmReader.connect (r, σ)
  = if shm_size shm <=? 0
    then (Raise ValueError, (FrameShmReader.set_fd (Some f) r, set_fds <[f := path]> σ))
    else if shm_size shm <? 28 then (Raise StructError, (r1, σ1))
    else if fb_magic shm (now σ) =? MAGIC then (Ok tt, (frame_cached shm (now σ) r1, σ1))
    else (Raise (RuntimeError "Bad FB magic" (fb_magic shm (now σ))), (r1, σ1)).
Proof.
  intros Hf Hh f m path r1 σ1. unfold FrameShmReader.connect.
  cbv beta iota delta [bind self sys zoom get modify fst snd].
  rewrite (os_open_ok _ _ _ Hf), (fstat_opened _ _ _ Hf), (mmap_opened _ _ _ Hf).
  fold f m path.
  destruct (Z.leb_spec (shm_size shm) 0) as [Hle|Hgt]; [reflexivity|].
  rewrite (read_slice_prefix _ _ _ _ (mapped_opened path shm σ)) by (cbn; lia).
  rewrite Hh. cbn [mo_shm open_mmap now opened set_mmaps set_fds].
  fold (opened path shm σ). fold σ1.
  rewrite length_bytes_at.
  destruct (Z.ltb_spec (shm_size shm) 28) as [Hlt|Hge].
  - replace (Z.to_nat (Z.min 28 (shm_size shm)) =? FB_HDR_size)%nat with false; [reflexivity|].
    symmetry. apply Nat.eqb_neq. unfold FB_HDR_size. lia.
  - rewrite Z.min_l by lia. change (Z.to_nat 28) with 28%nat.
    change (28 =? FB_HDR_size)%nat with true. cbn [negb].
    rewrite !(field_bytes_at shm (now σ)) by lia.
    change (Z.of_nat 0) with 0. change (Z.of_nat 8) with 8. change (Z.of_nat 12) with 12.
    change (Z.of_nat 16) with 16. change (Z.of_nat 20) with 20.
    fold (fb_magic shm (now σ)) (fb_width shm (now σ)) (fb_height shm (now σ))
      (fb_stride shm (now σ)) (fb_bufcnt shm (now σ)).
    destruct (fb_magic shm (now σ) =? MAGIC); reflexivity.
Qed.

(** C4, as stated, fails: a header of version 2 is not valid, and neither
    is a region cut short of its second buffer, yet [connect] succeeds on
    both. *)
Lemma connect_accepts_invalid_header :
  let v2 := Fixtures.frame_seg 2 0 7 in
  let short := Fixtures.shm_of 48 (fun _ => Fixtures.frame_bytes 1 0 7) in
  (¬ header_valid v2 0
   ∧ fst (FrameShmReader.connect
            (FrameShmReader.__init__ "/uc3d_fb0",
             Fixtures.sys0 (Fixtures.cam_files 0 v2 (Fixtures.geom_seg 4)))) = Ok tt)
  ∧ (¬ header_valid short 0
     ∧ fst (FrameShmReader.connect
              (FrameShmReader.__init__ "/uc3d_fb0",
               Fixtures.sys0 (Fixtures.cam_files 0 short (Fixtures.geom_seg 4)))) = Ok tt).
Proof.
  intros v2 short. split; split.
  - intros (_ & Hv & _). vm_compute in Hv. discriminate.
  - vm_compute. reflexivity.
  - intros (_ & _ & _ & Hs). vm_compute in Hs. apply Hs. reflexivity.
  - vm_compute. reflexivity.
Qed.

(** C4, amended. On a segment that exists and whose header declares RGB888,
    [connect] succeeds exactly when at least the 28 bytes of the header are
    mapped and the magic is the expected one; the version and the size the
    header implies are not looked at.  On success width, height, stride and
    buffer count are those of the header and [onebuf_size] is
    [8 + height*stride]. *)
Theorem connect_checks_magic_only (r : FrameShmReader.t) (σ : Sys) (shm : Shm) :
  files σ !! FrameShmReader._path r = Some shm →
  FrameShmReader.header_size r = 28 →
  fb_format shm (now σ) = FMT_RGB888 →
  let out := FrameShmReader.connect (r, σ) in
  let r' := fst (snd out) in
  (fst out = Ok tt ↔ 28 <= shm_size shm ∧ fb_magic shm (now σ) = MAGIC)
  ∧ ((∃ e, fst out = Raise e) ↔ shm_size shm < 28 ∨ fb_magic shm (now σ) ≠ MAGIC)
  ∧ (fst out = Ok tt →
     FrameShmReader.width r' = fb_width shm (now σ)
     ∧ FrameShmReader.height r' = fb_height shm (now σ)
     ∧ FrameShmReader.stride r' = fb_stride shm (now σ)
     ∧ FrameShmReader.bufcnt r' = fb_bufcnt shm (now σ)
     ∧ FrameShmReader.onebuf_size r'
       = 8 + FrameShmReader.height r' * FrameShmReader.stride r').
Proof.
  intros Hf Hh _ out r'. subst r' out. rewrite (frame_connect_run r σ shm Hf Hh).
  destruct (Z.leb_spec (shm_size shm) 0) as [Hle|Hgt]; cbn [fst snd].
  { split; [|split].
    - split; [discriminate | lia].
    - split; [intros _; lia | eauto].
    - discriminate. }
  destruct (Z.ltb_spec (shm_size shm) 28) as [Hlt|Hge]; cbn [fst snd].
  { split; [|split].
    - split; [discriminate | lia].
    - split; [intros _; lia | eauto].
    - discriminate. }
  destruct (Z.eqb_spec (fb_magic shm (now σ)) MAGIC) as [He|Hne]; cbn [fst snd].
  - split; [|split].
    + split; [intros _; split; [lia | exact He] | reflexivity].
    + split; [intros [e He']; discriminate | intros [Hlt|Hne]; [lia | contradiction]].
    + intros _. repeat split; reflexivity.
  - split; [|split].
    + split; [discriminate | intros [_ He]; contradiction].
    + split; [intros _; right; exact Hne | eauto].
    + discriminate.
Qed.

Lemma connect_checks_magic_only_witness :
  let r := FrameShmReader.__init__ "/uc3d_fb0" in
  let σ := Fixtures.sys0 Fixtures.files_7_4 in
  let shm := Fixtures.frame_seg 1 0 7 in
  files σ !! FrameShmReader._path r = Some shm
  ∧ FrameShmReader.header_size r = 28
  ∧ fb_format shm (now σ) = FMT_RGB888
  ∧ fst (FrameShmReader.connect (r, σ)) = Ok tt
  ∧ FrameShmReader.onebuf_size (fst (snd (FrameShmReader.connect (r, σ)))) = 20.
Proof.
  intros r σ shm.
  assert (Hf : files σ !! FrameShmReader._path r = Some shm) by (vm_compute; reflexivity).
  assert (Hh : FrameShmReader.header_size r = 28) by reflexivity.
  assert (Hfmt : fb_format shm (now σ) = FMT_RGB888) by (vm_compute; reflexivity).
  destruct (connect_checks_magic_only r σ shm Hf Hh Hfmt) as (Hok & _ & Hfields).
  assert (Hres : fst (FrameShmReader.connect (r, σ)) = Ok tt).
  { apply Hok. split; [vm_compute; discriminate | vm_compute; reflexivity]. }
  split; [exact Hf|]. split; [exact Hh|]. split; [exact Hfmt|]. split; [exact Hres|].
  destruct (Hfields Hres) as (_ & Hhe & Hst & _ & Hone).
  rewrite Hone, Hhe, Hst. vm_compute. reflexivity.
Defined.

(** ** The camera switch *)

(** What the geometry [connect] does on a segment that exists. *)
Lemma geo_connect_run (r : GeoShmReader.t) (σ : Sys) (shm : Shm) :
  let path := "/dev/shm" +:+ GeoShmReader.name r in
  files σ !! path = Some shm →
  let f := fresh (dom (fds σ)) in
  let m := fresh (dom (mmaps σ)) in
  let r1 := GeoShmReader.set_mm (Some m) (GeoShmReader.set_fd (Some f) r) in
  GeoShmReader.connect (r, σ)
  = if shm_size shm <=? 0
    then (Raise ValueError, (GeoShmReader.set_fd (Some f) r, set_fds <[f := path]> σ))
    else if shm_size shm <? 16 then (Raise StructError, (r1, opened path shm σ))
    else if geo_magic shm (now σ) =? GEOM_MAGIC
    then (Ok tt, (GeoShmReader.set_dims (geo_count shm (now σ)) (geo_width shm (now σ))
                    (geo_height shm (now σ)) r1,
                  set_now S (opened path shm σ)))
    else (Raise (RuntimeError "Bad GEOM magic" (geo_magic shm (now σ))),
          (r1, set_now S (opened path shm σ))).
Proof.
  intros path Hf f m r1. unfold GeoShmReader.connect.
  cbv beta iota delta [bind self sys zoom get modify fst snd].
  fold path.
  rewrite (os_open_ok _ _ _ Hf), (fstat_opened _ _ _ Hf), (mmap_opened _ _ _ Hf).
  fold f m.
  destruct (Z.leb_spec (shm_size shm) 0) as [Hle|Hgt]; [reflexivity|].
  destruct (Z.ltb_spec (shm_size shm) 16) as [Hlt|Hge].
  - rewrite (load_short _ _ _ _ _ (mapped_opened path shm σ)) by (cbn; lia). reflexivity.
  - rewrite (load_ok _ _ _ _ _ (mapped_opened path shm σ)) by (cbn; lia).
    cbn [mo_shm open_mmap now opened set_mmaps set_fds].
    fold (opened path shm σ).
    rewrite !(field_bytes_at shm (now σ)) by lia.
    change (Z.of_nat 0) with 0. change (Z.of_nat 4) with 4.
    change (Z.of_nat 8) with 8. change (Z.of_nat 12) with 12.
    fold (geo_magic shm (now σ)) (geo_count shm (now σ)) (geo_width shm (now σ))
      (geo_height shm (now σ)).
    destruct (geo_magic shm (now σ) =? GEOM_MAGIC); reflexivity.
Qed.

Lemma released_frame keep σ :
  files (released keep σ) = files σ ∧ now (released keep σ) = now σ
  ∧ fds (released keep σ) = fds σ.
Proof.
  destruct keep as [mv|]; [|auto]. unfold released, mmap.release. munfold.
  destruct (mmaps σ !! mv_obj mv); cbn; auto.
Qed.

Lemma release_current_buffers_run v σ :
  Viewport._release_current_buffers (v, σ)
  = (Ok tt, (Viewport.set_view_keepalive None v, released (Viewport._view_keepalive v) σ)).
Proof.
  unfold Viewport._release_current_buffers, released.
  cbv beta iota delta [bind self sys zoom get modify fst snd].
  destruct (Viewport._view_keepalive v) as [mv|]; [|reflexivity].
  unfold mmap.release. munfold. destruct (mmaps σ !! mv_obj mv); reflexivity.
Qed.

Lemma frame_path_of_index idx :
  FrameShmReader._path (FrameShmReader.__init__ ("/uc3d_fb" +:+ str idx))
  = "/dev/shm/uc3d_fb" +:+ str idx.
Proof. reflexivity. Qed.

(** C8. Switching to camera [idx] whose two segments exist with the
    expected magics: the viewport holds a frame reader named "/uc3d_fb<idx>"
    and a geometry reader named "/uc3d_geom<idx>", each mapped on the segment
    of that name under /dev/shm, and the cached width, height, stride, buffer
    count and point count are the fields of the headers of these two
    segments, whatever the readers of the previous camera held. *)
Theorem open_camera_by_index_refreshes (v : Viewport.t) (σ : Sys) (idx : Z)
    (fshm gshm : Shm) :
  files σ !! ("/dev/shm/uc3d_fb" +:+ str idx) = Some fshm →
  files σ !! ("/dev/shm/uc3d_geom" +:+ str idx) = Some gshm →
  28 <= shm_size fshm → fb_magic fshm (now σ) = MAGIC →
  16 <= shm_size gshm → geo_magic gshm (S (now σ)) = GEOM_MAGIC →
  ∃ v' σ' fb g mf mg,
    Viewport._open_camera_by_index idx (v, σ) = (Ok tt, (v', σ'))
    ∧ Viewport._fb v' = Some fb ∧ Viewport._geom v' = Some g
    ∧ Viewport._active_idx v' = idx
    ∧ FrameShmReader.name fb = "/uc3d_fb" +:+ str idx
    ∧ GeoShmReader.name g = "/uc3d_geom" +:+ str idx
    ∧ FrameShmReader.mm fb = Some mf ∧ mmaps σ' !! mf = Some (open_mmap fshm)
    ∧ GeoShmReader.mm g = Some mg ∧ mmaps σ' !! mg = Some (open_mmap gshm)
    ∧ FrameShmReader.width fb = fb_width fshm (now σ)
    ∧ FrameShmReader.height fb = fb_height fshm (now σ)
    ∧ FrameShmReader.stride fb = fb_stride fshm (now σ)
    ∧ FrameShmReader.bufcnt fb = fb_bufcnt fshm (now σ)
    ∧ FrameShmReader.onebuf_size fb = 8 + fb_height fshm (now σ) * fb_stride fshm (now σ)
    ∧ GeoShmReader.count g = geo_count gshm (S (now σ))
    ∧ GeoShmReader.width g = geo_width gshm (S (now σ))
    ∧ GeoShmReader.height g = geo_height gshm (S (now σ)).
Proof.
  intros Hff Hfg Hf28 Hfm Hg16 Hgm.
  destruct (released_frame (Viewport._view_keepalive v) σ) as (Hrf & Hrn & _).
  set (σ0 := released (Viewport._view_keepalive v) σ) in *.
  set (fpath := "/dev/shm/uc3d_fb" +:+ str idx) in *.
  set (gpath := "/dev/shm/uc3d_geom" +:+ str idx) in *.
  set (σ1 := set_now S (opened fpath fshm σ0)).
  assert (Hff0 : files σ0 !! FrameShmReader._path
                   (FrameShmReader.__init__ ("/uc3d_fb" +:+ str idx)) = Some fshm).
  { rewrite frame_path_of_index, Hrf. exact Hff. }
  assert (Hfg1 : files σ1 !! ("/dev/shm" +:+ GeoShmReader.name
                   (GeoShmReader.__init__ ("/uc3d_geom" +:+ str idx))) = Some gshm).
  { cbn [files σ1 set_now opened set_mmaps set_fds]. rewrite Hrf. exact Hfg. }
  unfold Viewport._open_camera_by_index.
  cbv beta iota delta [bind self sys zoom get modify fst snd].
  rewrite release_current_buffers_run. fold σ0.
  unfold Viewport.singleShot, Viewport.fb_connect, Viewport.geom_connect, call.
  cbv beta iota delta [bind self sys zoom get modify fst snd ret].
  cbn [Viewport._fb Viewport.set_fb Viewport.set_timers Viewport.set_view_keepalive].
  rewrite (frame_connect_run _ σ0 fshm Hff0 eq_refl).
  rewrite frame_path_of_index. fold fpath.
  replace (shm_size fshm <=? 0) with false by (symmetry; apply Z.leb_gt; lia).
  replace (shm_size fshm <? 28) with false by (symmetry; apply Z.ltb_ge; lia).
  rewrite Hrn, Hfm, Z.eqb_refl. fold σ1.
  cbn [fst snd Viewport._geom Viewport.set_geom Viewport.set_fb].
  rewrite (geo_connect_run _ σ1 gshm Hfg1).
  replace (shm_size gshm <=? 0) with false by (symmetry; apply Z.leb_gt; lia).
  replace (shm_size gshm <? 16) with false by (symmetry; apply Z.ltb_ge; lia).
  replace (now σ1) with (S (now σ)) by (cbn; rewrite Hrn; reflexivity).
  rewrite Hgm, Z.eqb_refl. cbn [fst snd].
  do 6 eexists. split; [reflexivity|].
  cbn [Viewport._fb Viewport._geom Viewport._active_idx Viewport.set_active_idx
         Viewport.set_geom Viewport.set_fb].
  do 6 (split; [reflexivity|]).
  set (mf := fresh (dom (mmaps σ0))).
  set (mg := fresh (dom (mmaps σ1))).
  assert (Hne : mg ≠ mf).
  { intros Heq. apply (is_fresh (dom (mmaps σ1))). fold mg. rewrite Heq.
    apply elem_of_dom. exists (open_mmap fshm). apply lookup_insert_eq. }
  split.
  { cbn [mmaps set_now opened set_mmaps set_fds]. fold mf.
    rewrite lookup_insert_ne by exact Hne. apply lookup_insert_eq. }
  split; [reflexivity|].
  split; [apply lookup_insert_eq|].
  repeat split; reflexivity.
Qed.

Lemma open_camera_by_index_witness :
  let v := fst Fixtures.viewing_0 in
  let σ := snd Fixtures.viewing_0 in
  (files σ !! ("/dev/shm/uc3d_fb" +:+ str 1) = Some Fixtures.frame1
   ∧ files σ !! ("/dev/shm/uc3d_geom" +:+ str 1) = Some Fixtures.geom1
   ∧ 28 <= shm_size Fixtures.frame1 ∧ fb_magic Fixtures.frame1 (now σ) = MAGIC
   ∧ 16 <= shm_size Fixtures.geom1 ∧ geo_magic Fixtures.geom1 (S (now σ)) = GEOM_MAGIC)
  ∧ (FrameShmReader.width <$> Viewport._fb v) = Some 2
  ∧ ∃ fb g,
      Viewport._fb (fst (snd (Viewport._open_camera_by_index 1 (v, σ)))) = Some fb
      ∧ Viewport._geom (fst (snd (Viewport._open_camera_by_index 1 (v, σ)))) = Some g
      ∧ FrameShmReader.name fb = "/uc3d_fb1"
      ∧ FrameShmReader.width fb = 4 ∧ FrameShmReader.height fb = 3
      ∧ FrameShmReader.stride fb = 12
      ∧ GeoShmReader.count g = 12.
Proof.
  intros v σ.
  assert (H1 : files σ !! ("/dev/shm/uc3d_fb" +:+ str 1) = Some Fixtures.frame1)
    by (vm_compute; reflexivity).
  assert (H2 : files σ !! ("/dev/shm/uc3d_geom" +:+ str 1) = Some Fixtures.geom1)
    by (vm_compute; reflexivity).
  assert (H3 : 28 <= shm_size Fixtures.frame1) by (vm_compute; discriminate).
  assert (H4 : fb_magic Fixtures.frame1 (now σ) = MAGIC) by (vm_compute; reflexivity).
  assert (H5 : 16 <= shm_size Fixtures.geom1) by (vm_compute; discriminate).
  assert (H6 : geo_magic Fixtures.geom1 (S (now σ)) = GEOM_MAGIC) by (vm_compute; reflexivity).
  split; [auto 10|]. split; [vm_compute; reflexivity|].
  destruct (open_camera_by_index_refreshes v σ 1 _ _ H1 H2 H3 H4 H5 H6)
    as (v' & σ' & fb & g & mf & mg & Hrun & Hfb & Hg & _ & Hname & _ & _ & _ & _ & _
        & Hw & Hh & Hs & _ & _ & Hc & _).
  exists fb, g. rewrite Hrun. cbn [fst snd].
  split; [exact Hfb|]. split; [exact Hg|]. split; [exact Hname|].
  rewrite Hw, Hh, Hs, Hc.
  split; [vm_compute; reflexivity|]. split; [vm_compute; reflexivity|].
  split; vm_compute; reflexivity.
Defined.

(** ** Closing while a view is borrowed *)

(** [close] on a reader whose mapping still has an exported view: the
    BufferError of [mm.close()] skips [os.close], and the [finally] block
    clears both fields all the same. *)
Lemma frame_close_busy (r : FrameShmReader.t) (σ : Sys) (m : nat) (o : mmap_obj) :
  FrameShmReader.mm r = Some m → mapped σ m o → (0 < mo_exports o)%nat →
  FrameShmReader.close (r, σ)
  = (Raise BufferError, (FrameShmReader.set_fd None (FrameShmReader.set_mm None r), σ)).
Proof.
  intros Hmm [Hm Hc] Hex. unfold FrameShmReader.close, mmap.close.
  cbv beta iota delta [try_finally bind self sys zoom get modify raise ret fst snd].
  rewrite Hmm. cbn [fst snd]. rewrite Hm, Hc.
  replace (0 <? mo_exports o)%nat with true by (symmetry; apply Nat.ltb_lt; exact Hex).
  reflexivity.
Qed.

(** A later [close] on that reader finds nothing to close. *)
Lemma frame_close_forgotten (r : FrameShmReader.t) (σ : Sys) :
  FrameShmReader.close (FrameShmReader.set_fd None (FrameShmReader.set_mm None r), σ)
  = (Ok tt, (FrameShmReader.set_fd None (FrameShmReader.set_mm None r), σ)).
Proof. reflexivity. Qed.

(** C7. The frame reader of camera 0 with one borrowed view alive (and the
    same for a geometry reader): the close attempt raises BufferError and
    leaves the reader without mapping and descriptor; the close attempt that
    [_delayed_close] reschedules then returns normally without closing
    anything, also once the view has been released, so the descriptor stays
    open and the mapping is never closed by the channel. *)
Theorem close_busy_forgets_mapping :
  let busy := Fixtures.frame_7_viewed in
  let first := FrameShmReader.close busy in
  let retry := FrameShmReader.close (snd first) in
  let view := {| mv_obj := 0; mv_start := 36; mv_len := 12 |} in
  let late := FrameShmReader.close
                (fst (snd first), snd (mmap.release view (snd (snd first)))) in
  let gbusy := snd (GeoShmReader.latest_fast Fixtures.geom_5) in
  let gfirst := GeoShmReader.close gbusy in
  let gretry := GeoShmReader.close (snd gfirst) in
  let vp := Viewport._delayed_close (Some (fst busy)) None (Viewport.__init__, snd busy) in
  let vp' := Viewport.fire (snd vp) in
  ((mo_exports <$> mmaps (snd busy) !! 0%nat) = Some 1%nat
   ∧ FrameShmReader.mm (fst busy) = Some 0%nat
   ∧ FrameShmReader.fd (fst busy) = Some 0%nat)
  ∧ (fst first = Raise BufferError
     ∧ FrameShmReader.mm (fst (snd first)) = None
     ∧ FrameShmReader.fd (fst (snd first)) = None)
  ∧ (fst retry = Ok tt
     ∧ fds (snd (snd retry)) !! 0%nat = Some "/dev/shm/uc3d_fb0"
     ∧ (mo_closed <$> mmaps (snd (snd retry)) !! 0%nat) = Some false)
  ∧ (fst late = Ok tt
     ∧ fds (snd (snd late)) !! 0%nat = Some "/dev/shm/uc3d_fb0"
     ∧ (mo_closed <$> mmaps (snd (snd late)) !! 0%nat) = Some false)
  ∧ (fst gfirst = Raise BufferError
     ∧ GeoShmReader.mm (fst (snd gfirst)) = None
     ∧ GeoShmReader.fd (fst (snd gfirst)) = None
     ∧ fst gretry = Ok tt
     ∧ fds (snd (snd gretry)) !! 0%nat = Some "/dev/shm/uc3d_geom0"
     ∧ (mo_closed <$> mmaps (snd (snd gretry)) !! 0%nat) = Some false)
  ∧ (fst vp = Ok tt
     ∧ Viewport.timers (fst (snd vp))
       = [(50, Viewport.delayed_close_cb (Some (fst (snd first))) None)]
     ∧ fst vp' = Ok tt
     ∧ Viewport.timers (fst (snd vp')) = []
     ∧ fds (snd (snd vp')) !! 0%nat = Some "/dev/shm/uc3d_fb0"
     ∧ (mo_closed <$> mmaps (snd (snd vp')) !! 0%nat) = Some false).
Proof.
  intros busy first retry view late gbusy gfirst gretry vp vp'.
  split; [split; [|split]; vm_compute; reflexivity|].
  split; [split; [|split]; vm_compute; reflexivity|].
  split; [split; [|split]; vm_compute; reflexivity|].
  split; [split; [|split]; vm_compute; reflexivity|].
  split; [split; [|split; [|split; [|split; [|split]]]]; vm_compute; reflexivity|].
  split; [|split; [|split; [|split; [|split]]]]; vm_compute; reflexivity.
Qed.

(** ** CtrlShmWriter.write *)

Section CtrlWrite.
Context {float : Type}.
Variable pack_f32 : float → option (list byte).

Lemma write_increments (w : CtrlShmWriter.t float) (σ : Sys) :
  CtrlShmWriter.seq (fst (snd (CtrlShmWriter.write pack_f32 (w, σ))))
  = CtrlShmWriter.seq w + 1.
Proof.
  unfold CtrlShmWriter.write.
  cbv beta iota delta [bind self sys zoom get modify raise ret fst snd].
  destruct (CtrlShmWriter.pack _ _ _) as [bs|e]; [|reflexivity].
  cbn [CtrlShmWriter.shm CtrlShmWriter.set_seq].
  destruct (CtrlShmWriter.shm w) as [o|]; [|reflexivity].
  destruct (shared_memory.assign_prefix _ _ _ _) as [[[]|e] σ']; reflexivity.
Qed.

Lemma length_le_bytes n v : length (struct.le_bytes n v) = n.
Proof. revert v. induction n as [|n IH]; intros v; cbn; [reflexivity|]. rewrite IH. reflexivity. Qed.

Lemma in_range v b : 0 <= v < b → (0 <=? v) && (v <? b) = true.
Proof.
  intros [H1 H2]. apply andb_true_iff. split; [apply Z.leb_le | apply Z.ltb_lt]; assumption.
Qed.

Lemma pack_record (w : CtrlShmWriter.t float) (fbs : list (list byte)) :
  packable pack_f32 w fbs →
  CtrlShmWriter.pack pack_f32 CtrlShmWriter.CTRL_STRUCT (CtrlShmWriter.record_args w)
  = Ok (ctrl_record w fbs).
Proof.
  intros (Hseq & Hpause & Hflags & Hp & Hl & Hu & Hf).
  unfold ctrl_floats in Hf. unfold CtrlShmWriter.record_args, ctrl_record.
  destruct (CtrlShmWriter.cam_pos w) as [|p0 [|p1 [|p2 [|]]]]; try discriminate Hp.
  destruct (CtrlShmWriter.cam_look w) as [|l0 [|l1 [|l2 [|]]]]; try discriminate Hl.
  destruct (CtrlShmWriter.cam_up w) as [|u0 [|u1 [|u2 [|]]]]; try discriminate Hu.
  cbn [app] in Hf.
  repeat match goal with
         | H : Forall2 _ (_ :: _) _ |- _ => inversion H; clear H; subst
         | H : Forall2 _ [] _ |- _ => inversion H; clear H; subst
         end.
  unfold CtrlShmWriter.pack. cbn [map app length].
  replace (length (filter _ CtrlShmWriter.CTRL_STRUCT)) with 13%nat
    by (vm_compute; reflexivity).
  cbn [Nat.eqb negb CtrlShmWriter.CTRL_STRUCT CtrlShmWriter.pack_items
         CtrlShmWriter.pack_item].
  change (2 ^ (8 * Z.of_nat 8)) with (2 ^ 64).
  change (2 ^ (8 * Z.of_nat 1)) with 256.
  change (2 ^ (8 * Z.of_nat 4)) with (2 ^ 32).
  rewrite !in_range by assumption.
  repeat match goal with H : pack_f32 _ = Some _ |- _ => rewrite H; clear H end.
  cbn [concat]. rewrite !app_nil_r, <- !app_assoc. reflexivity.
Qed.

Lemma length_ctrl_record (w : CtrlShmWriter.t float) (fbs : list (list byte)) :
  (∀ x bs, pack_f32 x = Some bs → length bs = 4%nat) →
  packable pack_f32 w fbs →
  length (ctrl_record w fbs) = CtrlShmWriter.CTRL_STRUCT_size.
Proof.
  intros Hsize (_ & _ & _ & Hp & Hl & Hu & Hf).
  assert (Hall : Forall (fun bs => length bs = 4%nat) fbs).
  { clear -Hsize Hf. induction Hf; constructor; eauto. }
  assert (Hn : length fbs = 10%nat).
  { rewrite <- (Forall2_length _ _ _ Hf). unfold ctrl_floats.
    cbn [length]. rewrite !length_app, Hp, Hl, Hu. reflexivity. }
  assert (Hc : length (concat fbs) = (4 * length fbs)%nat).
  { clear -Hall. induction Hall as [|bs fbs Hbs _ IH]; [reflexivity|].
    cbn [concat length]. rewrite length_app, Hbs, IH. lia. }
  unfold ctrl_record. rewrite !length_app, !length_le_bytes, length_replicate, Hc, Hn.
  reflexivity.
Qed.

Lemma write_connected (w : CtrlShmWriter.t float) (σ : Sys) (o : nat) (buf : list byte)
    (fbs : list (list byte)) :
  let w' := CtrlShmWriter.set_seq (CtrlShmWriter.seq w + 1) w in
  (∀ x bs, pack_f32 x = Some bs → length bs = 4%nat) →
  CtrlShmWriter.shm w = Some o → shared σ !! o = Some buf →
  (CtrlShmWriter.CTRL_STRUCT_size <= length buf)%nat →
  packable pack_f32 w' fbs →
  CtrlShmWriter.write pack_f32 (w, σ)
  = (Ok tt,
     (w', set_shared <[o := ctrl_record w' fbs
                            ++ drop CtrlShmWriter.CTRL_STRUCT_size buf]> σ)).
Proof.
  intros w' Hsize Hshm Hbuf Hlen Hpack.
  pose proof (length_ctrl_record w' fbs Hsize Hpack) as Hrec.
  unfold CtrlShmWriter.write.
  cbv beta iota delta [bind self sys zoom get modify raise ret fst snd].
  fold w'. rewrite (pack_record w' fbs Hpack).
  change (CtrlShmWriter.shm w') with (CtrlShmWriter.shm w). rewrite Hshm.
  unfold shared_memory.assign_prefix.
  cbv beta iota delta [bind get modify raise ret fst snd].
  rewrite Hbuf. unfold mmap.clamp.
  replace (Z.of_nat CtrlShmWriter.CTRL_STRUCT_size <? 0) with false by reflexivity.
  rewrite Z.min_l by lia. rewrite Hrec, Z.eqb_refl. reflexivity.
Qed.
End CtrlWrite.

(** C9, as stated, fails.  Where the control segment does not exist
    [connect] raises and leaves the writer without a buffer (the viewport
    swallows that failure); a call of [write] on this writer counts the
    sequence up to 1, packs the record and then raises AttributeError at the
    assignment: no record is written anywhere. *)
Lemma write_unconnected_writes_nothing :
  let w := fst Scenarios.ctrl_unconnected in
  let σ := snd Scenarios.ctrl_unconnected in
  let out := CtrlShmWriter.write Fixtures.pack_bits (w, σ) in
  fst (CtrlShmWriter.connect Scenarios.ctrl_absent) = Raise FileNotFoundError
  ∧ CtrlShmWriter.shm w = None
  ∧ CtrlShmWriter.seq w = 0
  ∧ fst out = Raise AttributeError
  ∧ CtrlShmWriter.seq (fst (snd out)) = 1
  ∧ shared (snd (snd out)) = ∅.
Proof.
  intros w σ out. split; [vm_compute; reflexivity|].
  split; [vm_compute; reflexivity|]. split; [vm_compute; reflexivity|].
  split; [vm_compute; reflexivity|]. split; vm_compute; reflexivity.
Qed.

(** C9, amended.  Every call of [write], failing or not, leaves the sequence
    counter one higher and the other fields of the writer as they were, so
    a second call leaves the counter two higher.  On a connected writer
    whose buffer has at least 56 bytes and whose fields fit the layout the
    call writes, in one assignment of the first 56 bytes of the mapped
    buffer, the record made of the new sequence (8 bytes), the pause flag and
    three zero bytes, the ten floats (time scale, position, look, up) and the
    debug flags (4 bytes), and leaves the rest of the buffer as it was.  On a
    writer that is not connected the call raises and writes nothing. *)
Theorem ctrl_write_spec (float : Type) (pack_f32 : float → option (list byte))
    (w : CtrlShmWriter.t float) (σ : Sys) :
  let out := CtrlShmWriter.write pack_f32 (w, σ) in
  let w' := fst (snd out) in
  (∀ x bs, pack_f32 x = Some bs → length bs = 4%nat) →
  (CtrlShmWriter.seq w' = CtrlShmWriter.seq w + 1
   ∧ CtrlShmWriter.name w' = CtrlShmWriter.name w
   ∧ CtrlShmWriter.shm w' = CtrlShmWriter.shm w
   ∧ CtrlShmWriter.pause w' = CtrlShmWriter.pause w
   ∧ ctrl_floats w' = ctrl_floats w
   ∧ CtrlShmWriter.debug_flags w' = CtrlShmWriter.debug_flags w
   ∧ CtrlShmWriter.seq (fst (snd (CtrlShmWriter.write pack_f32 (snd out))))
     = CtrlShmWriter.seq w + 2)
  ∧ (∀ o buf fbs,
       CtrlShmWriter.shm w = Some o → shared σ !! o = Some buf →
       (56 <= length buf)%nat → packable pack_f32 w' fbs →
       length (ctrl_record w' fbs) = 56%nat
       ∧ take 8 (ctrl_record w' fbs) = struct.le_bytes 8 (CtrlShmWriter.seq w + 1)
       ∧ out = (Ok tt, (w', set_shared <[o := ctrl_record w' fbs ++ drop 56 buf]> σ)))
  ∧ (CtrlShmWriter.shm w = None → (∃ e, fst out = Raise e) ∧ snd (snd out) = σ).
Proof.
  intros out w' Hsize.
  assert (Hw : w' = CtrlShmWriter.set_seq (CtrlShmWriter.seq w + 1) w).
  { subst w' out. unfold CtrlShmWriter.write.
    cbv beta iota delta [bind self sys zoom get modify raise ret fst snd].
    destruct (CtrlShmWriter.pack _ _ _) as [bs|e]; [|reflexivity].
    cbn [CtrlShmWriter.shm CtrlShmWriter.set_seq].
    destruct (CtrlShmWriter.shm w) as [o|]; [|reflexivity].
    destruct (shared_memory.assign_prefix _ _ _ _) as [[[]|e] σ']; reflexivity. }
  split; [|split].
  - rewrite Hw. cbn [CtrlShmWriter.seq CtrlShmWriter.name CtrlShmWriter.shm
                       CtrlShmWriter.pause CtrlShmWriter.debug_flags CtrlShmWriter.set_seq].
    do 6 (split; [reflexivity|]).
    subst out. destruct (CtrlShmWriter.write pack_f32 (w, σ)) as [res [w1 σ1]] eqn:Hrun.
    cbn [snd]. rewrite write_increments.
    pose proof (write_increments pack_f32 w σ) as H1. rewrite Hrun in H1. cbn [fst snd] in *.
    lia.
  - intros o buf fbs Hshm Hbuf Hlen Hpack. rewrite Hw in Hpack |- *.
    split; [exact (length_ctrl_record pack_f32 _ fbs Hsize Hpack)|].
    split; [unfold ctrl_record; apply take_app_length'; symmetry; apply length_le_bytes|].
    exact (write_connected pack_f32 w σ o buf fbs Hsize Hshm Hbuf Hlen Hpack).
  - intros Hnone. subst w' out. unfold CtrlShmWriter.write.
    cbv beta iota delta [bind self sys zoom get modify raise ret fst snd].
    destruct (CtrlShmWriter.pack _ _ _) as [bs|e]; [|eauto].
    cbn [CtrlShmWriter.shm CtrlShmWriter.set_seq]. rewrite Hnone. eauto.
Qed.

Lemma ctrl_write_witness :
  let w := fst Fixtures.ctrl_ready in
  let σ := snd Fixtures.ctrl_ready in
  let out := CtrlShmWriter.write Fixtures.pack_bits (w, σ) in
  let w' := fst (snd out) in
  let fbs := map Fixtures.u32 [0x3F800000; 0; 0; 0; 0; 0; 0xBF800000; 0; 0x3F800000; 0] in
  (∀ x bs, Fixtures.pack_bits x = Some bs → length bs = 4%nat)
  ∧ CtrlShmWriter.shm w = Some 0%nat
  ∧ shared σ !! 0%nat = Some (replicate 64 x00)
  ∧ packable Fixtures.pack_bits w' fbs
  ∧ fst out = Ok tt
  ∧ CtrlShmWriter.seq w = 0 ∧ CtrlShmWriter.seq w' = 1
  ∧ shared (snd (snd out)) !! 0%nat
    = Some (Fixtures.u64 1 ++ replicate 4 x00
              ++ concat fbs ++ Fixtures.u32 0 ++ replicate 8 x00).
Proof.
  intros w σ out w' fbs.
  assert (Hsize : ∀ x bs, Fixtures.pack_bits x = Some bs → length bs = 4%nat).
  { intros x bs. unfold Fixtures.pack_bits.
    destruct ((0 <=? x) && (x <? 2 ^ 32)); [|discriminate].
    intros Hx. inversion Hx. reflexivity. }
  assert (Hshm : CtrlShmWriter.shm w = Some 0%nat) by (vm_compute; reflexivity).
  assert (Hbuf : shared σ !! 0%nat = Some (replicate 64 x00)) by (vm_compute; reflexivity).
  assert (Hpack : packable Fixtures.pack_bits w' fbs).
  { split; [split; [vm_compute; discriminate | vm_compute; reflexivity]|].
    split; [split; [vm_compute; discriminate | vm_compute; reflexivity]|].
    split; [split; [vm_compute; discriminate | vm_compute; reflexivity]|].
    split; [vm_compute; reflexivity|]. split; [vm_compute; reflexivity|].
    split; [vm_compute; reflexivity|].
    assert (Hfl : ctrl_floats w'
                  = [0x3F800000; 0; 0; 0; 0; 0; 0xBF800000; 0; 0x3F800000; 0])
      by (vm_compute; reflexivity).
    rewrite Hfl. unfold fbs. cbn [map].
    repeat (constructor; [vm_compute; reflexivity|]). constructor. }
  assert (Hlen : (56 <= length (replicate 64 x00))%nat) by (vm_compute; lia).
  destruct (ctrl_write_spec Fixtures.f32 Fixtures.pack_bits w σ Hsize) as ((Hseq & _) & Hwrite & _).
  destruct (Hwrite 0%nat (replicate 64 x00) fbs Hshm Hbuf Hlen Hpack) as (_ & _ & Hrun).
  split; [exact Hsize|]. split; [exact Hshm|]. split; [exact Hbuf|].
  split; [exact Hpack|].
  fold out w' in Hrun, Hseq.
  split; [rewrite Hrun; reflexivity|].
  split; [vm_compute; reflexivity|].
  split; [rewrite Hseq; vm_compute; reflexivity|].
  rewrite Hrun. cbn [fst snd shared set_shared]. rewrite lookup_insert_eq.
  vm_compute. reflexivity.
Defined.

(** ** RegistryReader.list_cameras *)

Lemma le_uint_nonneg bs : 0 <= struct.le_uint bs.
Proof.
  induction bs as [|b bs IH]; cbn [struct.le_uint]; [lia|].
  pose proof (N2Z.is_nonneg (Byte.to_N b)). lia.
Qed.

(** [split_nul] keeps the bytes in front of the first NUL. *)
Lemma split_nul_spec (bs : list byte) :
  ∃ rest, bs = RegistryReader.split_nul bs ++ rest
          ∧ (x00 ∉ RegistryReader.split_nul bs)
          ∧ (rest = [] ∨ ∃ rest', rest = x00 :: rest').
Proof.
  induction bs as [|b bs (rest & Heq & Hnot & Hrest)]; cbn [RegistryReader.split_nul].
  - exists []. split; [reflexivity|]. split; [apply not_elem_of_nil | left; reflexivity].
  - destruct (Byte.eqb b x00) eqn:Hb.
    + apply Byte.byte_dec_bl in Hb. subst b. exists (x00 :: bs).
      split; [reflexivity|]. split; [apply not_elem_of_nil | right; eauto].
    + apply Byte.eqb_false in Hb. exists rest. split; [cbn; congruence|].
      split; [|exact Hrest]. rewrite not_elem_of_cons. split; [congruence | exact Hnot].
Qed.

Lemma cams_loop_run (decode : list byte → string) r σ m o n off acc :
  mapped σ m o → 0 <= off → off + 48 * Z.of_nat n <= shm_size (mo_shm o) →
  RegistryReader.cams_loop decode n m off acc (r, σ)
  = (Ok (acc ++ map (fun k => RegistryReader.unpack_cam decode
                        (mmap.bytes_at (mo_shm o) (now σ + k)
                           (off + 48 * Z.of_nat k) REG_CAM_size))
                  (seq 0 n)),
     (r, at_instant (now σ + n) σ)).
Proof.
  revert σ off acc. induction n as [|n IH]; intros σ off acc Hm H0 Hfit.
  - cbn. rewrite app_nil_r, Nat.add_0_r, at_instant_now. reflexivity.
  - cbn [RegistryReader.cams_loop].
    cbv beta iota delta [bind sys zoom fst snd].
    rewrite (load_ok _ _ _ _ _ Hm H0) by (unfold REG_CAM_size; lia).
    rewrite IH by (try apply mapped_set_now; unfold REG_CAM_size; first [assumption | lia]).
    cbn [now set_now]. f_equal.
    + f_equal. rewrite <- app_assoc. f_equal. cbn [seq map app].
      rewrite Nat.add_0_r, Z.mul_0_r, Z.add_0_r. f_equal.
      rewrite (map_seq_shift _ 1 n). apply map_ext. intros k.
      f_equal. f_equal; [lia | unfold REG_CAM_size; lia].
    + f_equal. unfold at_instant, set_now. cbn. f_equal. lia.
Qed.

Lemma field_bytes_from shm t a (off w n : nat) :
  (off + w <= n)%nat →
  struct.field (mmap.bytes_at shm t a n) off w = uint_at shm t (a + Z.of_nat off) w.
Proof.
  intros Hle. unfold struct.field, uint_at, mmap.bytes_at. f_equal.
  rewrite skipn_map, firstn_map, drop_seq, take_seq.
  rewrite Nat.min_l by lia. cbn [Nat.add].
  rewrite map_seq_shift. apply map_ext. intros i. f_equal. lia.
Qed.

Lemma take_bytes_at shm t a (k n : nat) :
  (k <= n)%nat → take k (mmap.bytes_at shm t a n) = mmap.bytes_at shm t a k.
Proof.
  intros Hle. unfold mmap.bytes_at. rewrite firstn_map, take_seq.
  rewrite Nat.min_l by lia. reflexivity.
Qed.

Lemma cut_at_nul_split (bs : list byte) : cut_at_nul bs (RegistryReader.split_nul bs).
Proof.
  destruct (split_nul_spec bs) as (rest & Heq & Hnot & Hrest).
  split; [exact Hnot|].
  destruct Hrest as [->|[rest' ->]].
  - left. rewrite app_nil_r in Heq. exact Heq.
  - right. exists rest'. exact Heq.
Qed.

(** What [unpack_cam] makes of the 48 bytes of record [k]. *)
Lemma unpack_cam_at (decode : list byte → string) (shm : Shm) (t k : nat) :
  camera_at decode shm t k
    (RegistryReader.unpack_cam decode
       (mmap.bytes_at shm t (12 + 48 * Z.of_nat k) REG_CAM_size)).
Proof.
  unfold camera_at, RegistryReader.unpack_cam, REG_CAM_size.
  cbn [cam_name cam_index cam_count cam_width cam_height].
  rewrite !field_bytes_from by lia. rewrite take_bytes_at by lia.
  split; [|repeat split].
  exists (RegistryReader.split_nul (mmap.bytes_at shm t (12 + 48 * Z.of_nat k) 32)).
  split; [apply cut_at_nul_split | reflexivity].
Qed.

Lemma lookup_map_seq {A} (f : nat → A) (n k : nat) (c : A) :
  map f (seq 0 n) !! k = Some c → c = f k ∧ (k < n)%nat.
Proof.
  change (map f (seq 0 n)) with (f <$> seq 0 n). rewrite list_lookup_fmap.
  destruct (seq 0 n !! k) as [j|] eqn:Hj; [|discriminate].
  apply lookup_seq in Hj. destruct Hj as [-> Hlt]. cbn. intros [= <-]. auto.
Qed.

(** C6, as stated, fails.  On a registry segment of 8 zero bytes, which
    [connect] maps (the size of the region is checked nowhere), the magic
    does not match and [list_cameras] raises struct.error at the header
    instead of returning the empty list; and on a registry that announces
    three cameras and holds the records of two it raises at the third record
    instead of returning three descriptors. *)
Lemma list_cameras_raises_on_short_region :
  (fst (RegistryReader.connect
          (RegistryReader.__init__ "/uc3d_reg", Fixtures.sys0 Scenarios.blank_registry_files))
   = Ok tt
   ∧ (∀ t, uint_at Scenarios.blank_registry t 0 4 ≠ REG_MAGIC)
   ∧ fst (RegistryReader.list_cameras Fixtures.decode_ascii Scenarios.registry_blank)
     = Raise StructError)
  ∧ ((∀ t, uint_at Scenarios.cut_registry t 0 4 = REG_MAGIC
           ∧ uint_at Scenarios.cut_registry t 8 4 = 3)
     ∧ fst (RegistryReader.list_cameras Fixtures.decode_ascii Scenarios.registry_cut)
       = Raise StructError).
Proof.
  split.
  - split; [vm_compute; reflexivity|].
    split; [intros t H; vm_compute in H; discriminate | vm_compute; reflexivity].
  - split; [intros t; split; vm_compute; reflexivity | vm_compute; reflexivity].
Qed.

(** C6, amended.  [list_cameras] on a reader that is not connected returns
    the empty list.  On a mapped registry region that holds the 12 bytes of
    the header it returns the empty list when the magic is not the registry
    magic, and otherwise, the region holding the [camera_count] records the
    header announces, exactly [camera_count] descriptors in the order of the
    region: descriptor [k] has the name of record [k] cut at its first NUL
    byte and its index, point count, width and height.  None of these cases
    raises, the reader is left as it was, and [camera_count = 0] gives the
    empty list. *)
Theorem list_cameras_spec (decode : list byte → string) (r : RegistryReader.t) (σ : Sys) :
  (RegistryReader.mm r = None →
   RegistryReader.list_cameras decode (r, σ) = (Ok [], (r, σ)))
  ∧ (∀ m o,
       RegistryReader.mm r = Some m → mapped σ m o → 12 <= shm_size (mo_shm o) →
       let shm := mo_shm o in
       let magic := uint_at shm (now σ) 0 4 in
       let count := uint_at shm (now σ) 8 4 in
       (magic ≠ REG_MAGIC →
        RegistryReader.list_cameras decode (r, σ) = (Ok [], (r, set_now S σ)))
       ∧ (magic = REG_MAGIC → 12 + 48 * count <= shm_size shm →
          ∃ cams,
            RegistryReader.list_cameras decode (r, σ)
            = (Ok cams, (r, at_instant (S (now σ) + Z.to_nat count) σ))
            ∧ Z.of_nat (length cams) = count
            ∧ (∀ k c, cams !! k = Some c → camera_at decode shm (S (now σ) + k) k c)
            ∧ (count = 0 → cams = []))).
Proof.
  split.
  - intros Hmm. unfold RegistryReader.list_cameras.
    cbv beta iota delta [bind self zoom get fst snd]. rewrite Hmm. reflexivity.
  - intros m o Hmm Hmap H12 shm magic count.
    assert (Hrun : RegistryReader.list_cameras decode (r, σ)
      = if magic =? REG_MAGIC
        then RegistryReader.cams_loop decode (Z.to_nat count) m 12 [] (r, set_now S σ)
        else (Ok [], (r, set_now S σ))).
    { unfold RegistryReader.list_cameras, mmap.len.
      cbv beta iota delta [bind self sys zoom get ret fst snd]. rewrite Hmm.
      rewrite (lookup_mapped _ _ _ Hmap).
      replace (shm_size (mo_shm o) =? 0) with false by (symmetry; apply Z.eqb_neq; lia).
      rewrite (load_ok _ _ _ _ _ Hmap) by (unfold REG_HDR_size; lia).
      rewrite !(field_bytes_at (mo_shm o) (now σ)) by (unfold REG_HDR_size; lia).
      change (Z.of_nat 0) with 0. change (Z.of_nat 8) with 8.
      fold shm magic count. destruct (magic =? REG_MAGIC); reflexivity. }
    split.
    + intros Hne. rewrite Hrun.
      replace (magic =? REG_MAGIC) with false by (symmetry; apply Z.eqb_neq; exact Hne).
      reflexivity.
    + intros He Hfit. rewrite Hrun, He, Z.eqb_refl.
      assert (H0 : 0 <= count) by apply le_uint_nonneg.
      rewrite (cams_loop_run decode r _ m o) by
        (try apply mapped_set_now; first [assumption | lia | fold shm; lia]).
      eexists. split; [reflexivity|]. cbn [app now set_now]. fold shm.
      split; [rewrite length_map, length_seq; lia|].
      split.
      * intros k c Hk. apply lookup_map_seq in Hk. destruct Hk as [-> _].
        apply unpack_cam_at.
      * intros Hz. rewrite Hz. reflexivity.
Qed.

Lemma list_cameras_witness :
  let r := fst Fixtures.registry_2 in
  let σ := snd Fixtures.registry_2 in
  let o := open_mmap Fixtures.registry_seg in
  (RegistryReader.mm r = Some 0%nat ∧ mapped σ 0 o ∧ 12 <= shm_size (mo_shm o)
   ∧ uint_at (mo_shm o) (now σ) 0 4 = REG_MAGIC
   ∧ 12 + 48 * uint_at (mo_shm o) (now σ) 8 4 <= shm_size (mo_shm o))
  ∧ fst (RegistryReader.list_cameras Fixtures.decode_ascii (r, σ))
    = Ok [ {| cam_name := "front"; cam_index := 0; cam_count := 100;
              cam_width := 192; cam_height := 96 |};
           {| cam_name := "rear"; cam_index := 1; cam_count := 100;
              cam_width := 192; cam_height := 96 |} ]
  ∧ snd (RegistryReader.list_cameras Fixtures.decode_ascii (r, σ)) = (r, at_instant 3 σ).
Proof.
  intros r σ o.
  assert (Hmm : RegistryReader.mm r = Some 0%nat) by (vm_compute; reflexivity).
  assert (Hmap : mapped σ 0 o) by (split; vm_compute; reflexivity).
  assert (H12 : 12 <= shm_size (mo_shm o)) by (vm_compute; discriminate).
  assert (Hmagic : uint_at (mo_shm o) (now σ) 0 4 = REG_MAGIC) by (vm_compute; reflexivity).
  assert (Hfit : 12 + 48 * uint_at (mo_shm o) (now σ) 8 4 <= shm_size (mo_shm o))
    by (vm_compute; discriminate).
  split; [auto 10|].
  destruct (list_cameras_spec Fixtures.decode_ascii r σ) as (_ & Hlist).
  destruct (Hlist 0%nat o Hmm Hmap H12) as [_ Hok].
  destruct (Hok Hmagic Hfit) as (cams & Hres & Hlen & Hcams & _).
  rewrite Hres. cbn [fst snd].
  split; [|vm_compute; reflexivity].
  assert (Hs : fst (RegistryReader.list_cameras Fixtures.decode_ascii (r, σ))
               = Ok [ {| cam_name := "front"; cam_index := 0; cam_count := 100;
                         cam_width := 192; cam_height := 96 |};
                      {| cam_name := "rear"; cam_index := 1; cam_count := 100;
                         cam_width := 192; cam_height := 96 |} ])
    by (vm_compute; reflexivity).
  rewrite Hres in Hs. exact Hs.
Defined.

(** * Further properties of the transport *)

(** ** Segments that do not exist yet *)

(** X1. [connect] on a name whose segment the producer has not created
    raises FileNotFoundError and leaves the reader and the resources of the
    process as they were, for the frame, the geometry and the registry
    reader; nothing is left open, and the call can be repeated. *)
Theorem connect_missing_segment (fr : FrameShmReader.t) (gr : GeoShmReader.t)
    (rr : RegistryReader.t) (σ : Sys) :
  files σ !! FrameShmReader._path fr = None →
  files σ !! ("/dev/shm" +:+ GeoShmReader.name gr) = None →
  files σ !! ("/dev/shm" +:+ RegistryReader.name rr) = None →
  FrameShmReader.connect (fr, σ) = (Raise FileNotFoundError, (fr, σ))
  ∧ GeoShmReader.connect (gr, σ) = (Raise FileNotFoundError, (gr, σ))
  ∧ RegistryReader.connect (rr, σ) = (Raise FileNotFoundError, (rr, σ)).
Proof.
  intros Hf Hg Hr.
  unfold FrameShmReader.connect, GeoShmReader.connect, RegistryReader.connect.
  cbv beta iota delta [bind self sys zoom get modify fst snd].
  rewrite (os_open_missing _ _ Hf), (os_open_missing _ _ Hg), (os_open_missing _ _ Hr).
  auto.
Qed.

Lemma connect_missing_segment_witness :
  let σ := Fixtures.sys0 Fixtures.files_7_4 in
  let fr := FrameShmReader.__init__ "/uc3d_fb1" in
  let gr := GeoShmReader.__init__ "/uc3d_geom1" in
  let rr := RegistryReader.__init__ "/uc3d_reg" in
  (files σ !! FrameShmReader._path fr = None
   ∧ files σ !! ("/dev/shm" +:+ GeoShmReader.name gr) = None
   ∧ files σ !! ("/dev/shm" +:+ RegistryReader.name rr) = None)
  ∧ FrameShmReader.connect (fr, σ) = (Raise FileNotFoundError, (fr, σ))
  ∧ GeoShmReader.connect (gr, σ) = (Raise FileNotFoundError, (gr, σ))
  ∧ RegistryReader.connect (rr, σ) = (Raise FileNotFoundError, (rr, σ)).
Proof.
  intros σ fr gr rr.
  assert (H1 : files σ !! FrameShmReader._path fr = None) by (vm_compute; reflexivity).
  assert (H2 : files σ !! ("/dev/shm" +:+ GeoShmReader.name gr) = None)
    by (vm_compute; reflexivity).
  assert (H3 : files σ !! ("/dev/shm" +:+ RegistryReader.name rr) = None)
    by (vm_compute; reflexivity).
  split; [auto|]. exact (connect_missing_segment fr gr rr σ H1 H2 H3).
Defined.

(** ** Connect, then close *)

Lemma fresh_fd_unused (σ : Sys) : fds σ !! fresh (dom (fds σ)) = None.
Proof. apply not_elem_of_dom, is_fresh. Qed.

(** X2. A frame reader that connects to a segment with a whole header and
    the right magic and is closed while no view is borrowed: [close] returns
    normally, the reader has neither mapping nor descriptor, the descriptor
    table of the process is what it was before [connect], the mapping is
    closed, and a second [close] does nothing. *)
Theorem frame_connect_then_close (r : FrameShmReader.t) (σ : Sys) (shm : Shm) :
  files σ !! FrameShmReader._path r = Some shm →
  FrameShmReader.header_size r = 28 →
  28 <= shm_size shm → fb_magic shm (now σ) = MAGIC →
  let m := fresh (dom (mmaps σ)) in
  let out := FrameShmReader.close (snd (FrameShmReader.connect (r, σ))) in
  fst out = Ok tt
  ∧ FrameShmReader.mm (fst (snd out)) = None
  ∧ FrameShmReader.fd (fst (snd out)) = None
  ∧ fds (snd (snd out)) = fds σ
  ∧ mmaps (snd (snd out))
    = <[m := {| mo_shm := shm; mo_exports := 0; mo_closed := true |}]> (mmaps σ)
  ∧ FrameShmReader.close (snd out) = (Ok tt, snd out).
Proof.
  intros Hf Hh H28 Hm m out. subst out.
  rewrite (frame_connect_run r σ shm Hf Hh).
  replace (shm_size shm <=? 0) with false by (symmetry; apply Z.leb_gt; lia).
  replace (shm_size shm <? 28) with false by (symmetry; apply Z.ltb_ge; lia).
  rewrite Hm, Z.eqb_refl. cbn [snd].
  unfold FrameShmReader.close, mmap.close, os.close.
  cbv beta iota delta [try_finally bind self sys zoom get modify raise ret fst snd].
  cbn [FrameShmReader.mm FrameShmReader.fd frame_cached FrameShmReader.set_onebuf_size
         FrameShmReader.set_dims FrameShmReader.set_mm FrameShmReader.set_fd
         mmaps fds set_now opened set_mmaps set_fds].
  fold m. rewrite lookup_insert_eq. cbn [mo_closed mo_exports open_mmap Nat.ltb Nat.leb].
  unfold opened. cbn [fds mmaps set_now set_mmaps set_fds]. rewrite lookup_insert_eq.
  cbn [fst snd mmaps fds set_now set_mmaps set_fds
    FrameShmReader.mm FrameShmReader.fd FrameShmReader.set_mm FrameShmReader.set_fd].
  rewrite insert_insert_eq, (delete_insert_id _ _ _ (fresh_fd_unused σ)).
  repeat split; reflexivity.
Qed.

Lemma frame_connect_then_close_witness :
  let r := FrameShmReader.__init__ "/uc3d_fb0" in
  let σ := Fixtures.sys0 Fixtures.files_7_4 in
  let shm := Fixtures.frame_seg 1 0 7 in
  (files σ !! FrameShmReader._path r = Some shm
   ∧ FrameShmReader.header_size r = 28
   ∧ 28 <= shm_size shm ∧ fb_magic shm (now σ) = MAGIC)
  ∧ fst (FrameShmReader.close (snd (FrameShmReader.connect (r, σ)))) = Ok tt
  ∧ fds (snd (snd (FrameShmReader.close (snd (FrameShmReader.connect (r, σ)))))) = fds σ.
Proof.
  intros r σ shm.
  assert (H1 : files σ !! FrameShmReader._path r = Some shm) by (vm_compute; reflexivity).
  assert (H2 : FrameShmReader.header_size r = 28) by reflexivity.
  assert (H3 : 28 <= shm_size shm) by (vm_compute; discriminate).
  assert (H4 : fb_magic shm (now σ) = MAGIC) by (vm_compute; reflexivity).
  split; [auto|].
  destruct (frame_connect_then_close r σ shm H1 H2 H3 H4) as (Hok & _ & _ & Hfds & _).
  split; [exact Hok | exact Hfds].
Defined.

(** ** A valid header puts every buffer in bounds *)

Lemma le_uint_bound bs : 0 <= struct.le_uint bs < 2 ^ (8 * Z.of_nat (length bs)).
Proof.
  induction bs as [|b bs IH]; cbn [struct.le_uint length]; [cbn; lia|].
  pose proof (N2Z.is_nonneg (Byte.to_N b)) as H0.
  pose proof (Byte.to_N_bounded b) as Hb. apply N2Z.inj_le in Hb. change (Z.of_N 255) with 255 in Hb.
  replace (8 * Z.of_nat (S (length bs))) with (8 + 8 * Z.of_nat (length bs)) by lia.
  rewrite Z.pow_add_r by lia. change (2 ^ 8) with 256. lia.
Qed.

Lemma uint_at_bound shm t off w : 0 <= uint_at shm t off w < 2 ^ (8 * Z.of_nat w).
Proof.
  unfold uint_at. pose proof (le_uint_bound (mmap.bytes_at shm t off w)) as H.
  rewrite length_bytes_at in H. exact H.
Qed.

(** X3. On a segment whose header is valid (magic, version, format, and a
    region as large as the header implies) [connect] succeeds, the cached
    width, height, stride and buffer count are 32-bit unsigned values, and
    every buffer index below the buffer count addresses a buffer that lies
    whole inside the mapping, each buffer ending where the next begins: the
    reads may then be applied to any such active index. *)
Theorem connect_valid_header_in_bounds (r : FrameShmReader.t) (σ : Sys) (shm : Shm) :
  files σ !! FrameShmReader._path r = Some shm →
  FrameShmReader.header_size r = 28 →
  header_valid shm (now σ) →
  let out := FrameShmReader.connect (r, σ) in
  let r' := fst (snd out) in
  let σ' := snd (snd out) in
  let m := fresh (dom (mmaps σ)) in
  fst out = Ok tt
  ∧ frame_connected r' σ' m (open_mmap shm)
  ∧ (0 <= FrameShmReader.width r' < 2 ^ 32 ∧ 0 <= FrameShmReader.height r' < 2 ^ 32
     ∧ 0 <= FrameShmReader.stride r' < 2 ^ 32 ∧ 0 <= FrameShmReader.bufcnt r' < 2 ^ 32)
  ∧ (∀ idx, 0 <= idx < FrameShmReader.bufcnt r' →
       buffer_in_bounds r' shm idx
       ∧ FrameShmReader._buf_base r' idx + FrameShmReader.onebuf_size r'
         = FrameShmReader._buf_base r' (idx + 1)).
Proof.
  intros Hf Hh (Hmagic & _ & _ & Hsize) out r' σ' m. subst out r' σ'.
  rewrite (frame_connect_run r σ shm Hf Hh).
  pose proof (uint_at_bound shm (now σ) 8 4) as Hw.
  pose proof (uint_at_bound shm (now σ) 12 4) as Hhe.
  pose proof (uint_at_bound shm (now σ) 16 4) as Hs.
  pose proof (uint_at_bound shm (now σ) 20 4) as Hc.
  change (8 * Z.of_nat 4) with 32 in Hw, Hhe, Hs, Hc.
  fold (fb_width shm (now σ)) in Hw. fold (fb_height shm (now σ)) in Hhe.
  fold (fb_stride shm (now σ)) in Hs. fold (fb_bufcnt shm (now σ)) in Hc.
  set (hh := fb_height shm (now σ)) in *. set (ss := fb_stride shm (now σ)) in *.
  set (cc := fb_bufcnt shm (now σ)) in *. set (ww := fb_width shm (now σ)) in *.
  assert (Hpay : 0 <= hh * ss) by (apply Z.mul_nonneg_nonneg; lia).
  set (one := 8 + hh * ss) in *.
  assert (Hone : 0 <= one) by (unfold one; lia).
  assert (H28 : 28 <= shm_size shm).
  { pose proof (Z.mul_nonneg_nonneg cc one ltac:(lia) Hone). lia. }
  replace (shm_size shm <=? 0) with false by (symmetry; apply Z.leb_gt; lia).
  replace (shm_size shm <? 28) with false by (symmetry; apply Z.ltb_ge; lia).
  rewrite Hmagic, Z.eqb_refl. cbn [fst snd].
  split; [reflexivity|]. split.
  { split; [reflexivity|]. split; [|exact H28].
    apply mapped_set_now, mapped_opened. }
  unfold frame_cached.
  cbn [FrameShmReader.width FrameShmReader.height FrameShmReader.stride FrameShmReader.bufcnt
         FrameShmReader.onebuf_size FrameShmReader.header_size FrameShmReader.set_onebuf_size
         FrameShmReader.set_dims FrameShmReader.set_mm FrameShmReader.set_fd].
  fold hh ss cc ww one.
  split; [auto|].
  intros idx Hidx.
  unfold buffer_in_bounds, FrameShmReader._buf_base.
  cbn [FrameShmReader.width FrameShmReader.height FrameShmReader.stride FrameShmReader.bufcnt
         FrameShmReader.onebuf_size FrameShmReader.header_size FrameShmReader.set_onebuf_size
         FrameShmReader.set_dims FrameShmReader.set_mm FrameShmReader.set_fd].
  rewrite Hh. fold hh ss one.
  pose proof (Z.mul_nonneg_nonneg idx one ltac:(lia) Hone) as Hi.
  pose proof (Z.mul_le_mono_nonneg_r (idx + 1) cc one Hone ltac:(lia)) as Hle.
  split; [|lia]. split; [lia|]. split; [exact Hpay|]. unfold one in *. lia.
Qed.

Lemma connect_valid_header_in_bounds_witness :
  let r := FrameShmReader.__init__ "/uc3d_fb0" in
  let σ := Fixtures.sys0 Fixtures.files_7_4 in
  let shm := Fixtures.frame_seg 1 0 7 in
  (files σ !! FrameShmReader._path r = Some shm
   ∧ FrameShmReader.header_size r = 28
   ∧ header_valid shm (now σ))
  ∧ buffer_in_bounds (fst (snd (FrameShmReader.connect (r, σ)))) shm 1.
Proof.
  intros r σ shm.
  assert (H1 : files σ !! FrameShmReader._path r = Some shm) by (vm_compute; reflexivity).
  assert (H2 : FrameShmReader.header_size r = 28) by reflexivity.
  assert (H3 : header_valid shm (now σ)).
  { split; [vm_compute; reflexivity|]. split; [vm_compute; reflexivity|].
    split; [vm_compute; reflexivity|]. vm_compute; discriminate. }
  split; [auto|].
  destruct (connect_valid_header_in_bounds r σ shm H1 H2 H3) as (_ & _ & _ & Hall).
  apply Hall. split; [vm_compute; discriminate | vm_compute; reflexivity].
Defined.

(** ** What a read may change *)

Lemma sys_same_refl σ : sys_same σ σ.
Proof. repeat split. Qed.

Lemma sys_same_trans σ1 σ2 σ3 : sys_same σ1 σ2 → sys_same σ2 σ3 → sys_same σ1 σ3.
Proof. intros (A & B & C) (D & E & F). repeat split; congruence. Qed.

Lemma lookup_same m σ : sys_same σ (snd (mmap.lookup m σ)).
Proof.
  unfold mmap.lookup. munfold. destruct (mmaps σ !! m) as [o|]; [|apply sys_same_refl].
  destruct (mo_closed o); apply sys_same_refl.
Qed.

Lemma lookup_state m σ : snd (mmap.lookup m σ) = σ.
Proof.
  unfold mmap.lookup. munfold. destruct (mmaps σ !! m) as [o|]; [|reflexivity].
  destruct (mo_closed o); reflexivity.
Qed.

Lemma load_same m off n σ : sys_same σ (snd (struct.load m off n σ)).
Proof.
  unfold struct.load. unfold bind at 1.
  pose proof (lookup_state m σ) as Hl.
  destruct (mmap.lookup m σ) as [[o|e] σ1]; cbn [snd] in Hl; subst σ1; [|apply sys_same_refl].
  destruct ((off <? 0) || (shm_size (mo_shm o) <? off + Z.of_nat n)); munfold;
    repeat split.
Qed.

Lemma unpack_u64_same m off σ : sys_same σ (snd (struct.unpack_u64 m off σ)).
Proof.
  unfold struct.unpack_u64, bind. pose proof (load_same m off 8 σ) as H.
  destruct (struct.load m off 8 σ) as [[bs|e] σ1]; exact H.
Qed.

Lemma unpack_u32_same m off σ : sys_same σ (snd (struct.unpack_u32 m off σ)).
Proof.
  unfold struct.unpack_u32, bind. pose proof (load_same m off 4 σ) as H.
  destruct (struct.load m off 4 σ) as [[bs|e] σ1]; exact H.
Qed.

Lemma view_same m a b σ : sys_same σ (snd (mmap.view m a b σ)).
Proof.
  unfold mmap.view. unfold bind at 1.
  pose proof (lookup_state m σ) as Hl.
  destruct (mmap.lookup m σ) as [[o|e] σ1]; cbn [snd] in Hl; subst σ1; [|apply sys_same_refl].
  munfold. repeat split.
Qed.

Lemma frame_fast_effect r σ :
  let out := FrameShmReader.latest_frame_view_fast (r, σ) in
  frame_read_effect r (fst (snd out)) (fst out) ∧ sys_same σ (snd (snd out)).
Proof.
  unfold FrameShmReader.latest_frame_view_fast.
  cbv beta iota delta [bind self sys zoom get fst snd].
  destruct (FrameShmReader.mm r) as [m|];
    [|cbn; auto using sys_same_refl].
  pose proof (unpack_u32_same m 24 σ) as H1.
  destruct (struct.unpack_u32 m 24 σ) as [[a|e] σ1]; cbn [fst snd] in *;
    [|split; [reflexivity | assumption]].
  set (base := FrameShmReader.header_size r + a * FrameShmReader.onebuf_size r).
  pose proof (unpack_u64_same m base σ1) as H2.
  destruct (struct.unpack_u64 m base σ1) as [[s|e] σ2]; cbn [fst snd] in *;
    [|split; [reflexivity | eauto using sys_same_trans]].
  rewrite land_1_even. destruct (Z.even s) eqn:Hev.
  { cbn. eauto using sys_same_trans. }
  pose proof (view_same m (base + 8)
                (base + 8 + FrameShmReader.height r * FrameShmReader.stride r) σ2) as H3.
  destruct (mmap.view m _ _ σ2) as [[v|e] σ3]; cbn [fst snd] in *.
  - cbv beta iota delta [modify ret fst snd]. cbn [frame_read_effect fst snd].
    split; [|eauto using sys_same_trans]. split; [apply frame_stores_set|].
    rewrite <- Z.negb_even, Hev. reflexivity.
  - split; [reflexivity | eauto using sys_same_trans].
Qed.

Lemma frame_read_seq_effect base r σ :
  fst (snd (FrameShmReader.read_seq base (r, σ))) = r
  ∧ sys_same σ (snd (snd (FrameShmReader.read_seq base (r, σ)))).
Proof.
  unfold FrameShmReader.read_seq, FrameShmReader.the_mm.
  cbv beta iota delta [bind self sys zoom get raise ret fst snd].
  destruct (FrameShmReader.mm r) as [m|]; cbn [fst snd]; [|auto using sys_same_refl].
  pose proof (unpack_u64_same m base σ) as H.
  destruct (struct.unpack_u64 m base σ) as [[s|e] σ1]; cbn [fst snd] in *; auto.
Qed.

(** The loop of [latest_frame_view]: the reader is touched only on the
    return of a view, whose sequence is odd. *)
Lemma frame_spin_effect base sleep_ns n spins r σ res r' σ' :
  FrameShmReader.spin n base sleep_ns spins (r, σ) = (res, (r', σ')) →
  match res with
  | Ok (Some (_, s), _) => r' = FrameShmReader.set_last_seq s r ∧ Z.odd s = true
  | _ => r' = r
  end ∧ sys_same σ σ'.
Proof.
  revert spins σ. induction n as [|n IH]; intros spins σ H.
  { cbn in H. injection H as <- <- <-. auto using sys_same_refl. }
  cbn [FrameShmReader.spin] in H. unfold bind at 1 in H.
  destruct (frame_read_seq_effect base r σ) as [Hr Hs].
  destruct (FrameShmReader.read_seq base (r, σ)) as [[s1|e] [r1 σ1]];
    cbn [fst snd] in Hr, Hs; subst r1; [|injection H as <- <- <-; auto].
  rewrite land_1_odd in H.
  assert (Hnext : ∀ σ2,
    sys_same σ σ2 →
    (when (truthy sleep_ns) time_sleep ;;
     FrameShmReader.spin n base sleep_ns (spins + 1)) (r, σ2) = (res, (r', σ')) →
    match res with
    | Ok (Some (_, s), _) => r' = FrameShmReader.set_last_seq s r ∧ Z.odd s = true
    | _ => r' = r
    end ∧ sys_same σ σ').
  { intros σ2 Hσ2 H2. destruct (truthy sleep_ns);
      cbv beta iota delta [bind when time_sleep raise ret fst snd] in H2.
    - injection H2 as <- <- <-. auto.
    - destruct (IH _ _ H2) as [IH1 IH2]. eauto using sys_same_trans. }
  destruct (Z.odd s1) eqn:Hodd.
  - destruct (truthy sleep_ns) eqn:Hsl.
    + cbv beta iota delta [bind when time_sleep raise ret fst snd] in H.
      injection H as <- <- <-. auto.
    + cbv beta iota delta [when] in H.
      unfold bind at 1 in H. unfold bind at 1 in H. unfold ret at 1 in H.
      unfold bind at 1 in H.
      destruct (frame_read_seq_effect base r σ1) as [Hr2 Hs2].
      destruct (FrameShmReader.read_seq base (r, σ1)) as [[s2|e] [r2 σ2]];
        cbn [fst snd] in Hr2, Hs2; subst r2;
        [|injection H as <- <- <-; eauto using sys_same_trans].
      destruct (Z.eqb_spec s1 s2) as [He|He].
      * unfold FrameShmReader.the_mm in H.
        cbv beta iota delta [bind self sys zoom get raise ret modify fst snd] in H.
        destruct (FrameShmReader.mm r) as [m|];
          [|injection H as <- <- <-; eauto using sys_same_trans].
        pose proof (view_same m (base + 8)
                      (base + 8 + FrameShmReader.height r * FrameShmReader.stride r) σ2) as H3.
        destruct (mmap.view m _ _ σ2) as [[v|e] σ3]; cbn [fst snd] in *;
          injection H as <- <- <-; eauto 6 using sys_same_trans.
      * unfold ret at 1 in H.
        exact (Hnext σ2 (sys_same_trans _ _ _ Hs Hs2) H).
  - unfold ret at 1 in H. exact (Hnext σ1 Hs H).
Qed.

(** X4. A frame read, spinning or fast, leaves the files, the descriptors
    and the shared segments as they are, and changes the reader in one way
    only: when it returns a view, [_last_seq] of the reader is the returned
    sequence, which is odd, and every other field is what it was.  When it
    returns no view the reader is unchanged and the sequence returned is the
    stored [_last_seq]; when it raises the reader is unchanged. *)
Theorem frame_reads_keep_reader max_spins sleep_ns r σ :
  (let out := FrameShmReader.latest_frame_view max_spins sleep_ns (r, σ) in
   frame_read_effect r (fst (snd out)) (fst out) ∧ sys_same σ (snd (snd out)))
  ∧ (let out := FrameShmReader.latest_frame_view_fast (r, σ) in
     frame_read_effect r (fst (snd out)) (fst out) ∧ sys_same σ (snd (snd out))).
Proof.
  split; [|apply frame_fast_effect].
  unfold FrameShmReader.latest_frame_view, FrameShmReader.latest_frame_view_spins.
  cbv beta iota delta [bind self sys zoom get fst snd].
  destruct (FrameShmReader.mm r) as [m|]; [|cbn; auto using sys_same_refl].
  pose proof (unpack_u32_same m 24 σ) as H1.
  destruct (struct.unpack_u32 m 24 σ) as [[a|e] σ1]; cbn [fst snd] in *;
    [|split; [reflexivity | assumption]].
  destruct (FrameShmReader.spin (Z.to_nat max_spins) (FrameShmReader._buf_base r a)
              sleep_ns 0 (r, σ1)) as [res [r' σ']] eqn:Hspin.
  destruct (frame_spin_effect _ _ _ _ _ _ _ _ _ Hspin) as [Hres Hσ].
  destruct res as [[[[v s]|] k]|e]; cbv beta iota delta [ret fst snd];
    cbn [frame_read_effect fst snd].
  - destruct Hres as [-> Hodd]. eauto using sys_same_trans, frame_stores_set.
  - subst r'. eauto using sys_same_trans.
  - subst r'. eauto using sys_same_trans.
Qed.

Lemma cached_meta_of r : cached_meta r (GeoShmReader.meta_of r).
Proof. repeat split. Qed.

Lemma geo_seq_effect r σ :
  fst (snd (GeoShmReader._seq (r, σ))) = r
  ∧ sys_same σ (snd (snd (GeoShmReader._seq (r, σ)))).
Proof.
  unfold GeoShmReader._seq, GeoShmReader.the_mm.
  cbv beta iota delta [bind self sys zoom get raise ret fst snd].
  destruct (GeoShmReader.mm r) as [m|]; cbn [fst snd]; [|auto using sys_same_refl].
  pose proof (unpack_u64_same m 16 σ) as H.
  destruct (struct.unpack_u64 m 16 σ) as [[s|e] σ1]; cbn [fst snd] in *; auto.
Qed.

Lemma geo_spin_effect sleep_ns n spins r σ res r' σ' :
  GeoShmReader.spin n sleep_ns spins (r, σ) = (res, (r', σ')) →
  match res with
  | Ok (Some (_, meta, s), _) =>
      r' = GeoShmReader.set_last_seq s r ∧ Z.odd s = true ∧ meta = GeoShmReader.meta_of r
  | _ => r' = r
  end ∧ sys_same σ σ'.
Proof.
  revert spins σ. induction n as [|n IH]; intros spins σ H.
  { cbn in H. injection H as <- <- <-. auto using sys_same_refl. }
  cbn [GeoShmReader.spin] in H. unfold bind at 1 in H.
  destruct (geo_seq_effect r σ) as [Hr Hs].
  destruct (GeoShmReader._seq (r, σ)) as [[s1|e] [r1 σ1]];
    cbn [fst snd] in Hr, Hs; subst r1; [|injection H as <- <- <-; auto].
  rewrite land_1_odd in H.
  assert (Hnext : ∀ σ2,
    sys_same σ σ2 →
    (when (truthy sleep_ns) time_sleep ;;
     GeoShmReader.spin n sleep_ns (spins + 1)) (r, σ2) = (res, (r', σ')) →
    match res with
    | Ok (Some (_, meta, s), _) =>
        r' = GeoShmReader.set_last_seq s r ∧ Z.odd s = true ∧ meta = GeoShmReader.meta_of r
    | _ => r' = r
    end ∧ sys_same σ σ').
  { intros σ2 Hσ2 H2. destruct (truthy sleep_ns);
      cbv beta iota delta [bind when time_sleep raise ret fst snd] in H2.
    - injection H2 as <- <- <-. auto.
    - destruct (IH _ _ H2) as [IH1 IH2]. eauto using sys_same_trans. }
  destruct (Z.odd s1) eqn:Hodd.
  - destruct (truthy sleep_ns) eqn:Hsl.
    + cbv beta iota delta [bind when time_sleep raise ret fst snd] in H.
      injection H as <- <- <-. auto.
    + cbv beta iota delta [when] in H.
      unfold bind at 1 in H. unfold bind at 1 in H. unfold ret at 1 in H.
      unfold bind at 1 in H.
      destruct (geo_seq_effect r σ1) as [Hr2 Hs2].
      destruct (GeoShmReader._seq (r, σ1)) as [[s2|e] [r2 σ2]];
        cbn [fst snd] in Hr2, Hs2; subst r2;
        [|injection H as <- <- <-; eauto using sys_same_trans].
      destruct (Z.eqb_spec s1 s2) as [He|He].
      * unfold GeoShmReader.the_mm in H.
        cbv beta iota delta [bind self sys zoom get raise ret modify fst snd] in H.
        destruct (GeoShmReader.mm r) as [m|];
          [|injection H as <- <- <-; eauto using sys_same_trans].
        pose proof (view_same m (GeoShmReader._hdr_size r)
                      (GeoShmReader._hdr_size r + GeoShmReader.count r * 8) σ2) as H3.
        destruct (mmap.view m _ _ σ2) as [[v|e] σ3]; cbn [fst snd] in *;
          injection H as <- <- <-; eauto 7 using sys_same_trans.
      * unfold ret at 1 in H.
        exact (Hnext σ2 (sys_same_trans _ _ _ Hs Hs2) H).
  - unfold ret at 1 in H. exact (Hnext σ1 Hs H).
Qed.

(** X5. A geometry read, spinning or fast, leaves the files, the
    descriptors and the shared segments as they are.  When it returns
    points, [_last_seq] of the reader is the returned sequence, which is odd,
    every other field of the reader is what it was, and the metadata are the
    [count], [width] and [height] the reader holds; otherwise the reader is
    unchanged, no metadata are returned and the sequence returned is the
    stored [_last_seq]. *)
Theorem geo_reads_keep_reader max_spins sleep_ns r σ :
  (let out := GeoShmReader.latest max_spins sleep_ns (r, σ) in
   geo_read_effect r (fst (snd out)) (fst out) ∧ sys_same σ (snd (snd out)))
  ∧ (let out := GeoShmReader.latest_fast (r, σ) in
     geo_read_effect r (fst (snd out)) (fst out) ∧ sys_same σ (snd (snd out))).
Proof.
  split.
  - unfold GeoShmReader.latest, GeoShmReader.latest_spins.
    cbv beta iota delta [bind self sys zoom get fst snd].
    destruct (GeoShmReader.mm r) as [m|]; [|cbn; auto using sys_same_refl].
    destruct (GeoShmReader.spin (Z.to_nat max_spins) sleep_ns 0 (r, σ))
      as [res [r' σ']] eqn:Hspin.
    destruct (geo_spin_effect _ _ _ _ _ _ _ _ Hspin) as [Hres Hσ].
    destruct res as [[[[[v meta] s]|] k]|e]; cbv beta iota delta [ret fst snd];
      cbn [geo_read_effect fst snd].
    + destruct Hres as (-> & Hodd & ->).
      split; [|exact Hσ]. split; [apply geo_stores_set|]. split; [exact Hodd|].
      eexists. split; [reflexivity | apply cached_meta_of].
    + subst r'. auto.
    + subst r'. auto.
  - unfold GeoShmReader.latest_fast.
    cbv beta iota delta [bind self sys zoom get fst snd].
    destruct (GeoShmReader.mm r) as [m|]; [|cbn; auto using sys_same_refl].
    pose proof (unpack_u64_same m 16 σ) as H2.
    destruct (struct.unpack_u64 m 16 σ) as [[s|e] σ2]; cbn [fst snd] in *;
      [|split; [reflexivity | assumption]].
    rewrite land_1_even. destruct (Z.even s) eqn:Hev.
    { cbn. auto. }
    pose proof (view_same m (GeoShmReader._hdr_size r)
                  (GeoShmReader._hdr_size r + GeoShmReader.count r * 8) σ2) as H3.
    destruct (mmap.view m _ _ σ2) as [[v|e] σ3]; cbn [fst snd] in *.
    + cbv beta iota delta [modify ret fst snd]. cbn [geo_read_effect fst snd].
      split; [|eauto using sys_same_trans]. split; [apply geo_stores_set|].
      split; [rewrite <- Z.negb_even, Hev; reflexivity|].
      eexists. split; [reflexivity | apply cached_meta_of].
    + split; [reflexivity | eauto using sys_same_trans].
Qed.

(** ** The seqlock of the geometry reader *)

Lemma latest_spins_scan r σ m o max_spins sleep_ns :
  let seq_at := fun t => uint_at (mo_shm o) t 16 8 in
  geo_connected r σ m o → points_in_bounds r (mo_shm o) → truthy sleep_ns = false →
  GeoShmReader.latest_spins max_spins sleep_ns (r, σ)
  = match scan seq_at (Z.to_nat max_spins) (now σ) 0 with
    | (Some t, t', k) =>
        (Ok ((Some (points_view r m), Some (GeoShmReader.meta_of r), seq_at t), k),
         (GeoShmReader.set_last_seq (seq_at t) r, exported m o (at_instant t' σ)))
    | (None, t', k) =>
        (Ok ((None, None, GeoShmReader._last_seq r), k), (r, at_instant t' σ))
    end.
Proof.
  intros seq_at (Hmm & Hmap & H24) Hb Hsl. unfold GeoShmReader.latest_spins.
  cbv beta iota delta [bind self zoom get fst snd]. rewrite Hmm.
  rewrite (geo_spin_scan r σ m o sleep_ns) by assumption. fold seq_at.
  destruct (scan seq_at (Z.to_nat max_spins) (now σ) 0) as [[[t|] t'] k]; reflexivity.
Qed.

(** X6. On a connected geometry reader whose mapping holds the points,
    [latest] with a zero sleep interval returns points with a sequence [s]
    only when its last two loads of the sequence, at successive instants,
    both gave [s] and [s] is odd; the view, made after the second load, then
    covers [count*8] bytes behind the header, the metadata are the count,
    width and height the reader holds, and [_last_seq] of the reader is [s],
    its other fields unchanged.  It returns points exactly when one of its
    attempts within the spin budget passes this stability check. *)
Theorem geo_latest_seqlock (r : GeoShmReader.t) (σ : Sys) (m : nat) (o : mmap_obj)
    (max_spins sleep_ns : Z) :
  let seq_at := fun t => uint_at (mo_shm o) t 16 8 in
  geo_connected r σ m o → points_in_bounds r (mo_shm o) → truthy sleep_ns = false →
  (∀ v meta s st,
     GeoShmReader.latest max_spins sleep_ns (r, σ) = (Ok (Some v, meta, s), st) →
     (∃ t, (now σ <= t)%nat
           ∧ seq_at t = s ∧ seq_at (S t) = s ∧ Z.odd s = true
           ∧ snd st = exported m o (at_instant (S (S t)) σ))
     ∧ v = {| mv_obj := m; mv_start := GeoShmReader._hdr_size r;
              mv_len := GeoShmReader.count r * 8 |}
     ∧ meta = Some {| meta_count := GeoShmReader.count r;
                      meta_width := GeoShmReader.width r;
                      meta_height := GeoShmReader.height r |}
     ∧ geo_stores s r (fst st))
  ∧ ((∃ v meta s st,
        GeoShmReader.latest max_spins sleep_ns (r, σ) = (Ok (Some v, meta, s), st))
     ↔ (∃ t k, attempts seq_at (now σ) t k ∧ Z.of_nat k < max_spins ∧ stable seq_at t)).
Proof.
  intros seq_at Hc Hb Hsl.
  assert (Hrun :
    GeoShmReader.latest max_spins sleep_ns (r, σ)
    = match scan seq_at (Z.to_nat max_spins) (now σ) 0 with
      | (Some t, t', _) =>
          (Ok (Some (points_view r m), Some (GeoShmReader.meta_of r), seq_at t),
           (GeoShmReader.set_last_seq (seq_at t) r, exported m o (at_instant t' σ)))
      | (None, t', _) =>
          (Ok (None, None, GeoShmReader._last_seq r), (r, at_instant t' σ))
      end).
  { unfold GeoShmReader.latest, bind.
    rewrite (latest_spins_scan r σ m o max_spins sleep_ns Hc Hb Hsl). fold seq_at.
    destruct (scan seq_at (Z.to_nat max_spins) (now σ) 0) as [[[t|] t'] k]; reflexivity. }
  rewrite Hrun. split.
  - intros v meta s st Hres.
    destruct (scan seq_at (Z.to_nat max_spins) (now σ) 0) as [[[t|] t'] k] eqn:Hscan;
      [|discriminate].
    destruct (scan_some seq_at _ _ _ _ _ _ _ _ (attempts_first seq_at (now σ)) Hscan)
      as (j & Hj & Hlt & [Hodd Heq] & Ht' & Hk & Hle).
    inversion Hres; subst v meta s st t'. cbn [fst snd].
    split; [|split; [reflexivity|split; [reflexivity | apply geo_stores_set]]].
    exists t. split; [lia|]. split; [reflexivity|]. split; [exact Heq|].
    split; [exact Hodd | reflexivity].
  - split.
    + intros (v & meta & s & st & Hres).
      destruct (scan seq_at (Z.to_nat max_spins) (now σ) 0) as [[[t|] t'] k] eqn:Hscan;
        [|discriminate].
      destruct (scan_some seq_at _ _ _ _ _ _ _ _ (attempts_first seq_at (now σ)) Hscan)
        as (j & Hj & Hlt & Hst & Ht' & Hk & Hle).
      exists t, j. split; [exact Hj|]. split; [lia | exact Hst].
    + intros (t & k & Ha & Hk & Hst).
      replace (Z.to_nat max_spins) with (k + S (Z.to_nat max_spins - S k))%nat by lia.
      rewrite (scan_follow seq_at _ _ _ Ha), scan_stable by exact Hst.
      eauto.
Qed.

Lemma geo_latest_seqlock_witness :
  let r := fst Scenarios.geom_torn in
  let σ := snd Scenarios.geom_torn in
  let o := open_mmap Scenarios.torn_geom in
  geo_connected r σ 0 o
  ∧ points_in_bounds r (mo_shm o)
  ∧ (∃ v meta s st, GeoShmReader.latest 200 0 (r, σ) = (Ok (Some v, meta, s), st))
  ∧ fst (GeoShmReader.latest 200 0 (r, σ))
    = Ok (Some {| mv_obj := 0; mv_start := 24; mv_len := 24 |},
          Some {| meta_count := 3; meta_width := 2; meta_height := 2 |}, 9)
  ∧ GeoShmReader._last_seq r = 0
  ∧ GeoShmReader._last_seq (fst (snd (GeoShmReader.latest 200 0 (r, σ)))) = 9.
Proof.
  intros r σ o.
  assert (Hc : geo_connected r σ 0 o).
  { split; [vm_compute; reflexivity|].
    split; [split; vm_compute; reflexivity|]. vm_compute; discriminate. }
  assert (Hb : points_in_bounds r (mo_shm o)).
  { split; [vm_compute; discriminate|]. split; vm_compute; discriminate. }
  split; [exact Hc|]. split; [exact Hb|].
  destruct (geo_latest_seqlock r σ 0%nat o 200 0 Hc Hb eq_refl) as [Honly Hiff].
  assert (Hex : ∃ v meta s st,
             GeoShmReader.latest 200 0 (r, σ) = (Ok (Some v, meta, s), st)).
  { apply Hiff. exists 4%nat, 2%nat.
    split; [|split; [lia | split; vm_compute; reflexivity]].
    assert (Hnow : now σ = 1%nat) by (vm_compute; reflexivity).
    rewrite Hnow.
    apply (attempts_torn _ 1 2 1); [|vm_compute; reflexivity | vm_compute; discriminate].
    apply (attempts_even _ 1 1 0); [apply attempts_first | vm_compute; reflexivity]. }
  split; [exact Hex|].
  destruct Hex as (v & meta & s & st & Hres). rewrite Hres. cbn [fst snd].
  destruct (Honly v meta s st Hres)
    as ((t & Hlt & H1 & H2 & Hodd & Hst) & Hv & Hmeta & Hlast & _).
  assert (Hs : fst (GeoShmReader.latest 200 0 (r, σ))
               = Ok (Some {| mv_obj := 0; mv_start := 24; mv_len := 24 |},
                     Some {| meta_count := 3; meta_width := 2; meta_height := 2 |}, 9))
    by (vm_compute; reflexivity).
  rewrite Hres in Hs. cbn [fst] in Hs.
  split; [exact Hs|]. split; [vm_compute; reflexivity|].
  rewrite Hlast. congruence.
Defined.

(** ** The cost of a bounded-spin read *)

Lemma scan_cost seq_at n t k res t' k' :
  scan seq_at n t k = (res, t', k') →
  k <= k' <= k + Z.of_nat n
  ∧ (res = None → k' = k + Z.of_nat n)
  ∧ (res ≠ None → k' < k + Z.of_nat n)
  ∧ (t <= t')%nat
  ∧ Z.of_nat t' <= Z.of_nat t + 2 * (k' - k) + match res with Some _ => 2 | None => 0 end.
Proof.
  revert t k. induction n as [|n IH]; intros t k H.
  { cbn in H. injection H as <- <- <-. repeat split; try lia. congruence. }
  cbn [scan] in H. destruct (Z.odd (seq_at t)).
  - destruct (seq_at t =? seq_at (S t)).
    + injection H as <- <- <-. repeat split; try lia. discriminate.
    + destruct (IH _ _ H) as (H1 & H2 & H3 & H4 & H5).
      repeat split; try lia.
      * intros Hn. specialize (H2 Hn). lia.
      * intros Hn. specialize (H3 Hn). lia.
  - destruct (IH _ _ H) as (H1 & H2 & H3 & H4 & H5).
    repeat split; try lia.
    + intros Hn. specialize (H2 Hn). lia.
    + intros Hn. specialize (H3 Hn). lia.
Qed.

(** X7. With a zero sleep interval [latest_frame_view] on a connected reader
    whose active buffer lies in the mapping never raises and always returns:
    after [k] failed attempts, where [k] is below [max_spins] when a view is
    returned and is [max_spins] (0 when that is negative) when none is.  It
    loads the active index once and the sequence at most twice for each
    attempt, so at most [1 + 2*max_spins] words in all. *)
Theorem latest_frame_view_terminates (r : FrameShmReader.t) (σ : Sys) (m : nat) (o : mmap_obj)
    (max_spins sleep_ns : Z) :
  frame_connected r σ m o →
  buffer_in_bounds r (mo_shm o) (uint_at (mo_shm o) (now σ) 24 4) →
  truthy sleep_ns = false →
  ∃ v s k st,
    FrameShmReader.latest_frame_view_spins max_spins sleep_ns (r, σ) = (Ok ((v, s), k), st)
    ∧ FrameShmReader.latest_frame_view max_spins sleep_ns (r, σ) = (Ok (v, s), st)
    ∧ (v = None → k = Z.max 0 max_spins)
    ∧ (v ≠ None → 0 <= k < max_spins)
    ∧ (now σ < now (snd st))%nat
    ∧ Z.of_nat (now (snd st))
      <= Z.of_nat (now σ) + 1 + 2 * k + match v with Some _ => 2 | None => 0 end
    ∧ Z.of_nat (now (snd st)) <= Z.of_nat (now σ) + 1 + 2 * Z.max 0 max_spins.
Proof.
  intros Hc Hb Hsl. unfold FrameShmReader.latest_frame_view, bind.
  rewrite (latest_frame_view_spins_scan r σ m o max_spins sleep_ns Hc Hb Hsl).
  set (seq_at := fun t => uint_at (mo_shm o) t _ 8).
  destruct (scan seq_at (Z.to_nat max_spins) (S (now σ)) 0) as [[res t'] k] eqn:Hscan.
  destruct (scan_cost _ _ _ _ _ _ _ Hscan) as (H1 & H2 & H3 & H4 & H5).
  destruct res as [t|].
  - eexists _, _, _, _. split; [reflexivity|]. split; [reflexivity|].
    cbn [snd now exported at_instant set_now set_mmaps].
    assert (k < Z.of_nat (Z.to_nat max_spins)) by (apply H3; discriminate).
    split; [discriminate|]. split; [lia|]. split; [lia|]. split; lia.
  - eexists _, _, _, _. split; [reflexivity|]. split; [reflexivity|].
    cbn [snd now at_instant set_now].
    specialize (H2 eq_refl).
    split; [lia|]. split; [congruence|]. split; [lia|]. split; lia.
Qed.

Lemma latest_frame_view_terminates_witness :
  let r := fst Fixtures.frame_torn in
  let σ := snd Fixtures.frame_torn in
  let o := open_mmap Fixtures.torn_frame in
  frame_connected r σ 0 o
  ∧ buffer_in_bounds r (mo_shm o) (uint_at (mo_shm o) (now σ) 24 4)
  ∧ ∃ v s k st,
      FrameShmReader.latest_frame_view 64 0 (r, σ) = (Ok (v, s), st)
      ∧ (v ≠ None → 0 <= k < 64)
      ∧ Z.of_nat (now (snd st)) <= Z.of_nat (now σ) + 1 + 2 * Z.max 0 64.
Proof.
  intros r σ o.
  assert (Hc : frame_connected r σ 0 o).
  { split; [vm_compute; reflexivity|].
    split; [split; vm_compute; reflexivity|]. vm_compute; discriminate. }
  assert (Hb : buffer_in_bounds r (mo_shm o) (uint_at (mo_shm o) (now σ) 24 4)).
  { split; [vm_compute; discriminate|]. split; vm_compute; discriminate. }
  split; [exact Hc|]. split; [exact Hb|].
  destruct (latest_frame_view_terminates r σ 0%nat o 64 0 Hc Hb eq_refl)
    as (v & s & k & st & H1 & H2 & H3 & H4 & H5 & H6 & H7).
  exists v, s, k, st. split; [exact H2|]. split; [exact H4 | exact H7].
Defined.

(** ** A connect that fails *)

(** X8. [connect] on a segment that exists but is empty, shorter than the
    header, or has another magic raises, and does not undo what it has done:
    the reader keeps the descriptor it opened (and the mapping, when the
    segment could be mapped), while its cached dimensions stay as before.
    [close] on that reader returns normally and gives the descriptor back:
    the descriptor table is then what it was before [connect]. *)
Theorem frame_connect_failure_then_close (r : FrameShmReader.t) (σ : Sys) (shm : Shm) :
  files σ !! FrameShmReader._path r = Some shm →
  FrameShmReader.header_size r = 28 →
  FrameShmReader.mm r = None →
  shm_size shm < 28 ∨ fb_magic shm (now σ) ≠ MAGIC →
  let f := fresh (dom (fds σ)) in
  let out := FrameShmReader.connect (r, σ) in
  let out' := FrameShmReader.close (snd out) in
  (∃ e, fst out = Raise e)
  ∧ FrameShmReader.fd (fst (snd out)) = Some f
  ∧ fds (snd (snd out)) = <[f := FrameShmReader._path r]> (fds σ)
  ∧ (FrameShmReader.mm (fst (snd out)) = None ↔ shm_size shm <= 0)
  ∧ (FrameShmReader.width (fst (snd out)), FrameShmReader.height (fst (snd out)),
     FrameShmReader.stride (fst (snd out)), FrameShmReader.onebuf_size (fst (snd out)))
    = (FrameShmReader.width r, FrameShmReader.height r,
       FrameShmReader.stride r, FrameShmReader.onebuf_size r)
  ∧ fst out' = Ok tt
  ∧ FrameShmReader.mm (fst (snd out')) = None
  ∧ FrameShmReader.fd (fst (snd out')) = None
  ∧ fds (snd (snd out')) = fds σ.
Proof.
  intros Hf Hh Hmm Hbad f out out'. subst out' out.
  rewrite (frame_connect_run r σ shm Hf Hh). fold f.
  assert (Hclose1 :
    FrameShmReader.close (FrameShmReader.set_fd (Some f) r,
                          set_fds <[f := FrameShmReader._path r]> σ)
    = (Ok tt, (FrameShmReader.set_fd None (FrameShmReader.set_mm None
                 (FrameShmReader.set_fd (Some f) r)), σ))).
  { unfold FrameShmReader.close, os.close.
    cbv beta iota delta [try_finally bind self sys zoom get modify raise ret fst snd].
    cbn [FrameShmReader.mm FrameShmReader.fd FrameShmReader.set_fd].
    rewrite Hmm. cbn [fds set_fds fst snd].
    rewrite lookup_insert_eq. cbn [fst snd]. unfold set_fds.
    cbn [now files fds mmaps shared].
    unfold f. rewrite (delete_insert_id _ _ _ (fresh_fd_unused σ)).
    destruct σ; reflexivity. }
  assert (Hclose2 : ∀ r' g,
    FrameShmReader.mm r' = Some (fresh (dom (mmaps σ))) → FrameShmReader.fd r' = Some f →
    let out' := FrameShmReader.close (r', set_now g (opened (FrameShmReader._path r) shm σ)) in
    fst out' = Ok tt
    ∧ FrameShmReader.mm (fst (snd out')) = None
    ∧ FrameShmReader.fd (fst (snd out')) = None
    ∧ fds (snd (snd out')) = fds σ).
  { intros r' g Hm' Hf'.
    unfold FrameShmReader.close, mmap.close, os.close.
    cbv beta iota delta [try_finally bind self sys zoom get modify raise ret fst snd].
    rewrite Hm', Hf'. unfold opened.
    cbn [mmaps fds set_now set_mmaps set_fds fst snd].
    rewrite lookup_insert_eq. cbn [mo_closed mo_exports open_mmap Nat.ltb Nat.leb].
    cbn [mmaps fds set_now set_mmaps set_fds fst snd].
    rewrite lookup_insert_eq.
    cbn [fst snd mmaps fds set_now set_mmaps set_fds
      FrameShmReader.mm FrameShmReader.fd FrameShmReader.set_mm FrameShmReader.set_fd].
    unfold f. rewrite (delete_insert_id _ _ _ (fresh_fd_unused σ)).
    repeat split; reflexivity. }
  destruct (Z.leb_spec (shm_size shm) 0) as [Hle|Hgt].
  - cbn [fst snd]. rewrite Hclose1. cbn [fst snd FrameShmReader.fd FrameShmReader.mm
      FrameShmReader.set_fd FrameShmReader.set_mm FrameShmReader.width FrameShmReader.height
      FrameShmReader.stride FrameShmReader.onebuf_size fds set_fds].
    split; [eauto|]. split; [reflexivity|]. split; [reflexivity|].
    split; [split; auto|]. repeat split; reflexivity.
  - destruct (Z.ltb_spec (shm_size shm) 28) as [Hlt|Hge].
    + cbn [fst snd].
      destruct (Hclose2 (FrameShmReader.set_mm (Some (fresh (dom (mmaps σ))))
                           (FrameShmReader.set_fd (Some f) r)) S eq_refl eq_refl)
        as (C1 & C2 & C3 & C4).
      split; [eauto|]. split; [reflexivity|]. split; [reflexivity|].
      split; [split; [discriminate | lia]|]. split; [reflexivity|].
      split; [exact C1|]. split; [exact C2|]. split; [exact C3 | exact C4].
    + destruct Hbad as [Hbad|Hbad]; [lia|].
      replace (fb_magic shm (now σ) =? MAGIC) with false
        by (symmetry; apply Z.eqb_neq; exact Hbad).
      cbn [fst snd].
      destruct (Hclose2 (FrameShmReader.set_mm (Some (fresh (dom (mmaps σ))))
                           (FrameShmReader.set_fd (Some f) r)) S eq_refl eq_refl)
        as (C1 & C2 & C3 & C4).
      split; [eauto|]. split; [reflexivity|]. split; [reflexivity|].
      split; [split; [discriminate | lia]|]. split; [reflexivity|].
      split; [exact C1|]. split; [exact C2|]. split; [exact C3 | exact C4].
Qed.

Lemma frame_connect_failure_then_close_witness :
  let r := FrameShmReader.__init__ "/uc3d_geom0" in
  let σ := Fixtures.sys0 Fixtures.files_7_4 in
  let shm := Fixtures.geom_seg 4 in
  (files σ !! FrameShmReader._path r = Some shm
   ∧ FrameShmReader.header_size r = 28
   ∧ FrameShmReader.mm r = None
   ∧ fb_magic shm (now σ) ≠ MAGIC)
  ∧ fst (FrameShmReader.connect (r, σ)) = Raise (RuntimeError "Bad FB magic" GEOM_MAGIC)
  ∧ FrameShmReader.fd (fst (snd (FrameShmReader.connect (r, σ)))) = Some 0%nat
  ∧ fst (FrameShmReader.close (snd (FrameShmReader.connect (r, σ)))) = Ok tt
  ∧ fds (snd (snd (FrameShmReader.close (snd (FrameShmReader.connect (r, σ)))))) = fds σ.
Proof.
  intros r σ shm.
  assert (H1 : files σ !! FrameShmReader._path r = Some shm) by (vm_compute; reflexivity).
  assert (H2 : FrameShmReader.header_size r = 28) by reflexivity.
  assert (H3 : FrameShmReader.mm r = None) by reflexivity.
  assert (H4 : fb_magic shm (now σ) ≠ MAGIC) by (vm_compute; discriminate).
  split; [auto|].
  destruct (frame_connect_failure_then_close r σ shm H1 H2 H3 (or_intror H4))
    as (_ & Hfd & _ & _ & _ & Hok & _ & _ & Hfds).
  split; [vm_compute; reflexivity|].
  split; [rewrite Hfd; vm_compute; reflexivity|].
  split; [exact Hok | exact Hfds].
Defined.

(** ** A geometry header that is not whole *)

Lemma unpack_u64_short σ m o off :
  mapped σ m o → shm_size (mo_shm o) < off + 8 →
  struct.unpack_u64 m off σ = (Raise StructError, σ).
Proof.
  intros Hm Hsz. unfold struct.unpack_u64, bind.
  rewrite (load_short _ _ o) by (first [assumption | simpl; lia]). reflexivity.
Qed.

(** X9. The geometry reader checks the magic on the first 16 bytes only.
    On a segment of 16 to 23 bytes with the right magic [connect] succeeds
    and caches count, width and height, but the sequence word at offset 16
    does not fit: [latest_fast] and every [latest] with a positive spin
    budget then raise [struct.error], the reader and the clock unchanged,
    while [latest] with no budget returns (None, None, last sequence). *)
Theorem geo_connect_short_header (r : GeoShmReader.t) (σ : Sys) (shm : Shm)
    (max_spins sleep_ns : Z) :
  files σ !! ("/dev/shm" +:+ GeoShmReader.name r) = Some shm →
  16 <= shm_size shm < 24 →
  geo_magic shm (now σ) = GEOM_MAGIC →
  let out := GeoShmReader.connect (r, σ) in
  let r' := fst (snd out) in
  fst out = Ok tt
  ∧ (GeoShmReader.count r', GeoShmReader.width r', GeoShmReader.height r')
    = (geo_count shm (now σ), geo_width shm (now σ), geo_height shm (now σ))
  ∧ GeoShmReader.latest_fast (snd out) = (Raise StructError, snd out)
  ∧ (0 < max_spins →
     GeoShmReader.latest max_spins sleep_ns (snd out) = (Raise StructError, snd out))
  ∧ (max_spins <= 0 →
     GeoShmReader.latest max_spins sleep_ns (snd out)
     = (Ok (None, None, GeoShmReader._last_seq r), snd out)).
Proof.
  intros Hf Hsz Hmagic out r'. subst r' out.
  rewrite (geo_connect_run r σ shm Hf).
  replace (shm_size shm <=? 0) with false by (symmetry; apply Z.leb_gt; lia).
  replace (shm_size shm <? 16) with false by (symmetry; apply Z.ltb_ge; lia).
  rewrite Hmagic, Z.eqb_refl. cbn [fst snd].
  set (path := "/dev/shm" +:+ GeoShmReader.name r).
  set (m := fresh (dom (mmaps σ))).
  set (σ1 := set_now S (opened path shm σ)).
  set (r1 := GeoShmReader.set_dims _ _ _ _).
  assert (Hmap : mapped σ1 m (open_mmap shm))
    by (apply mapped_set_now, mapped_opened).
  assert (Hmm : GeoShmReader.mm r1 = Some m) by reflexivity.
  assert (Hseq : struct.unpack_u64 m 16 σ1 = (Raise StructError, σ1))
    by (apply (unpack_u64_short _ _ (open_mmap shm)); [exact Hmap | cbn; lia]).
  split; [reflexivity|]. split; [reflexivity|]. split; [|split].
  - unfold GeoShmReader.latest_fast.
    cbv beta iota delta [bind self sys zoom get fst snd]. rewrite Hmm, Hseq. reflexivity.
  - intros Hpos. unfold GeoShmReader.latest, GeoShmReader.latest_spins.
    cbv beta iota delta [bind self zoom get fst snd]. rewrite Hmm.
    destruct (Z.to_nat max_spins) as [|n] eqn:Hn; [lia|].
    cbn [GeoShmReader.spin]. unfold GeoShmReader._seq, GeoShmReader.the_mm.
    cbv beta iota delta [bind self sys zoom get ret fst snd]. rewrite Hmm, Hseq. reflexivity.
  - intros Hle. unfold GeoShmReader.latest, GeoShmReader.latest_spins.
    cbv beta iota delta [bind self zoom get fst snd]. rewrite Hmm.
    replace (Z.to_nat max_spins) with 0%nat by lia. reflexivity.
Qed.

Lemma geo_connect_short_header_witness :
  let r := GeoShmReader.__init__ "/uc3d_geom0" in
  let σ := Fixtures.sys0 {[ "/dev/shm/uc3d_geom0" := Scenarios.short_geom ]} in
  (files σ !! ("/dev/shm" +:+ GeoShmReader.name r) = Some Scenarios.short_geom
   ∧ 16 <= shm_size Scenarios.short_geom < 24
   ∧ geo_magic Scenarios.short_geom (now σ) = GEOM_MAGIC)
  ∧ fst (GeoShmReader.connect (r, σ)) = Ok tt
  ∧ fst (GeoShmReader.latest_fast (snd (GeoShmReader.connect (r, σ)))) = Raise StructError
  ∧ fst (GeoShmReader.latest 200 0 (snd (GeoShmReader.connect (r, σ)))) = Raise StructError.
Proof.
  intros r σ.
  assert (H1 : files σ !! ("/dev/shm" +:+ GeoShmReader.name r) = Some Scenarios.short_geom)
    by (vm_compute; reflexivity).
  assert (H2 : 16 <= shm_size Scenarios.short_geom < 24)
    by (split; [vm_compute; discriminate | vm_compute; reflexivity]).
  assert (H3 : geo_magic Scenarios.short_geom (now σ) = GEOM_MAGIC)
    by (vm_compute; reflexivity).
  split; [auto|].
  destruct (geo_connect_short_header r σ Scenarios.short_geom 200 0 H1 H2 H3)
    as (Hok & _ & Hfast & Hspin & _).
  split; [exact Hok|]. split; [rewrite Hfast; reflexivity|].
  rewrite (Hspin eq_refl). reflexivity.
Defined.

(** ** A registry that announces more than it holds *)

Lemma at_instant_set_now t f σ : at_instant t (set_now f σ) = at_instant t σ.
Proof. reflexivity. Qed.

Lemma cams_loop_short (decode : list byte → string) r σ m o n off acc :
  mapped σ m o → 0 <= off <= shm_size (mo_shm o) →
  shm_size (mo_shm o) < off + 48 * Z.of_nat n →
  RegistryReader.cams_loop decode n m off acc (r, σ)
  = (Raise StructError,
     (r, at_instant (now σ + Z.to_nat ((shm_size (mo_shm o) - off) / 48)) σ)).
Proof.
  revert σ off acc. induction n as [|n IH]; intros σ off acc Hm H0 Hfit; [lia|].
  cbn [RegistryReader.cams_loop].
  cbv beta iota delta [bind sys zoom fst snd].
  destruct (Z.lt_ge_cases (shm_size (mo_shm o)) (off + 48)) as [Hlt|Hge].
  - rewrite (load_short _ _ o) by (first [assumption | unfold REG_CAM_size; lia]).
    rewrite Z.div_small by lia. cbn [Z.to_nat]. rewrite Nat.add_0_r, at_instant_now.
    reflexivity.
  - rewrite (load_ok _ _ _ _ _ Hm) by (unfold REG_CAM_size; lia).
    rewrite IH by (try apply mapped_set_now; unfold REG_CAM_size; first [assumption | lia]).
    rewrite at_instant_set_now. cbn [now set_now]. do 3 f_equal.
    replace (shm_size (mo_shm o) - off)
      with (shm_size (mo_shm o) - (off + Z.of_nat REG_CAM_size) + 1 * 48)
      by (unfold REG_CAM_size; lia).
    rewrite Z.div_add by lia.
    assert (0 <= (shm_size (mo_shm o) - (off + Z.of_nat REG_CAM_size)) / 48)
      by (apply Z.div_pos; unfold REG_CAM_size; lia).
    lia.
Qed.

(** X10. [list_cameras] on a mapped registry whose header announces more
    cameras than the region holds raises [struct.error] at the first record
    that does not fit, after one load for the header and one for each
    record that does: the cameras read so far are not returned.  A mapped
    region shorter than the 12-byte header raises at once.  In both cases
    only the clock has moved: the reader and the resources are unchanged. *)
Theorem list_cameras_truncated (decode : list byte → string) (r : RegistryReader.t)
    (σ : Sys) (m : nat) (o : mmap_obj) :
  let shm := mo_shm o in
  RegistryReader.mm r = Some m → mapped σ m o → 0 < shm_size shm →
  (shm_size shm < 12 →
   RegistryReader.list_cameras decode (r, σ) = (Raise StructError, (r, σ)))
  ∧ (12 <= shm_size shm → uint_at shm (now σ) 0 4 = REG_MAGIC →
     shm_size shm < 12 + 48 * uint_at shm (now σ) 8 4 →
     RegistryReader.list_cameras decode (r, σ)
     = (Raise StructError,
        (r, at_instant (S (now σ) + Z.to_nat ((shm_size shm - 12) / 48)) σ))).
Proof.
  intros shm Hmm Hmap Hpos.
  assert (Hlen : mmap.len m σ = (Ok (shm_size shm), σ)).
  { unfold mmap.len, bind. rewrite (lookup_mapped _ _ _ Hmap). reflexivity. }
  split.
  - intros Hlt. unfold RegistryReader.list_cameras.
    cbv beta iota delta [bind self sys zoom get ret fst snd]. rewrite Hmm, Hlen.
    replace (shm_size shm =? 0) with false by (symmetry; apply Z.eqb_neq; lia).
    rewrite (load_short _ _ o) by (first [assumption | unfold REG_HDR_size; fold shm; lia]).
    reflexivity.
  - intros H12 Hmagic Hcut. unfold RegistryReader.list_cameras.
    cbv beta iota delta [bind self sys zoom get ret fst snd]. rewrite Hmm, Hlen.
    replace (shm_size shm =? 0) with false by (symmetry; apply Z.eqb_neq; lia).
    rewrite (load_ok _ _ _ _ _ Hmap) by (unfold REG_HDR_size; fold shm; lia).
    rewrite !(field_bytes_at (mo_shm o) (now σ)) by (unfold REG_HDR_size; lia).
    change (Z.of_nat 0) with 0. change (Z.of_nat 8) with 8. fold shm.
    rewrite Hmagic, Z.eqb_refl. cbn [negb].
    pose proof (uint_at_bound shm (now σ) 8 4) as Hb.
    rewrite (cams_loop_short decode r _ m o)
      by (try apply mapped_set_now; unfold REG_HDR_size; fold shm;
          first [assumption | lia]).
    rewrite at_instant_set_now. reflexivity.
Qed.

Lemma list_cameras_truncated_witness :
  let r := fst Scenarios.registry_cut in
  let σ := snd Scenarios.registry_cut in
  let o := open_mmap Scenarios.cut_registry in
  (RegistryReader.mm r = Some 0%nat ∧ mapped σ 0 o ∧ 0 < shm_size (mo_shm o)
   ∧ 12 <= shm_size (mo_shm o)
   ∧ uint_at (mo_shm o) (now σ) 0 4 = REG_MAGIC
   ∧ shm_size (mo_shm o) < 12 + 48 * uint_at (mo_shm o) (now σ) 8 4)
  ∧ RegistryReader.list_cameras Fixtures.decode_ascii (r, σ)
    = (Raise StructError, (r, at_instant 3 σ)).
Proof.
  intros r σ o.
  assert (H1 : RegistryReader.mm r = Some 0%nat) by (vm_compute; reflexivity).
  assert (H2 : mapped σ 0 o) by (split; vm_compute; reflexivity).
  assert (H3 : 0 < shm_size (mo_shm o)) by (vm_compute; reflexivity).
  assert (H4 : 12 <= shm_size (mo_shm o)) by (vm_compute; discriminate).
  assert (H5 : uint_at (mo_shm o) (now σ) 0 4 = REG_MAGIC) by (vm_compute; reflexivity).
  assert (H6 : shm_size (mo_shm o) < 12 + 48 * uint_at (mo_shm o) (now σ) 8 4)
    by (vm_compute; reflexivity).
  split; [auto 10|].
  rewrite (proj2 (list_cameras_truncated Fixtures.decode_ascii r σ 0%nat o H1 H2 H3) H4 H5 H6).
  reflexivity.
Defined.

(** ** A registry session *)

Lemma load_effect m off size σ :
  ∃ t, snd (struct.load m off size σ) = at_instant t σ ∧ (now σ <= t)%nat.
Proof.
  unfold struct.load. unfold bind at 1.
  pose proof (lookup_state m σ) as Hl.
  destruct (mmap.lookup m σ) as [[o|e] σ1]; cbn [snd] in Hl; subst σ1;
    [|exists (now σ); rewrite at_instant_now; auto].
  destruct ((off <? 0) || (shm_size (mo_shm o) <? off + Z.of_nat size)).
  - exists (now σ). rewrite at_instant_now. auto.
  - exists (S (now σ)). split; [reflexivity | lia].
Qed.

Lemma at_instant_twice t t' σ : at_instant t (at_instant t' σ) = at_instant t σ.
Proof. reflexivity. Qed.

Lemma cams_loop_effect (decode : list byte → string) n m off acc r σ :
  ∃ t, snd (RegistryReader.cams_loop decode n m off acc (r, σ)) = (r, at_instant t σ)
       ∧ (now σ <= t)%nat.
Proof.
  revert off acc σ. induction n as [|n IH]; intros off acc σ.
  - exists (now σ). cbn. rewrite at_instant_now. auto.
  - cbn [RegistryReader.cams_loop].
    cbv beta iota delta [bind sys zoom fst snd].
    destruct (load_effect m off REG_CAM_size σ) as (t1 & H1 & Hle1).
    destruct (struct.load m off REG_CAM_size σ) as [[bs|e] σ1]; cbn [snd] in H1; subst σ1.
    + destruct (IH (off + Z.of_nat REG_CAM_size)
                  (acc ++ [RegistryReader.unpack_cam decode bs]) (at_instant t1 σ))
        as (t2 & H2 & Hle2).
      exists t2. split; [exact H2|].
      cbn [now at_instant set_now] in Hle2. lia.
    + exists t1. auto.
Qed.

(** [list_cameras] copies what it reads: whatever the region holds and
    whether or not it raises, it leaves the reader and the resources as they
    were, the mapping without any export; only loads have happened. *)
Lemma list_cameras_effect (decode : list byte → string) r σ :
  ∃ t, snd (RegistryReader.list_cameras decode (r, σ)) = (r, at_instant t σ)
       ∧ (now σ <= t)%nat.
Proof.
  unfold RegistryReader.list_cameras.
  cbv beta iota delta [bind self sys zoom get fst snd].
  destruct (RegistryReader.mm r) as [m|];
    [|exists (now σ); rewrite at_instant_now; auto].
  unfold mmap.len, bind.
  pose proof (lookup_state m σ) as Hl.
  destruct (mmap.lookup m σ) as [[o|e] σ1]; cbn [snd] in Hl; subst σ1;
    [|exists (now σ); rewrite at_instant_now; auto].
  cbv beta iota delta [ret fst snd].
  destruct (shm_size (mo_shm o) =? 0);
    [exists (now σ); rewrite at_instant_now; auto|].
  destruct (load_effect m 0 REG_HDR_size σ) as (t1 & H1 & Hle1).
  destruct (struct.load m 0 REG_HDR_size σ) as [[hdr|e] σ1]; cbn [snd] in H1; subst σ1;
    [|exists t1; auto].
  destruct (negb (struct.field hdr 0 4 =? REG_MAGIC)); [exists t1; auto|].
  destruct (cams_loop_effect decode (Z.to_nat (struct.field hdr 8 4)) m
              (Z.of_nat REG_HDR_size) [] r (at_instant t1 σ)) as (t2 & H2 & Hle2).
  exists t2. split; [exact H2|].
  cbn [now at_instant set_now] in Hle2. lia.
Qed.

Lemma registry_connect_run (r : RegistryReader.t) (σ : Sys) (shm : Shm) :
  let path := "/dev/shm" +:+ RegistryReader.name r in
  files σ !! path = Some shm → 0 < shm_size shm →
  RegistryReader.connect (r, σ)
  = (Ok tt,
     ({| RegistryReader.name := RegistryReader.name r;
         RegistryReader.fd := Some (fresh (dom (fds σ)));
         RegistryReader.mm := Some (fresh (dom (mmaps σ))) |},
      opened path shm σ)).
Proof.
  intros path Hf Hpos. unfold RegistryReader.connect.
  cbv beta iota delta [bind self sys zoom get modify fst snd]. fold path.
  rewrite (os_open_ok _ _ _ Hf). cbn [fst snd].
  rewrite (fstat_opened _ _ _ Hf). cbn [fst snd].
  rewrite (mmap_opened _ _ _ Hf).
  replace (shm_size shm <=? 0) with false by (symmetry; apply Z.leb_gt; lia).
  reflexivity.
Qed.

(** X11. A registry session: [connect] on an existing, non-empty segment
    succeeds; [list_cameras], whatever the region holds and whether or not
    it raises, borrows nothing from the mapping, so the [close] that follows
    always returns normally, leaves the reader without mapping and
    descriptor and the descriptor table as it was before [connect]; after
    that [list_cameras] returns the empty list. *)
Theorem registry_session (decode : list byte → string) (r : RegistryReader.t)
    (σ : Sys) (shm : Shm) :
  files σ !! ("/dev/shm" +:+ RegistryReader.name r) = Some shm → 0 < shm_size shm →
  let c := RegistryReader.connect (r, σ) in
  let l := RegistryReader.list_cameras decode (snd c) in
  let out := RegistryReader.close (snd l) in
  fst c = Ok tt
  ∧ fst (snd l) = fst (snd c)
  ∧ mmaps (snd (snd l)) = mmaps (snd (snd c))
  ∧ fst out = Ok tt
  ∧ RegistryReader.mm (fst (snd out)) = None
  ∧ RegistryReader.fd (fst (snd out)) = None
  ∧ fds (snd (snd out)) = fds σ
  ∧ files (snd (snd out)) = files σ
  ∧ RegistryReader.list_cameras decode (snd out) = (Ok [], snd out).
Proof.
  intros Hf Hpos c l out. subst out l c.
  rewrite (registry_connect_run r σ shm Hf Hpos). cbn [fst snd].
  set (path := "/dev/shm" +:+ RegistryReader.name r).
  set (r1 := {| RegistryReader.name := _; RegistryReader.fd := _; RegistryReader.mm := _ |}).
  destruct (list_cameras_effect decode r1 (opened path shm σ)) as (t & Hl & Hle).
  destruct (RegistryReader.list_cameras decode (r1, opened path shm σ)) as [res st].
  cbn [snd] in Hl. subst st. cbn [fst snd].
  split; [reflexivity|]. split; [reflexivity|]. split; [reflexivity|].
  unfold RegistryReader.close, mmap.close, os.close.
  cbv beta iota delta [bind self sys zoom get modify raise ret fst snd].
  cbn [RegistryReader.mm RegistryReader.fd r1].
  unfold opened, at_instant. cbn [mmaps fds files set_now set_mmaps set_fds fst snd].
  rewrite lookup_insert_eq. cbn [mo_closed mo_exports open_mmap Nat.ltb Nat.leb].
  cbn [mmaps fds files set_now set_mmaps set_fds fst snd].
  rewrite lookup_insert_eq.
  cbn [mmaps fds files set_now set_mmaps set_fds fst snd RegistryReader.mm RegistryReader.fd].
  rewrite (delete_insert_id _ _ _ (fresh_fd_unused σ)).
  repeat split; reflexivity.
Qed.

Lemma registry_session_witness :
  let r := RegistryReader.__init__ "/uc3d_reg" in
  let σ := Fixtures.sys0 {[ "/dev/shm/uc3d_reg" := Fixtures.registry_seg ]} in
  (files σ !! ("/dev/shm" +:+ RegistryReader.name r) = Some Fixtures.registry_seg
   ∧ 0 < shm_size Fixtures.registry_seg)
  ∧ fst (RegistryReader.close
           (snd (RegistryReader.list_cameras Fixtures.decode_ascii
                   (snd (RegistryReader.connect (r, σ)))))) = Ok tt
  ∧ fds (snd (snd (RegistryReader.close
           (snd (RegistryReader.list_cameras Fixtures.decode_ascii
                   (snd (RegistryReader.connect (r, σ)))))))) = fds σ.
Proof.
  intros r σ.
  assert (H1 : files σ !! ("/dev/shm" +:+ RegistryReader.name r) = Some Fixtures.registry_seg)
    by (vm_compute; reflexivity).
  assert (H2 : 0 < shm_size Fixtures.registry_seg) by (vm_compute; reflexivity).
  split; [auto|].
  destruct (registry_session Fixtures.decode_ascii r σ Fixtures.registry_seg H1 H2)
    as (_ & _ & _ & Hok & _ & _ & Hfds & _).
  split; [exact Hok | exact Hfds].
Defined.

(** ** A control write that fails *)

Section CtrlFailure.
Context {float : Type} (pack_f32 : float → option (list byte)).
Hypothesis pack_f32_size : ∀ x bs, pack_f32 x = Some bs → length bs = 4%nat.

Lemma length_pack_item c a bs :
  CtrlShmWriter.pack_item pack_f32 c a = Ok bs → length bs = CtrlShmWriter.code_size c.
Proof.
  destruct c as [w|n|], a as [v|x]; cbn [CtrlShmWriter.pack_item CtrlShmWriter.code_size];
    try discriminate.
  - destruct ((0 <=? v) && (v <? 2 ^ (8 * Z.of_nat w))); [|discriminate].
    intros [= <-]. apply length_le_bytes.
  - destruct (pack_f32 x) as [b|] eqn:Hx; [|discriminate].
    intros [= <-]. exact (pack_f32_size x b Hx).
Qed.

Lemma length_pack_items fmt args bs :
  CtrlShmWriter.pack_items pack_f32 fmt args = Ok bs →
  length bs = CtrlShmWriter.calcsize fmt.
Proof.
  revert args bs. induction fmt as [|c fmt IH]; intros args bs.
  - intros [= <-]. reflexivity.
  - assert (Hstep : ∀ a args' b,
      CtrlShmWriter.pack_item pack_f32 c a = Ok b →
      match CtrlShmWriter.pack_items pack_f32 fmt args' with
      | Ok bs0 => Ok (b ++ bs0)
      | Raise e => Raise e
      end = Ok bs →
      length bs = CtrlShmWriter.calcsize (c :: fmt)).
    { intros a args' b Hb H.
      destruct (CtrlShmWriter.pack_items pack_f32 fmt args') as [bs0|e] eqn:H0;
        [|discriminate].
      injection H as <-. rewrite length_app, (length_pack_item _ _ _ Hb), (IH _ _ H0).
      reflexivity. }
    destruct c as [w|n|]; cbn [CtrlShmWriter.pack_items].
    + destruct args as [|a args']; [discriminate|].
      destruct (CtrlShmWriter.pack_item pack_f32 (CtrlShmWriter.U w) a) as [b|e] eqn:Hb;
        [|discriminate].
      apply (Hstep a args' b Hb).
    + destruct (CtrlShmWriter.pack_items pack_f32 fmt args) as [bs0|e] eqn:H0;
        [|discriminate].
      intros [= <-]. rewrite length_app, length_replicate, (IH _ _ H0). reflexivity.
    + destruct args as [|a args']; [discriminate|].
      destruct (CtrlShmWriter.pack_item pack_f32 CtrlShmWriter.F32 a) as [b|e] eqn:Hb;
        [|discriminate].
      apply (Hstep a args' b Hb).
Qed.

Lemma length_pack fmt args bs :
  CtrlShmWriter.pack pack_f32 fmt args = Ok bs → length bs = CtrlShmWriter.calcsize fmt.
Proof.
  unfold CtrlShmWriter.pack. destruct (negb _); [discriminate|]. apply length_pack_items.
Qed.

End CtrlFailure.

(** X12. [write] is all or nothing on the segment.  When it raises (a
    field that does not fit its slot, a float out of range, a writer that
    is not connected, a segment shorter than the record) no byte of any
    segment has changed, yet the sequence number of the writer has been
    incremented.  When it returns, the writer is connected to a segment of
    at least 56 bytes, of which only the first 56 have changed.  A writer
    that is not connected, or connected to a shorter segment, always
    raises. *)
Theorem ctrl_write_all_or_nothing (float : Type) (pack_f32 : float → option (list byte))
    (w : CtrlShmWriter.t float) (σ : Sys) :
  let w' := CtrlShmWriter.set_seq (CtrlShmWriter.seq w + 1) w in
  let out := CtrlShmWriter.write pack_f32 (w, σ) in
  (∀ x bs, pack_f32 x = Some bs → length bs = 4%nat) →
  fst (snd out) = w'
  ∧ (∀ e, fst out = Raise e → snd (snd out) = σ)
  ∧ (fst out = Ok tt →
     ∃ o buf rec,
       CtrlShmWriter.shm w = Some o ∧ shared σ !! o = Some buf
       ∧ length rec = 56%nat ∧ (56 <= length buf)%nat
       ∧ snd (snd out) = set_shared <[o := rec ++ drop 56 buf]> σ)
  ∧ (CtrlShmWriter.shm w = None → ∃ e, fst out = Raise e)
  ∧ (∀ o buf, CtrlShmWriter.shm w = Some o → shared σ !! o = Some buf →
              (length buf < 56)%nat → ∃ e, fst out = Raise e).
Proof.
  intros w' out Hsize. subst out. unfold CtrlShmWriter.write.
  cbv beta iota delta [bind self sys zoom get modify raise ret fst snd]. fold w'.
  change (CtrlShmWriter.shm w') with (CtrlShmWriter.shm w).
  destruct (CtrlShmWriter.pack pack_f32 CtrlShmWriter.CTRL_STRUCT
              (CtrlShmWriter.record_args w')) as [rec|e0] eqn:Hpack.
  2:{ cbn [fst snd]. split; [reflexivity|]. split; [reflexivity|].
      split; [discriminate|]. split; eauto. }
  pose proof (length_pack pack_f32 Hsize _ _ _ Hpack) as Hrec.
  change (CtrlShmWriter.calcsize CtrlShmWriter.CTRL_STRUCT) with 56%nat in Hrec.
  destruct (CtrlShmWriter.shm w) as [o|].
  2:{ cbn [fst snd]. split; [reflexivity|]. split; [reflexivity|].
      split; [discriminate|]. split; [eauto | discriminate]. }
  unfold shared_memory.assign_prefix.
  cbv beta iota delta [bind get modify raise ret fst snd].
  destruct (shared σ !! o) as [buf|] eqn:Hbuf.
  2:{ cbn [fst snd]. split; [reflexivity|]. split; [reflexivity|].
      split; [discriminate|]. split; [discriminate|].
      intros o' buf' [= <-] Hb. congruence. }
  unfold mmap.clamp.
  change (Z.of_nat CtrlShmWriter.CTRL_STRUCT_size) with 56.
  replace (56 <? 0) with false by reflexivity. rewrite Hrec.
  destruct (Z.eqb_spec (Z.min 56 (Z.of_nat (length buf))) (Z.of_nat 56)) as [He|He];
    cbn [negb fst snd].
  - split; [reflexivity|]. split; [discriminate|]. split; [|split; [discriminate|]].
    + intros _. exists o, buf, rec. repeat split; auto; lia.
    + intros o' buf' [= <-] Hb Hlt. rewrite Hbuf in Hb. injection Hb as <-. lia.
  - split; [reflexivity|]. split; [reflexivity|]. split; [discriminate|].
    split; [discriminate | eauto].
Qed.

Lemma ctrl_write_all_or_nothing_witness :
  let w := CtrlShmWriter.__init__ Fixtures.f32 0 0x3F800000 0xBF800000 "uc3d_ctrl" in
  let σ := Fixtures.sys0 ∅ in
  (∀ x bs, Fixtures.pack_bits x = Some bs → length bs = 4%nat)
  ∧ CtrlShmWriter.write Fixtures.pack_bits (w, σ)
    = (Raise AttributeError, (CtrlShmWriter.set_seq 1 w, σ)).
Proof.
  intros w σ.
  assert (Hsize : ∀ x bs, Fixtures.pack_bits x = Some bs → length bs = 4%nat).
  { intros x bs. unfold Fixtures.pack_bits.
    destruct ((0 <=? x) && (x <? 2 ^ 32)); [|discriminate].
    intros [= <-]. apply length_le_bytes. }
  split; [exact Hsize|].
  destruct (ctrl_write_all_or_nothing Fixtures.f32 Fixtures.pack_bits w σ Hsize) as (Hw & Hfail & _ & Hnone & _).
  destruct (Hnone eq_refl) as [e He].
  specialize (Hfail e He).
  destruct (CtrlShmWriter.write Fixtures.pack_bits (w, σ)) as [res [w1 σ1]] eqn:Hrun.
  cbn [fst snd] in *. subst res w1 σ1.
  assert (Hres : fst (CtrlShmWriter.write Fixtures.pack_bits (w, σ)) = Raise AttributeError)
    by (vm_compute; reflexivity).
  rewrite Hrun in Hres. cbn [fst] in Hres. rewrite Hres. reflexivity.
Defined.

(** ** Selecting a camera that is not there *)

Lemma frame_connect_missing (r : FrameShmReader.t) (σ : Sys) :
  files σ !! FrameShmReader._path r = None →
  FrameShmReader.connect (r, σ) = (Raise FileNotFoundError, (r, σ)).
Proof.
  intros Hf. unfold FrameShmReader.connect.
  cbv beta iota delta [bind self sys zoom get modify fst snd].
  rewrite (os_open_missing _ _ Hf). reflexivity.
Qed.

Lemma on_cam_changed_same (v : Viewport.t) (σ : Sys) (k : Z) (meta : camera) :
  0 <= k → Viewport._cams_meta v !! Z.to_nat k = Some meta →
  cam_index meta = Viewport._active_idx v →
  Viewport._on_cam_changed k (v, σ) = (Ok tt, (v, σ)).
Proof.
  intros Hk Hmeta Hsame. unfold Viewport._on_cam_changed.
  cbv beta iota delta [bind self zoom get fst snd].
  destruct ((k <? 0) || (Z.of_nat (length (Viewport._cams_meta v)) <=? k)); [reflexivity|].
  rewrite Hmeta, Hsame, Z.eqb_refl. reflexivity.
Qed.

(** X13. Selecting in the combo box a camera whose frame segment the
    producer has not created: [_on_cam_changed] swallows the
    FileNotFoundError and returns, but the switch is half done.  The view
    kept alive has been dropped, the readers of the previous camera are
    queued for closing, [_fb] is a fresh reader of the new name that is not
    connected, while [_geom] and [_active_idx] are still those of the
    previous camera.  Selecting the previous camera again is therefore taken
    for the camera already open and does nothing.  An index outside the
    list is ignored. *)
Theorem on_cam_changed_missing_camera (v : Viewport.t) (σ : Sys) (k : Z) (meta : camera) :
  0 <= k → Viewport._cams_meta v !! Z.to_nat k = Some meta →
  cam_index meta ≠ Viewport._active_idx v →
  files σ !! ("/dev/shm/uc3d_fb" +:+ str (cam_index meta)) = None →
  let out := Viewport._on_cam_changed k (v, σ) in
  let v' := fst (snd out) in
  fst out = Ok tt
  ∧ Viewport._view_keepalive v' = None
  ∧ Viewport.timers v'
    = Viewport.timers v ++ [(0, Viewport.delayed_close_cb (Viewport._fb v) (Viewport._geom v))]
  ∧ Viewport._fb v' = Some (FrameShmReader.__init__ ("/uc3d_fb" +:+ str (cam_index meta)))
  ∧ Viewport._geom v' = Viewport._geom v
  ∧ Viewport._active_idx v' = Viewport._active_idx v
  ∧ Viewport._cams_meta v' = Viewport._cams_meta v
  ∧ snd (snd out) = released (Viewport._view_keepalive v) σ
  ∧ (∀ k0 meta0, 0 <= k0 → Viewport._cams_meta v !! Z.to_nat k0 = Some meta0 →
       cam_index meta0 = Viewport._active_idx v →
       Viewport._on_cam_changed k0 (snd out) = (Ok tt, snd out))
  ∧ (∀ k0, k0 < 0 ∨ Z.of_nat (length (Viewport._cams_meta v)) <= k0 →
       Viewport._on_cam_changed k0 (v, σ) = (Ok tt, (v, σ))).
Proof.
  intros Hk Hmeta Hne Hmiss out v'.
  destruct (released_frame (Viewport._view_keepalive v) σ) as (Hrf & _ & _).
  set (σ0 := released (Viewport._view_keepalive v) σ) in *.
  set (idx := cam_index meta) in *.
  assert (Hmiss0 : files σ0 !! FrameShmReader._path
                     (FrameShmReader.__init__ ("/uc3d_fb" +:+ str idx)) = None).
  { rewrite frame_path_of_index, Hrf. exact Hmiss. }
  assert (Hrun : Viewport._on_cam_changed k (v, σ)
    = (Ok tt,
       (Viewport.set_fb (Some (FrameShmReader.__init__ ("/uc3d_fb" +:+ str idx)))
          (Viewport.set_timers
             (Viewport.timers v
                ++ [(0, Viewport.delayed_close_cb (Viewport._fb v) (Viewport._geom v))])
             (Viewport.set_view_keepalive None v)),
        σ0))).
  { unfold Viewport._on_cam_changed.
    cbv beta iota delta [bind self zoom get fst snd].
    pose proof (lookup_lt_Some _ _ _ Hmeta) as Hlt.
    replace (k <? 0) with false by (symmetry; apply Z.ltb_ge; lia).
    replace (Z.of_nat (length (Viewport._cams_meta v)) <=? k) with false
      by (symmetry; apply Z.leb_gt; lia).
    cbn [orb]. rewrite Hmeta. fold idx.
    replace (idx =? Viewport._active_idx v) with false
      by (symmetry; apply Z.eqb_neq; exact Hne).
    unfold try_except, Viewport._open_camera_by_index.
    cbv beta iota delta [bind self sys zoom get modify fst snd].
    rewrite release_current_buffers_run. fold σ0.
    unfold Viewport.singleShot, Viewport.fb_connect, call.
    cbv beta iota delta [bind self sys zoom get modify fst snd ret raise].
    cbn [Viewport._fb Viewport.set_fb Viewport.set_timers Viewport.set_view_keepalive
           Viewport.timers Viewport._geom].
    rewrite (frame_connect_missing _ σ0 Hmiss0).
    reflexivity. }
  subst v' out. rewrite Hrun. cbn [fst snd].
  cbn [Viewport._fb Viewport._geom Viewport._active_idx Viewport._cams_meta
         Viewport._view_keepalive Viewport.timers Viewport.set_fb Viewport.set_timers
         Viewport.set_view_keepalive].
  do 8 (split; [reflexivity|]). split.
  - intros k0 meta0 Hk0 Hm0 Hsame. apply (on_cam_changed_same _ _ k0 meta0 Hk0); assumption.
  - intros k0 Hout. unfold Viewport._on_cam_changed.
    cbv beta iota delta [bind self zoom get fst snd].
    replace ((k0 <? 0) || (Z.of_nat (length (Viewport._cams_meta v)) <=? k0)) with true;
      [reflexivity|].
    symmetry. apply orb_true_iff.
    destruct Hout as [Hneg|Hbig]; [left; apply Z.ltb_lt | right; apply Z.leb_le]; assumption.
Qed.

Lemma on_cam_changed_missing_camera_witness :
  let v := fst Scenarios.viewing_0_of_3 in
  let σ := snd Scenarios.viewing_0_of_3 in
  let meta := {| cam_name := "top"; cam_index := 2; cam_count := 3;
                 cam_width := 2; cam_height := 2 |} in
  (0 <= 2 ∧ Viewport._cams_meta v !! Z.to_nat 2 = Some meta
   ∧ cam_index meta ≠ Viewport._active_idx v
   ∧ files σ !! ("/dev/shm/uc3d_fb" +:+ str (cam_index meta)) = None)
  ∧ fst (Viewport._on_cam_changed 2 (v, σ)) = Ok tt
  ∧ Viewport._active_idx (fst (snd (Viewport._on_cam_changed 2 (v, σ)))) = 0
  ∧ Viewport._fb (fst (snd (Viewport._on_cam_changed 2 (v, σ))))
    = Some (FrameShmReader.__init__ "/uc3d_fb2")
  ∧ Viewport._on_cam_changed 0 (snd (Viewport._on_cam_changed 2 (v, σ)))
    = (Ok tt, snd (Viewport._on_cam_changed 2 (v, σ))).
Proof.
  intros v σ meta.
  assert (H1 : 0 <= 2) by lia.
  assert (H2 : Viewport._cams_meta v !! Z.to_nat 2 = Some meta) by reflexivity.
  assert (H3 : cam_index meta ≠ Viewport._active_idx v) by (vm_compute; discriminate).
  assert (H4 : files σ !! ("/dev/shm/uc3d_fb" +:+ str (cam_index meta)) = None)
    by (vm_compute; reflexivity).
  split; [auto|].
  destruct (on_cam_changed_missing_camera v σ 2 meta H1 H2 H3 H4)
    as (Hok & _ & _ & Hfb & _ & Hidx & _ & _ & Hsame & _).
  split; [exact Hok|]. split; [rewrite Hidx; vm_compute; reflexivity|].
  split; [exact Hfb|].
  apply (Hsame 0 {| cam_name := "front"; cam_index := 0; cam_count := 3;
                    cam_width := 2; cam_height := 2 |});
    [lia | reflexivity | vm_compute; reflexivity].
Defined.

(** ** Releasing the view, then closing the old readers *)

Lemma frame_close_idle (r : FrameShmReader.t) (σ : Sys) (m f : nat) (o : mmap_obj)
    (path : string) :
  FrameShmReader.mm r = Some m → FrameShmReader.fd r = Some f →
  mapped σ m o → mo_exports o = 0%nat → fds σ !! f = Some path →
  FrameShmReader.close (r, σ)
  = (Ok tt,
     (FrameShmReader.set_fd None (FrameShmReader.set_mm None r),
      set_fds (delete f)
        (set_mmaps <[m := {| mo_shm := mo_shm o; mo_exports := 0; mo_closed := true |}]> σ))).
Proof.
  intros Hmm Hfd [Hm Hc] Hex Hf. unfold FrameShmReader.close, mmap.close, os.close.
  cbv beta iota delta [try_finally bind self sys zoom get modify raise ret fst snd].
  rewrite Hmm, Hfd. cbn [fst snd]. rewrite Hm, Hc, Hex. cbn [Nat.ltb Nat.leb fst snd].
  cbn [fds set_mmaps]. rewrite Hf. reflexivity.
Qed.

Lemma geo_close_idle (r : GeoShmReader.t) (σ : Sys) (m f : nat) (o : mmap_obj)
    (path : string) :
  GeoShmReader.mm r = Some m → GeoShmReader.fd r = Some f →
  mapped σ m o → mo_exports o = 0%nat → fds σ !! f = Some path →
  GeoShmReader.close (r, σ)
  = (Ok tt,
     (GeoShmReader.set_fd None (GeoShmReader.set_mm None r),
      set_fds (delete f)
        (set_mmaps <[m := {| mo_shm := mo_shm o; mo_exports := 0; mo_closed := true |}]> σ))).
Proof.
  intros Hmm Hfd [Hm Hc] Hex Hf. unfold GeoShmReader.close, mmap.close, os.close.
  cbv beta iota delta [try_finally bind self sys zoom get modify raise ret fst snd].
  rewrite Hmm, Hfd. cbn [fst snd]. rewrite Hm, Hc, Hex. cbn [Nat.ltb Nat.leb fst snd].
  cbn [fds set_mmaps]. rewrite Hf. reflexivity.
Qed.

(** X14. Why the camera switch drops the view before it closes: with the
    last view of the old frame mapping kept alive in [_view_keepalive],
    [_release_current_buffers] followed by [_delayed_close] on the old
    readers returns normally at the first attempt.  Both old mappings are
    closed, both descriptors are given back, the readers forget their
    mapping, and no further attempt is scheduled. *)
Theorem release_then_delayed_close (v : Viewport.t) (σ : Sys)
    (fb : FrameShmReader.t) (g : GeoShmReader.t) (mv : memview)
    (mf mg ff fg : nat) (fo go : mmap_obj) (pf pg : string) :
  Viewport._view_keepalive v = Some mv → mv_obj mv = mf →
  FrameShmReader.mm fb = Some mf → FrameShmReader.fd fb = Some ff →
  GeoShmReader.mm g = Some mg → GeoShmReader.fd g = Some fg →
  mapped σ mf fo → mo_exports fo = 1%nat →
  mapped σ mg go → mo_exports go = 0%nat →
  fds σ !! ff = Some pf → fds σ !! fg = Some pg →
  mf ≠ mg → ff ≠ fg →
  let st := snd (Viewport._release_current_buffers (v, σ)) in
  let out := Viewport._delayed_close (Some fb) (Some g) st in
  fst out = Ok tt
  ∧ fst (snd out) = Viewport.set_view_keepalive None v
  ∧ mmaps (snd (snd out)) !! mf
    = Some {| mo_shm := mo_shm fo; mo_exports := 0; mo_closed := true |}
  ∧ mmaps (snd (snd out)) !! mg
    = Some {| mo_shm := mo_shm go; mo_exports := 0; mo_closed := true |}
  ∧ fds (snd (snd out)) = delete fg (delete ff (fds σ))
  ∧ files (snd (snd out)) = files σ.
Proof.
  intros Hkeep Hobj Hfm Hffd Hgm Hgfd [Hmf Hcf] Hexf [Hmg Hcg] Hexg Hff Hfg Hm Hf st out.
  subst st out. rewrite release_current_buffers_run. cbn [snd].
  rewrite Hkeep. unfold released, mmap.release.
  cbv beta iota delta [bind get modify ret fst snd]. rewrite Hobj, Hmf, Hexf.
  cbn [pred snd].
  set (fo1 := {| mo_shm := mo_shm fo; mo_exports := 0; mo_closed := mo_closed fo |}).
  set (σ1 := set_mmaps <[mf := fo1]> σ).
  assert (H1 : mapped σ1 mf fo1) by (split; [apply lookup_insert_eq | exact Hcf]).
  unfold Viewport._delayed_close, call.
  cbv beta iota delta [bind ret fst snd].
  rewrite (frame_close_idle fb σ1 mf ff fo1 pf Hfm Hffd H1 eq_refl Hff).
  cbn [mo_shm fo1].
  set (σ2 := set_fds (delete ff) (set_mmaps _ σ1)).
  assert (H2 : mapped σ2 mg go).
  { split; [|exact Hcg]. cbn [σ2 σ1 mmaps set_fds set_mmaps].
    rewrite !lookup_insert_ne by exact Hm. exact Hmg. }
  assert (Hfg2 : fds σ2 !! fg = Some pg).
  { cbn [σ2 σ1 fds set_fds set_mmaps]. rewrite lookup_delete_ne by exact Hf. exact Hfg. }
  rewrite (geo_close_idle g σ2 mg fg go pg Hgm Hgfd H2 Hexg Hfg2).
  cbn [fst snd].
  split; [reflexivity|]. split; [reflexivity|].
  cbn [σ2 σ1 mmaps fds files set_fds set_mmaps].
  split; [rewrite lookup_insert_ne by (intros E; apply Hm; symmetry; exact E);
          rewrite insert_insert_eq; apply lookup_insert_eq|].
  split; [apply lookup_insert_eq|].
  split; reflexivity.
Qed.

Lemma release_then_delayed_close_witness :
  let v := fst Scenarios.viewing_0_ticked in
  let σ := snd Scenarios.viewing_0_ticked in
  let fb := default (FrameShmReader.__init__ "") (Viewport._fb v) in
  let g := default (GeoShmReader.__init__ "") (Viewport._geom v) in
  let mv := {| mv_obj := 0; mv_start := 36; mv_len := 12 |} in
  let fo := {| mo_shm := Fixtures.frame_seg 1 0 7; mo_exports := 1; mo_closed := false |} in
  let go := open_mmap (Fixtures.geom_seg 4) in
  (Viewport._view_keepalive v = Some mv
   ∧ FrameShmReader.mm fb = Some 0%nat ∧ FrameShmReader.fd fb = Some 0%nat
   ∧ GeoShmReader.mm g = Some 1%nat ∧ GeoShmReader.fd g = Some 1%nat
   ∧ mapped σ 0 fo ∧ mapped σ 1 go
   ∧ fds σ !! 0%nat = Some "/dev/shm/uc3d_fb0" ∧ fds σ !! 1%nat = Some "/dev/shm/uc3d_geom0")
  ∧ fst (Viewport._delayed_close (Some fb) (Some g)
           (snd (Viewport._release_current_buffers (v, σ)))) = Ok tt
  ∧ fds (snd (snd (Viewport._delayed_close (Some fb) (Some g)
                     (snd (Viewport._release_current_buffers (v, σ)))))) = ∅.
Proof.
  intros v σ fb g mv fo go.
  assert (H1 : Viewport._view_keepalive v = Some mv) by (vm_compute; reflexivity).
  assert (H2 : FrameShmReader.mm fb = Some 0%nat) by (vm_compute; reflexivity).
  assert (H3 : FrameShmReader.fd fb = Some 0%nat) by (vm_compute; reflexivity).
  assert (H4 : GeoShmReader.mm g = Some 1%nat) by (vm_compute; reflexivity).
  assert (H5 : GeoShmReader.fd g = Some 1%nat) by (vm_compute; reflexivity).
  assert (H6 : mapped σ 0 fo) by (split; vm_compute; reflexivity).
  assert (H7 : mapped σ 1 go) by (split; vm_compute; reflexivity).
  assert (H8 : fds σ !! 0%nat = Some "/dev/shm/uc3d_fb0") by (vm_compute; reflexivity).
  assert (H9 : fds σ !! 1%nat = Some "/dev/shm/uc3d_geom0") by (vm_compute; reflexivity).
  split; [auto 12|].
  destruct (release_then_delayed_close v σ fb g mv 0 1 0 1 fo go _ _
              H1 eq_refl H2 H3 H4 H5 H6 eq_refl H7 eq_refl H8 H9)
    as (Hok & _ & _ & _ & Hfds & _); [lia | lia |].
  split; [exact Hok|]. rewrite Hfds. vm_compute. reflexivity.
Defined.

(** ** The stand-alone viewer and the reader agree on the layout *)

Lemma read_header_run (σ : Sys) (m : nat) (o : mmap_obj) :
  mapped σ m o → 0 <= shm_size (mo_shm o) →
  let shm := mo_shm o in
  let t := now σ in
  uc3d_view.read_header m σ
  = if shm_size shm <? 28 then (Raise StructError, set_now S σ)
    else if negb (fb_magic shm t =? MAGIC)
    then (Raise (RuntimeError "Bad magic" (fb_magic shm t)), set_now S σ)
    else if negb (fb_format shm t =? 0)
    then (Raise (RuntimeError "Unsupported pixel format" (fb_format shm t)), set_now S σ)
    else (Ok {| uc3d_view.ver := fb_version shm t; uc3d_view.fmt := fb_format shm t;
                uc3d_view.w := fb_width shm t; uc3d_view.h := fb_height shm t;
                uc3d_view.stride := fb_stride shm t; uc3d_view.bufcnt := fb_bufcnt shm t;
                uc3d_view.active := uint_at shm t 24 4 |},
          set_now S σ).
Proof.
  intros Hmap Hsz shm t. unfold uc3d_view.read_header. unfold bind at 1.
  rewrite (read_slice_prefix _ _ _ _ Hmap) by (first [exact Hsz | cbn; lia]).
  rewrite length_bytes_at. change (Z.of_nat uc3d_view.HDR_SIZE) with 28. fold shm.
  destruct (Z.ltb_spec (shm_size shm) 28) as [Hlt|Hge].
  - replace (Z.to_nat (Z.min 28 (shm_size shm)) =? uc3d_view.HDR_SIZE)%nat with false
      by (symmetry; apply Nat.eqb_neq; unfold uc3d_view.HDR_SIZE; lia).
    reflexivity.
  - rewrite Z.min_l by lia. change (Z.to_nat 28) with 28%nat.
    change (28 =? uc3d_view.HDR_SIZE)%nat with true. cbn [negb].
    rewrite !(field_bytes_at shm (now σ)) by lia.
    change (Z.of_nat 0) with 0. change (Z.of_nat 4) with 4. change (Z.of_nat 6) with 6.
    change (Z.of_nat 8) with 8. change (Z.of_nat 12) with 12. change (Z.of_nat 16) with 16.
    change (Z.of_nat 20) with 20. change (Z.of_nat 24) with 24.
    fold t. unfold fb_magic, fb_format.
    destruct (negb (uint_at shm t 0 4 =? MAGIC)); [reflexivity|].
    destruct (negb (uint_at shm t 6 2 =? 0)); reflexivity.
Qed.

(** X15. The stand-alone viewer and [FrameShmReader] read the same layout.
    Whenever [read_header] of the viewer accepts the header of a segment,
    [connect] of the reader, loading the header at the same instant, accepts
    it too and caches the same width, height, stride and buffer count, and
    the viewer's [buffer_offset] of every index is the reader's [_buf_base].
    The header the viewer returns has the pixel format RGB888, which it has
    checked, and reading it took one load. *)
Theorem viewer_agrees_with_reader (r : FrameShmReader.t) (σ σv : Sys) (shm : Shm)
    (m : nat) (o : mmap_obj) (hdr : uc3d_view.header) (σv' : Sys) :
  files σ !! FrameShmReader._path r = Some shm →
  FrameShmReader.header_size r = 28 →
  mapped σv m o → mo_shm o = shm → now σv = now σ →
  uc3d_view.read_header m σv = (Ok hdr, σv') →
  let out := FrameShmReader.connect (r, σ) in
  let r' := fst (snd out) in
  fst out = Ok tt
  ∧ (FrameShmReader.width r', FrameShmReader.height r',
     FrameShmReader.stride r', FrameShmReader.bufcnt r')
    = (uc3d_view.w hdr, uc3d_view.h hdr, uc3d_view.stride hdr, uc3d_view.bufcnt hdr)
  ∧ uc3d_view.fmt hdr = FMT_RGB888
  ∧ σv' = set_now S σv
  ∧ ∀ i, uc3d_view.buffer_offset i (uc3d_view.h hdr) (uc3d_view.stride hdr)
         = FrameShmReader._buf_base r' i.
Proof.
  intros Hf Hh Hmap Hshm Hnow Hread out r'. subst out r' shm.
  assert (Hsz : 0 <= shm_size (mo_shm o) ∨ shm_size (mo_shm o) < 0) by lia.
  destruct Hsz as [Hsz|Hneg].
  2:{ exfalso. revert Hread. unfold uc3d_view.read_header. unfold bind at 1.
      unfold mmap.read_slice. unfold bind at 1. rewrite (lookup_mapped _ _ _ Hmap).
      cbv beta iota delta [bind get modify ret fst snd]. unfold mmap.clamp.
      change (Z.of_nat uc3d_view.HDR_SIZE) with 28.
      replace (0 <? 0) with false by reflexivity. replace (28 <? 0) with false by reflexivity.
      rewrite !Z.min_r by lia. rewrite length_bytes_at.
      replace (Z.to_nat (shm_size (mo_shm o) - shm_size (mo_shm o)) =? uc3d_view.HDR_SIZE)%nat
        with false by (symmetry; apply Nat.eqb_neq; unfold uc3d_view.HDR_SIZE; lia).
      discriminate. }
  rewrite (read_header_run σv m o Hmap Hsz) in Hread. cbv zeta in Hread.
  rewrite Hnow in Hread.
  destruct (Z.ltb_spec (shm_size (mo_shm o)) 28) as [Hlt|Hge]; [discriminate|].
  destruct (Z.eqb_spec (fb_magic (mo_shm o) (now σ)) MAGIC) as [Hmagic|]; [|discriminate].
  destruct (Z.eqb_spec (fb_format (mo_shm o) (now σ)) 0) as [Hfmt|]; [|discriminate].
  cbn [negb] in Hread. injection Hread as <- <-.
  rewrite (frame_connect_run r σ (mo_shm o) Hf Hh).
  replace (shm_size (mo_shm o) <=? 0) with false by (symmetry; apply Z.leb_gt; lia).
  replace (shm_size (mo_shm o) <? 28) with false by (symmetry; apply Z.ltb_ge; lia).
  rewrite Hmagic, Z.eqb_refl. cbn [fst snd].
  cbn [uc3d_view.w uc3d_view.h uc3d_view.stride uc3d_view.bufcnt uc3d_view.fmt].
  split; [reflexivity|]. split; [reflexivity|]. split; [exact Hfmt|].
  split; [reflexivity|].
  intros i. unfold uc3d_view.buffer_offset, FrameShmReader._buf_base, frame_cached.
  cbn [FrameShmReader.header_size FrameShmReader.onebuf_size FrameShmReader.set_onebuf_size
         FrameShmReader.set_dims FrameShmReader.set_mm FrameShmReader.set_fd].
  rewrite Hh. reflexivity.
Qed.

Lemma viewer_agrees_with_reader_witness :
  let r := FrameShmReader.__init__ "/uc3d_fb0" in
  let σ := Fixtures.sys0 Fixtures.files_7_4 in
  let σv := snd Scenarios.viewer_7 in
  let o := open_mmap (Fixtures.frame_seg 1 0 7) in
  let hdr := {| uc3d_view.ver := 1; uc3d_view.fmt := 0; uc3d_view.w := 2; uc3d_view.h := 2;
                uc3d_view.stride := 6; uc3d_view.bufcnt := 2; uc3d_view.active := 0 |} in
  (fst Scenarios.viewer_7 = Ok (0%nat, 68)
   ∧ files σ !! FrameShmReader._path r = Some (Fixtures.frame_seg 1 0 7)
   ∧ FrameShmReader.header_size r = 28
   ∧ mapped σv 0 o ∧ now σv = now σ
   ∧ uc3d_view.read_header 0 σv = (Ok hdr, set_now S σv))
  ∧ fst (FrameShmReader.connect (r, σ)) = Ok tt
  ∧ FrameShmReader._buf_base (fst (snd (FrameShmReader.connect (r, σ)))) 1 = 48
  ∧ uc3d_view.buffer_offset 1 2 6 = 48.
Proof.
  intros r σ σv o hdr.
  assert (H0 : fst Scenarios.viewer_7 = Ok (0%nat, 68)) by (vm_compute; reflexivity).
  assert (H1 : files σ !! FrameShmReader._path r = Some (Fixtures.frame_seg 1 0 7))
    by (vm_compute; reflexivity).
  assert (H2 : FrameShmReader.header_size r = 28) by reflexivity.
  assert (H3 : mapped σv 0 o) by (split; vm_compute; reflexivity).
  assert (H4 : now σv = now σ) by (vm_compute; reflexivity).
  assert (H5 : uc3d_view.read_header 0 σv = (Ok hdr, set_now S σv))
    by (vm_compute; reflexivity).
  split; [auto 10|].
  destruct (viewer_agrees_with_reader r σ σv _ 0%nat o hdr _ H1 H2 H3 eq_refl H4 H5)
    as (Hok & _ & _ & _ & Hoff).
  split; [exact Hok|]. split; [rewrite <- Hoff; reflexivity | reflexivity].
Defined.

(** ** The buffer the viewer picks *)

Lemma with_exports_twice m shm e e' σ :
  with_exports m shm e (with_exports m shm e' σ) = with_exports m shm e σ.
Proof.
  unfold with_exports, set_mmaps. cbn [now files fds mmaps shared].
  rewrite insert_insert_eq. reflexivity.
Qed.

Lemma with_exports_at_instant m shm e t σ :
  with_exports m shm e (at_instant t σ) = at_instant t (with_exports m shm e σ).
Proof. reflexivity. Qed.

Lemma with_exports_id m shm e σ :
  mmaps σ !! m = Some {| mo_shm := shm; mo_exports := e; mo_closed := false |} →
  with_exports m shm e σ = σ.
Proof.
  intros H. unfold with_exports, set_mmaps. rewrite (insert_id _ _ _ H).
  destruct σ; reflexivity.
Qed.

Lemma truthy_land_1 s : truthy (Z.land s 1) = Z.odd s.
Proof. unfold truthy. rewrite land_1_even. apply Z.negb_even. Qed.

Lemma drop_view_run m shm e e' prev σ :
  mmaps σ !! m = Some {| mo_shm := shm; mo_exports := e'; mo_closed := false |} →
  match prev with
  | Some v => mv_obj v = m ∧ e' = S e
  | None => e' = e
  end →
  uc3d_view.drop_view prev σ = (Ok tt, with_exports m shm e σ).
Proof.
  intros Hm Hprev. destruct prev as [v|]; cbn [uc3d_view.drop_view].
  - destruct Hprev as [Hobj ->]. unfold mmap.release.
    cbv beta iota delta [bind get modify ret fst snd]. rewrite Hobj, Hm. reflexivity.
  - subst e'. unfold ret. rewrite (with_exports_id _ _ _ _ Hm). reflexivity.
Qed.

Lemma choose_loop_run (m : nat) (hdr : uc3d_view.header) (shm : Shm) (e : nat)
    (cands : list Z) :
  let h := uc3d_view.h hdr in
  let stride := uc3d_view.stride hdr in
  0 <= h * stride →
  (∀ c, c ∈ cands →
        0 <= uc3d_view.buffer_offset c h stride
        ∧ uc3d_view.buffer_offset c h stride + 8 + h * stride <= shm_size shm) →
  ∀ (prev : option memview) (e' : nat) (σ : Sys),
    mmaps σ !! m = Some {| mo_shm := shm; mo_exports := e'; mo_closed := false |} →
    match prev with
    | Some v => mv_obj v = m ∧ e' = S e
    | None => e' = e
    end →
    uc3d_view.choose_loop m hdr cands prev σ
    = match first_ready (buffer_seq shm h stride) cands (now σ) with
      | Some (c, t) =>
          (Ok (Some (c, buffer_seq shm h stride c t, buffer_view m h stride c)),
           with_exports m shm (S e) (at_instant (S t) σ))
      | None =>
          (Ok None, with_exports m shm e (at_instant (now σ + length cands) σ))
      end.
Proof.
  intros h stride Hlen. induction cands as [|c rest IH]; intros Hin prev e' σ Hm Hprev.
  - cbn [uc3d_view.choose_loop first_ready length]. unfold bind.
    rewrite (drop_view_run m shm e e' prev σ Hm Hprev). unfold ret.
    rewrite Nat.add_0_r, at_instant_now. reflexivity.
  - destruct (Hin c (list_elem_of_here c rest)) as [H0 Hfit].
    pose (o := {| mo_shm := shm; mo_exports := e'; mo_closed := false |}).
    assert (Hmap : mapped σ m o) by (split; [exact Hm | reflexivity]).
    cbn [uc3d_view.choose_loop first_ready length].
    unfold bind at 1. unfold uc3d_view.buf_payload_view. unfold bind at 1.
    fold h stride.
    rewrite (unpack_u64_ok _ _ o _ Hmap) by (cbn [mo_shm o]; lia).
    unfold bind at 1. change uc3d_view.BUF_HDR_SIZE with 8.
    rewrite (view_ok _ _ o)
      by (try apply mapped_set_now; cbn [mo_shm o]; first [exact Hmap | lia]).
    unfold ret at 1. cbv beta iota. change (mo_shm o) with shm.
    fold (buffer_seq shm h stride c (now σ)). fold (buffer_view m h stride c).
    unfold bind at 1.
    assert (Hm1 : mmaps (exported m o (set_now S σ)) !! m
                  = Some {| mo_shm := shm; mo_exports := S e'; mo_closed := false |})
      by apply lookup_insert_eq.
    assert (Hprev1 : match prev with
                     | Some v => mv_obj v = m ∧ S e' = S (S e)
                     | None => S e' = S e
                     end).
    { destruct prev as [v|]; [destruct Hprev as [? ->]; auto | subst e'; reflexivity]. }
    rewrite (drop_view_run m shm (S e) (S e') prev _ Hm1 Hprev1).
    rewrite truthy_land_1.
    assert (Hσ : with_exports m shm (S e) (exported m o (set_now S σ))
                 = with_exports m shm (S e) (at_instant (S (now σ)) σ)).
    { unfold with_exports, exported, set_mmaps, at_instant, set_now.
      cbn [now files fds mmaps shared]. rewrite insert_insert_eq. reflexivity. }
    rewrite Hσ.
    destruct (Z.odd (buffer_seq shm h stride c (now σ))); [reflexivity|].
    rewrite (IH (fun c' Hc' => Hin c' (list_elem_of_further _ _ _ Hc'))
               (Some (buffer_view m h stride c)) (S e)
               (with_exports m shm (S e) (at_instant (S (now σ)) σ)))
      by (first [apply lookup_insert_eq | split; reflexivity]).
    cbn [now with_exports at_instant set_now set_mmaps].
    destruct (first_ready (buffer_seq shm h stride) rest (S (now σ))) as [[c' t']|].
    + f_equal. unfold with_exports, set_mmaps, at_instant, set_now.
      cbn [now files fds mmaps shared]. rewrite insert_insert_eq. reflexivity.
    + f_equal. unfold with_exports, set_mmaps, at_instant, set_now.
      cbn [now files fds mmaps shared]. rewrite insert_insert_eq.
      f_equal. lia.
Qed.

Lemma first_ready_some seq_at cands t c t' :
  first_ready seq_at cands t = Some (c, t') →
  c ∈ cands ∧ Z.odd (seq_at c t') = true ∧ (t <= t' < t + length cands)%nat.
Proof.
  revert t. induction cands as [|c0 rest IH]; intros t H; [discriminate|].
  cbn [first_ready] in H. cbn [length]. destruct (Z.odd (seq_at c0 t)) eqn:Hodd.
  - injection H as <- <-. split; [apply list_elem_of_here|]. split; [exact Hodd | lia].
  - destruct (IH _ H) as (Hc & Ho & Ht).
    split; [apply list_elem_of_further; exact Hc|]. split; [exact Ho | lia].
Qed.

Lemma first_ready_none seq_at cands t :
  first_ready seq_at cands t = None →
  ∀ j c, cands !! j = Some c → Z.odd (seq_at c (t + j)%nat) = false.
Proof.
  revert t. induction cands as [|c0 rest IH]; intros t H j c Hj; [discriminate|].
  cbn [first_ready] in H. destruct (Z.odd (seq_at c0 t)) eqn:Hodd; [discriminate|].
  destruct j as [|j].
  - injection Hj as <-. rewrite Nat.add_0_r. exact Hodd.
  - cbn in Hj. replace (t + S j)%nat with (S t + j)%nat by lia. exact (IH _ H j c Hj).
Qed.

Lemma candidates_in_range (hdr : uc3d_view.header) c :
  0 <= uc3d_view.active hdr < uc3d_view.bufcnt hdr →
  c ∈ uc3d_view.candidates hdr → 0 <= c < uc3d_view.bufcnt hdr.
Proof.
  intros Ha Hc. unfold uc3d_view.candidates in Hc.
  apply elem_of_cons in Hc. destruct Hc as [->|Hc]; [exact Ha|].
  apply list_elem_of_filter in Hc. destruct Hc as [_ Hc].
  apply elem_of_seqZ in Hc. lia.
Qed.

(** X16. [choose_latest_ready] on a mapping that holds the [bufcnt] buffers
    of the header, the active index among them: it examines the active
    buffer first and then the others in increasing order, one load of the
    sequence each, and returns the first whose sequence is odd, with that
    sequence and the view over its [h*stride] payload bytes, or None when
    every sequence it loaded was even.  Every view it took and does not
    return has been released: the mapping has one export more when a buffer
    is returned, and none more otherwise.  In particular an active buffer
    that is ready when the call starts is the one returned. *)
Theorem choose_latest_ready_spec (m : nat) (o : mmap_obj) (σ : Sys) (hdr : uc3d_view.header) :
  let h := uc3d_view.h hdr in
  let stride := uc3d_view.stride hdr in
  let cands := uc3d_view.candidates hdr in
  let seq_at := buffer_seq (mo_shm o) h stride in
  mapped σ m o →
  0 <= uc3d_view.active hdr < uc3d_view.bufcnt hdr → 0 <= h * stride →
  28 + uc3d_view.bufcnt hdr * (8 + h * stride) <= shm_size (mo_shm o) →
  uc3d_view.choose_latest_ready m hdr σ
  = match first_ready seq_at cands (now σ) with
    | Some (c, t) =>
        (Ok (Some (c, seq_at c t, buffer_view m h stride c)),
         exported m o (at_instant (S t) σ))
    | None => (Ok None, at_instant (now σ + length cands) σ)
    end
  ∧ (∀ c s v st,
       uc3d_view.choose_latest_ready m hdr σ = (Ok (Some (c, s, v)), st) →
       Z.odd s = true ∧ 0 <= c < uc3d_view.bufcnt hdr
       ∧ ∃ j, cands !! j = Some c ∧ s = seq_at c (now σ + j)%nat
              ∧ ∀ i ci, (i < j)%nat → cands !! i = Some ci →
                        Z.odd (seq_at ci (now σ + i)%nat) = false)
  ∧ (fst (uc3d_view.choose_latest_ready m hdr σ) = Ok None
     ↔ ∀ j c, cands !! j = Some c → Z.odd (seq_at c (now σ + j)%nat) = false)
  ∧ (Z.odd (seq_at (uc3d_view.active hdr) (now σ)) = true →
     fst (uc3d_view.choose_latest_ready m hdr σ)
     = Ok (Some (uc3d_view.active hdr, seq_at (uc3d_view.active hdr) (now σ),
                 buffer_view m h stride (uc3d_view.active hdr)))).
Proof.
  intros h stride cands seq_at [Hm Hc] Ha Hlen Hfit.
  assert (Ho : o = {| mo_shm := mo_shm o; mo_exports := mo_exports o; mo_closed := false |})
    by (destruct o; cbn in *; subst; reflexivity).
  assert (Hin : ∀ c, c ∈ cands →
                 0 <= uc3d_view.buffer_offset c h stride
                 ∧ uc3d_view.buffer_offset c h stride + 8 + h * stride
                   <= shm_size (mo_shm o)).
  { intros c Hcin. pose proof (candidates_in_range hdr c Ha Hcin) as Hr.
    unfold uc3d_view.buffer_offset. change (Z.of_nat uc3d_view.HDR_SIZE) with 28.
    change uc3d_view.BUF_HDR_SIZE with 8.
    set (one := 8 + h * stride) in *.
    assert (0 <= c * one) by (apply Z.mul_nonneg_nonneg; lia).
    assert (c * one + one <= uc3d_view.bufcnt hdr * one).
    { replace (c * one + one) with ((c + 1) * one) by lia.
      apply Z.mul_le_mono_nonneg_r; lia. }
    lia. }
  assert (Hrun : uc3d_view.choose_latest_ready m hdr σ
    = match first_ready seq_at cands (now σ) with
      | Some (c, t) =>
          (Ok (Some (c, seq_at c t, buffer_view m h stride c)),
           exported m o (at_instant (S t) σ))
      | None => (Ok None, at_instant (now σ + length cands) σ)
      end).
  { unfold uc3d_view.choose_latest_ready. fold cands.
    rewrite (choose_loop_run m hdr (mo_shm o) (mo_exports o) cands Hlen Hin None
               (mo_exports o) σ) by (first [rewrite Hm, Ho at 1; reflexivity | reflexivity]).
    fold h stride seq_at.
    destruct (first_ready seq_at cands (now σ)) as [[c t]|].
    - f_equal. unfold with_exports, exported. rewrite Hc. reflexivity.
    - f_equal. rewrite with_exports_at_instant. f_equal.
      apply with_exports_id. rewrite Hm, Ho at 1. reflexivity. }
  split; [exact Hrun|]. rewrite Hrun. split; [|split].
  - intros c s v st Hres.
    destruct (first_ready seq_at cands (now σ)) as [[c0 t0]|] eqn:Hfr; [|discriminate].
    injection Hres as <- <- <- <-.
    destruct (first_ready_some _ _ _ _ _ Hfr) as (Hcin & Hodd & Ht).
    split; [exact Hodd|]. split; [exact (candidates_in_range hdr c0 Ha Hcin)|].
    clear Hrun Hin. revert Hfr. generalize (now σ) as t. intros t Hfr.
    assert (Hgen : ∀ cs t, first_ready seq_at cs t = Some (c0, t0) →
      ∃ j, cs !! j = Some c0 ∧ t0 = (t + j)%nat
           ∧ ∀ i ci, (i < j)%nat → cs !! i = Some ci → Z.odd (seq_at ci (t + i)%nat) = false).
    { clear. induction cs as [|c1 rest IH]; intros t H; [discriminate|].
      cbn [first_ready] in H. destruct (Z.odd (seq_at c1 t)) eqn:Hodd.
      - injection H as <- <-. exists 0%nat. split; [reflexivity|].
        split; [lia|]. intros i ci Hi. lia.
      - destruct (IH _ H) as (j & Hj & Ht0 & Hbefore). exists (S j).
        split; [exact Hj|]. split; [lia|].
        intros [|i] ci Hi Hci.
        + injection Hci as <-. rewrite Nat.add_0_r. exact Hodd.
        + replace (t + S i)%nat with (S t + i)%nat by lia.
          apply (Hbefore i ci); [lia | exact Hci]. }
    destruct (Hgen cands t Hfr) as (j & Hj & Ht0 & Hbefore).
    exists j. subst t0. auto.
  - split.
    + intros Hnone.
      destruct (first_ready seq_at cands (now σ)) as [[c0 t0]|] eqn:Hfr; [discriminate|].
      exact (first_ready_none _ _ _ Hfr).
    + intros Hall.
      destruct (first_ready seq_at cands (now σ)) as [[c0 t0]|] eqn:Hfr; [|reflexivity].
      exfalso. clear Hrun Hin.
      assert (Hgen : ∀ cs t, first_ready seq_at cs t = Some (c0, t0) →
        ∃ j, cs !! j = Some c0 ∧ Z.odd (seq_at c0 (t + j)%nat) = true).
      { clear. induction cs as [|c1 rest IH]; intros t H; [discriminate|].
        cbn [first_ready] in H. destruct (Z.odd (seq_at c1 t)) eqn:Hodd.
        - injection H as <- <-. exists 0%nat. rewrite Nat.add_0_r. auto.
        - destruct (IH _ H) as (j & Hj & Ho). exists (S j). split; [exact Hj|].
          replace (t + S j)%nat with (S t + j)%nat by lia. exact Ho. }
      destruct (Hgen cands (now σ) Hfr) as (j & Hj & Hodd).
      rewrite (Hall j c0 Hj) in Hodd. discriminate.
  - intros Hodd. unfold cands, uc3d_view.candidates. cbn [first_ready].
    rewrite Hodd. reflexivity.
Qed.

Lemma choose_latest_ready_witness :
  let σ := snd Scenarios.viewer_writing in
  let o := open_mmap Scenarios.writing_frame in
  let hdr := {| uc3d_view.ver := 1; uc3d_view.fmt := 0; uc3d_view.w := 2; uc3d_view.h := 2;
                uc3d_view.stride := 6; uc3d_view.bufcnt := 2; uc3d_view.active := 0 |} in
  (fst (uc3d_view.read_header 0 σ) = Ok hdr
   ∧ mapped σ 0 o
   ∧ 0 <= uc3d_view.active hdr < uc3d_view.bufcnt hdr
   ∧ 0 <= uc3d_view.h hdr * uc3d_view.stride hdr
   ∧ 28 + uc3d_view.bufcnt hdr * (8 + uc3d_view.h hdr * uc3d_view.stride hdr)
     <= shm_size (mo_shm o))
  ∧ uc3d_view.choose_latest_ready 0 hdr σ
    = (Ok (Some (1, 5, {| mv_obj := 0; mv_start := 56; mv_len := 12 |})),
       exported 0 o (at_instant 2 σ)).
Proof.
  intros σ o hdr.
  assert (H0 : fst (uc3d_view.read_header 0 σ) = Ok hdr) by (vm_compute; reflexivity).
  assert (H1 : mapped σ 0 o) by (split; vm_compute; reflexivity).
  assert (H2 : 0 <= uc3d_view.active hdr < uc3d_view.bufcnt hdr)
    by (split; [vm_compute; discriminate | vm_compute; reflexivity]).
  assert (H3 : 0 <= uc3d_view.h hdr * uc3d_view.stride hdr) by (vm_compute; discriminate).
  assert (H4 : 28 + uc3d_view.bufcnt hdr * (8 + uc3d_view.h hdr * uc3d_view.stride hdr)
               <= shm_size (mo_shm o)) by (vm_compute; discriminate).
  split; [auto 10|].
  destruct (choose_latest_ready_spec 0%nat o σ hdr H1 H2 H3 H4) as (Hrun & _).
  rewrite Hrun. vm_compute. reflexivity.
Defined.
